(** * SD card over SPI: a shallow embedding of drivers/sd-card/sd.c

    The driver talks to the card through one primitive of the platform,
    [spi_write_and_read], a full duplex exchange done in place on a buffer.
    The embedding threads an explicit machine state through every function:
    the session descriptor, the byte buffers the driver is handed or keeps on
    its stack, the state of the byte pipe and the log of all exchanges.

    Integers are [Z] with the C wrap-around written out ([u8], [u16], [u32],
    [u64]); byte buffers are [list Z]. *)

From Stdlib Require Import ZArith List Bool Lia.
Import ListNotations.
Local Open Scope Z_scope.

(** ** Fixed width arithmetic *)

Definition u8 (x : Z) : Z := x mod 2 ^ 8.
Definition u16 (x : Z) : Z := x mod 2 ^ 16.
Definition u32 (x : Z) : Z := x mod 2 ^ 32.
Definition u64 (x : Z) : Z := x mod 2 ^ 64.

(** ** Macros and constants of sd.c *)

Definition BIT_CCS : Z := Z.shiftl 1 30.
Definition BIT_APPLICATION_CMD : Z := Z.shiftl 1 7.

Definition CMD (x : Z) : Z := x + 64.
Definition ACMD (x : Z) : Z := Z.lor (CMD x) BIT_APPLICATION_CMD.

Definition CMD0_RETRY_NUMBER : Z := 5.
Definition WAIT_RESP_TIMEOUT : Z := 0x1FFFFFF.

Definition R1_READY_STATE : Z := 0x00.
Definition R1_IDLE_STATE : Z := 0x01.
Definition R1_ILLEGAL_COMMAND : Z := 0x04.

Definition R1_LEN : Z := 1.
Definition R2_LEN : Z := 2.
Definition R3_LEN : Z := 5.
Definition R7_LEN : Z := 5.
Definition CSD_LEN : Z := 18.
Definition CRC_LEN : Z := 2.
Definition CMD_LEN : Z := 8.

Definition STUFF_ARG : Z := 0x00000000.
Definition CMD8_ARG : Z := 0x000001AA.
Definition ACMD41_ARG : Z := 0x40000000.

(** Modelled from the spec: [DATA_BLOCK_LEN] is declared in sd.h, which is not
    among the sources; a block is the 512-byte fixed unit of card storage. *)
Definition DATA_BLOCK_LEN : Z := 512.

Definition DATA_BLOCK_BITS : Z := 9.
Definition MASK_ADDR_IN_BLOCK : Z := DATA_BLOCK_LEN - 1.
(* ~(uint64_t)MASK_ADDR_IN_BLOCK *)
Definition MASK_BLOCK_NUMBER : Z := u64 (Z.lnot MASK_ADDR_IN_BLOCK).

Definition START_1_BLOCK_TOKEN : Z := 0xFE.
Definition START_N_BLOCK_TOKEN : Z := 0xFC.
Definition STOP_TRANSMISSION_TOKEN : Z := 0xFD.
Definition MASK_RESPONSE_TOKEN : Z := 0x0E.
Definition MASK_ERROR_TOKEN : Z := 0xF0.

(** ** Buffers *)

(** [memset (buf + off) c n] *)
Definition memset (buf : list Z) (off : Z) (c : Z) (n : Z) : list Z :=
  firstn (Z.to_nat off) buf ++ repeat c (Z.to_nat n)
    ++ skipn (Z.to_nat (off + n)) buf.

(** The [n] bytes at [buf + off]. *)
Definition slice (buf : list Z) (off n : Z) : list Z :=
  firstn (Z.to_nat n) (skipn (Z.to_nat off) buf).

(** [memcpy (dst + off, src, length src)] *)
Definition blit (dst : list Z) (off : Z) (src : list Z) : list Z :=
  firstn (Z.to_nat off) dst ++ src
    ++ skipn (Z.to_nat off + length src) dst.

(** [buf[i] = v] *)
Definition store (buf : list Z) (i : Z) (v : Z) : list Z := blit buf i [v].

(** [buf[i]] *)
Definition load (buf : list Z) (i : Z) : Z := nth (Z.to_nat i) buf 0.

(** ** Data model *)

(** The buffers the driver reads and writes through pointers: the callers'
    data buffers and the arrays the driver keeps on its own stack
    ([first_block] and [last_block] of [sd_write], [buff] of
    [read_multiple_blocks]).  A stack array holds whatever the store holds
    for it when the function is entered. *)
Inductive buf_id : Type :=
| Stack_first_block
| Stack_last_block
| Stack_buff
| User (n : nat).

Definition buf_id_eqb (a b : buf_id) : bool :=
  match a, b with
  | Stack_first_block, Stack_first_block => true
  | Stack_last_block, Stack_last_block => true
  | Stack_buff, Stack_buff => true
  | User n, User m => Nat.eqb n m
  | _, _ => false
  end.

(** A non-null [uint8_t *]: a buffer and an offset into it. *)
Record ptr : Type := Ptr { base : buf_id; offset : Z }.

Definition ptr_add (p : ptr) (n : Z) : ptr := Ptr (base p) (offset p + n).

(** One call of [spi_write_and_read] as seen on the wire. *)
Record xfer : Type := Xfer {
  x_tx : list Z;     (* bytes clocked out *)
  x_rx : list Z;     (* bytes left in the buffer *)
  x_ok : bool        (* the call returned NO_OS_SUCCESS *)
}.

(** What a function of the driver does: it goes on with a value, returns
    NO_OS_FAILURE, or (in the model only) a loop has used up its fuel. *)
Inductive outcome (A : Type) : Type :=
| Ok (a : A)
| Err
| OutOfFuel.
Arguments Ok {A} a.
Arguments Err {A}.
Arguments OutOfFuel {A}.

(** One turn of a loop body. *)
Inductive step (S R : Type) : Type :=
| Continue (s : S)
| Break (r : R).
Arguments Continue {S R} s.
Arguments Break {S R} r.

(** Modelled from the spec: [struct cmd_desc] is declared in sd.h, which is
    not among the sources: an 8-bit command, a 32-bit argument, the expected
    response length and the response bytes. *)
Record cmd_desc : Type := Cmd_desc {
  cmd : Z;
  arg : Z;
  response : list Z;
  response_len : Z
}.

Section Driver.

(** The byte pipe.  [spi] is what [sd_desc->spi_desc] points to, [pipe_t]
    the state of everything behind it.  [exchange h p tx] is one call of
    [spi_write_and_read]: whether it returned NO_OS_SUCCESS, the received
    bytes, and the pipe afterwards. *)
Variable spi : Type.
Variable pipe_t : Type.
Variable exchange : spi -> pipe_t -> list Z -> bool * list Z * pipe_t.

(** Modelled from the spec: [struct sd_desc] is declared in sd.h, which is
    not among the sources: the reference to the byte pipe, [memory_size] and
    the scratch buffer ([CSD_LEN] bytes are exchanged through it). *)
Record sd_desc : Type := Sd_desc {
  spi_desc : spi;
  memory_size : Z;
  buff : list Z
}.

Record state : Type := State {
  sd : sd_desc;
  mem : buf_id -> list Z;
  pipe : pipe_t;
  trace : list xfer
}.

Definition M (A : Type) : Type := state -> outcome A * state.

Definition ret {A} (a : A) : M A := fun st => (Ok a, st).
Definition fail {A} : M A := fun st => (Err, st).
Definition out_of_fuel {A} : M A := fun st => (OutOfFuel, st).

Definition bind {A B} (m : M A) (f : A -> M B) : M B :=
  fun st =>
    match m st with
    | (Ok a, st') => f a st'
    | (Err, st') => (Err, st')
    | (OutOfFuel, st') => (OutOfFuel, st')
    end.

Notation "x <- m ;; k" := (bind m (fun x => k))
  (at level 61, m at next level, right associativity).
Notation "m ;;; k" := (bind m (fun _ => k))
  (at level 61, right associativity).

Definition get_sd : M sd_desc := fun st => (Ok (sd st), st).
Definition get_buff : M (list Z) := fun st => (Ok (buff (sd st)), st).
Definition set_buff (b : list Z) : M unit :=
  fun st =>
    (Ok tt, State (Sd_desc (spi_desc (sd st)) (memory_size (sd st)) b)
                  (mem st) (pipe st) (trace st)).
Definition set_memory_size (n : Z) : M unit :=
  fun st =>
    (Ok tt, State (Sd_desc (spi_desc (sd st)) n (buff (sd st)))
                  (mem st) (pipe st) (trace st)).
Definition get_mem (b : buf_id) : M (list Z) := fun st => (Ok (mem st b), st).
Definition set_mem (b : buf_id) (v : list Z) : M unit :=
  fun st =>
    (Ok tt, State (sd st)
                  (fun b' => if buf_id_eqb b b' then v else mem st b')
                  (pipe st) (trace st)).

(** Up to [2 ^ k] turns of [body]. *)
Fixpoint loop_pow {S R} (k : nat) (body : S -> M (step S R)) (s : S)
  : M (step S R) :=
  match k with
  | O => body s
  | Datatypes.S k' =>
      fun st =>
        match loop_pow k' body s st with
        | (Ok (Continue s'), st') => loop_pow k' body s' st'
        | other => other
        end
  end.

Definition loop {S R} (k : nat) (body : S -> M (step S R)) (s : S) : M R :=
  x <- loop_pow k body s ;;
  match x with
  | Break r => ret r
  | Continue _ => out_of_fuel
  end.

(** ** The byte pipe as the driver uses it *)

(** The received bytes as they end up in the [n = length tx] byte buffer:
    each is a [uint8_t]; a slot the pipe did not fill keeps what was sent. *)
Definition received (tx rx : list Z) : list Z :=
  map u8 (firstn (length tx) rx) ++ skipn (length rx) tx.

(** [spi_write_and_read(sd_desc->spi_desc, buf, n)] with [tx] the [n] bytes
    of [buf]; gives the status and the new content of these [n] bytes. *)
Definition spi_write_and_read (tx : list Z) : M (bool * list Z) :=
  fun st =>
    match exchange (spi_desc (sd st)) (pipe st) tx with
    | (ok, rx, p') =>
        let rx' := received tx rx in
        (Ok (ok, rx'), State (sd st) (mem st) p' (trace st ++ [Xfer tx rx' ok]))
    end.

(** [if (NO_OS_SUCCESS != spi_write_and_read(.., sd_desc->buff, n)) return NO_OS_FAILURE;] *)
Definition exchange_buff (n : Z) : M unit :=
  b <- get_buff ;;
  r <- spi_write_and_read (slice b 0 n) ;;
  set_buff (blit b 0 (snd r)) ;;;
  if fst r then ret tt else fail.

(** The same on the [n] bytes at [p]. *)
Definition exchange_mem (p : ptr) (n : Z) : M unit :=
  b <- get_mem (base p) ;;
  r <- spi_write_and_read (slice b (offset p) n) ;;
  set_mem (base p) (blit b (offset p) (snd r)) ;;;
  if fst r then ret tt else fail.

(** The same on a buffer held by value (a local of the caller). *)
Definition exchange_val (tx : list Z) : M (list Z) :=
  r <- spi_write_and_read tx ;;
  if fst r then ret (snd r) else fail.

(** ** wait_for_response *)

(* loop state: ( *data_out, timeout) *)
Definition wait_for_response_body (s : Z * Z) : M (step (Z * Z) Z) :=
  let '(data_out, timeout) := s in
  if negb (data_out =? 0xFF) then ret (Break data_out)
  else
    rx <- exchange_val [data_out] ;;
    if timeout =? 0 then fail
    else ret (Continue (load rx 0, u32 (timeout - 1))).

(** Gives [*data_out]. *)
Definition wait_for_response : M Z :=
  loop 25 wait_for_response_body (0xFF, WAIT_RESP_TIMEOUT).

(** ** wait_until_not_busy *)

(* loop state: (data, timeout) *)
Definition wait_until_not_busy_body (s : Z * Z) : M (step (Z * Z) unit) :=
  let '(data, timeout) := s in
  if negb (data =? 0x00) then ret (Break tt)
  else
    rx <- exchange_val [0xFF] ;;
    if timeout =? 0 then fail
    else ret (Continue (load rx 0, u32 (timeout - 1))).

Definition wait_until_not_busy : M unit :=
  loop 25 wait_until_not_busy_body (0x00, WAIT_RESP_TIMEOUT).

(** ** get_nb_of_blocks *)

Definition get_nb_of_blocks (address len : Z) : Z :=
  u32 (u64 (u64 (Z.shiftr (u64 (u64 (address + len) - 1)) DATA_BLOCK_BITS
                 - Z.shiftr address DATA_BLOCK_BITS) + 1)).

(** ** send_command *)

(** A [struct cmd_desc] local whose response bytes nobody has written yet. *)
Definition new_cmd_desc (c a rl : Z) : cmd_desc :=
  Cmd_desc c a (repeat 0 5) rl.

Definition set_response (cd : cmd_desc) (r : list Z) : cmd_desc :=
  Cmd_desc (cmd cd) (arg cd) r (response_len cd).

(** [send_command] from "Prepare command in buffer" on: the command
    exchange and the response. *)
Definition send_command_frame (cd : cmd_desc) : M cmd_desc :=
  (* Prepare command in buffer *)
  b <- get_buff ;;
  let b := memset b 0 0xFF CMD_LEN in
  let b := store b 1 (u8 (Z.land (cmd cd) (u32 (Z.lnot BIT_APPLICATION_CMD)))) in
  let b := store b 2 (Z.land (Z.shiftr (arg cd) 24) 0xff) in
  let b := store b 3 (Z.land (Z.shiftr (arg cd) 16) 0xff) in
  let b := store b 4 (Z.land (Z.shiftr (arg cd) 8) 0xff) in
  let b := store b 5 (Z.land (arg cd) 0xff) in
  let b := if cmd cd =? CMD 0 then store b 6 0x95
           else if cmd cd =? CMD 8 then store b 6 0x87
           else b in
  set_buff b ;;;
  (* Send command *)
  exchange_buff CMD_LEN ;;;
  (* Read response *)
  r0 <- wait_for_response ;;
  let resp := store (response cd) 0 r0 in
  if 0 <? u32 (response_len cd - 1) then
    rx <- exchange_val (repeat 0xFF (Z.to_nat (u32 (response_len cd - 1)))) ;;
    ret (set_response cd (blit resp 1 rx))
  else ret (set_response cd resp).

(** The body of [send_command]; [self] is the function itself, called for
    the CMD55 that goes before an application command. *)
Definition send_command_body (self : cmd_desc -> M cmd_desc) (cd : cmd_desc)
  : M cmd_desc :=
  (* Send CMD55 if it is an application command *)
  (if negb (Z.land (cmd cd) BIT_APPLICATION_CMD =? 0) then
     cmd_desc_local <- self (new_cmd_desc (CMD 55) STUFF_ARG R1_LEN) ;;
     if negb (load (response cmd_desc_local) 0 =? R1_IDLE_STATE)
     then fail else ret tt
   else ret tt) ;;;
  send_command_frame cd.

(** [send_command]: CMD55 is no application command, so the recursion of
    the source is two calls deep at most.  Gives the descriptor with its
    response filled in. *)
Definition send_command (cd : cmd_desc) : M cmd_desc :=
  send_command_body (send_command_body (fun _ => out_of_fuel)) cd.

(** ** write_block and read_block *)

(* *((uint16_t * )sd_desc->buff) = 0xFFFF; *)
Definition set_buff_crc : M unit :=
  b <- get_buff ;;
  set_buff (store (store b 0 0xFF) 1 0xFF).

Definition write_block (data : ptr) (nb_of_blocks : Z) : M unit :=
  (* Send start block token *)
  b <- get_buff ;;
  set_buff (store b 0 START_N_BLOCK_TOKEN) ;;;
  (if nb_of_blocks =? 1 then
     b <- get_buff ;; set_buff (store b 0 START_1_BLOCK_TOKEN)
   else ret tt) ;;;
  exchange_buff 1 ;;;
  (* Send data with CRC *)
  exchange_mem data DATA_BLOCK_LEN ;;;
  set_buff_crc ;;;
  exchange_buff CRC_LEN ;;;
  (* Read response and check if write was ok *)
  response <- wait_for_response ;;
  (if Z.land response MASK_RESPONSE_TOKEN =? 0x4 then ret tt else fail) ;;;
  wait_until_not_busy.

Definition read_block (data : ptr) : M unit :=
  (* Reading Start block token *)
  response <- wait_for_response ;;
  if Z.land response MASK_ERROR_TOKEN =? 0 then fail
  else if negb (response =? START_1_BLOCK_TOKEN) then fail
  else
    (* Read data block *)
    m <- get_mem (base data) ;;
    set_mem (base data) (memset m (offset data) 0xff DATA_BLOCK_LEN) ;;;
    exchange_mem data DATA_BLOCK_LEN ;;;
    (* Read crc *)
    set_buff_crc ;;;
    exchange_buff CRC_LEN.

(** [memcpy(dst, src, n)] *)
Definition memcpy (dst src : ptr) (n : Z) : M unit :=
  s <- get_mem (base src) ;;
  d <- get_mem (base dst) ;;
  set_mem (base dst) (blit d (offset dst) (slice s (offset src) n)).

(** ** write_multiple_blocks and read_multiple_blocks *)

(* buff_first_idx and buff_copy_len of block [i], both uint16_t *)
Definition buff_first_idx (addr i : Z) : Z :=
  if i =? 0 then u16 (Z.land addr MASK_ADDR_IN_BLOCK) else 0x0000.

Definition buff_copy_len (addr len nb_of_blocks i : Z) : Z :=
  if i =? u32 (nb_of_blocks - 1) then
    u16 (u64 (u64 (Z.land (u64 (u64 (addr + len) - 1)) MASK_ADDR_IN_BLOCK
                   - buff_first_idx addr i) + 1))
  else u16 (u32 (DATA_BLOCK_LEN - buff_first_idx addr i)).

(* loop state: (i, data_idx) *)
Definition write_multiple_blocks_body (data : ptr) (addr len : Z)
    (first_block last_block : ptr) (s : Z * Z) : M (step (Z * Z) unit) :=
  let '(i, data_idx) := s in
  let nb_of_blocks := get_nb_of_blocks addr len in
  if negb (i <? nb_of_blocks) then ret (Break tt)
  else
    let first_idx := buff_first_idx addr i in
    let copy_len := buff_copy_len addr len nb_of_blocks i in
    (if (first_idx =? 0x0000) && (copy_len =? DATA_BLOCK_LEN) then
       (* Write every block beside the first and last if the write is not
          the entire block *)
       write_block (ptr_add data data_idx) nb_of_blocks
     else if i =? 0 then
       (* If is the first block *)
       memcpy (ptr_add first_block first_idx) (ptr_add data data_idx) copy_len ;;;
       write_block first_block nb_of_blocks
     else
       (* Is the last block *)
       memcpy last_block (ptr_add data data_idx) copy_len ;;;
       write_block last_block nb_of_blocks) ;;;
    ret (Continue (u32 (i + 1), u64 (data_idx + copy_len))).

Definition write_multiple_blocks (data : ptr) (addr len : Z)
    (first_block last_block : ptr) : M unit :=
  loop 32 (write_multiple_blocks_body data addr len first_block last_block)
       (0, 0).

Definition read_multiple_blocks_body (data : ptr) (addr len : Z)
    (s : Z * Z) : M (step (Z * Z) unit) :=
  let '(i, data_idx) := s in
  let buff := Ptr Stack_buff 0 in
  if negb (i <? get_nb_of_blocks addr len) then ret (Break tt)
  else
    let first_idx := buff_first_idx addr i in
    let copy_len := buff_copy_len addr len (get_nb_of_blocks addr len) i in
    (if (first_idx =? 0x0000) && (copy_len =? DATA_BLOCK_LEN) then
       read_block (ptr_add data data_idx)
     else
       read_block buff ;;;
       memcpy (ptr_add data data_idx) (ptr_add buff first_idx) copy_len) ;;;
    ret (Continue (u32 (i + 1), u64 (data_idx + copy_len))).

Definition read_multiple_blocks (data : ptr) (addr len : Z) : M unit :=
  loop 32 (read_multiple_blocks_body data addr len) (0, 0).

(** ** sd_read *)

(** The initial checks of [sd_read] and [sd_write]; [true] when the call is
    turned down. *)
Definition initial_checks (d : sd_desc) (data : option ptr)
    (address len : Z) : bool :=
  match data with None => true | Some _ => false end
  || (address >? memory_size d)
  || (len >? memory_size d)
  || (u64 (address + len) >? memory_size d).

Definition sd_read (data : option ptr) (address len : Z) : M unit :=
  d <- get_sd ;;
  (* Initial checks *)
  match data with
  | None => fail
  | Some data' =>
    if initial_checks d data address len then fail
    else
      (* Send read command *)
      cd <- send_command
              (new_cmd_desc
                 (if get_nb_of_blocks address len =? 1 then CMD 17 else CMD 18)
                 (u32 (Z.shiftr address DATA_BLOCK_BITS)) R1_LEN) ;;
      if negb (load (response cd) 0 =? R1_READY_STATE) then fail
      else
        (* Read blocks *)
        read_multiple_blocks data' address len ;;;
        (* Send stop transmission command *)
        if negb (get_nb_of_blocks address len =? 1) then
          cd <- send_command
                  (Cmd_desc (CMD 12) STUFF_ARG (response cd) R1_LEN) ;;
          if negb (load (response cd) 0 =? R1_READY_STATE) then fail
          else ret tt
        else ret tt
  end.

(** A call whose return value is not looked at. *)
Definition discard (m : M unit) : M unit :=
  fun st =>
    match m st with
    | (OutOfFuel, st') => (OutOfFuel, st')
    | (_, st') => (Ok tt, st')
    end.

(** ** sd_write *)

(** The two conditions under which [sd_write] first reads a block back. *)
Definition reads_first_block (address len : Z) : bool :=
  negb (Z.land address MASK_ADDR_IN_BLOCK =? 0)
  || ((Z.land address MASK_ADDR_IN_BLOCK =? 0) && (len <? DATA_BLOCK_LEN)).

Definition reads_last_block (address len : Z) : bool :=
  negb (Z.land (u64 (u64 (address + len) - 1)) MASK_BLOCK_NUMBER
        =? Z.land address MASK_BLOCK_NUMBER)
  && negb (Z.land (u64 (u64 (address + len) - 1)) MASK_ADDR_IN_BLOCK
           =? MASK_ADDR_IN_BLOCK).

(** The part of [sd_write] before the write command. *)
Definition sd_write_read_back (address len : Z) : M unit :=
  let first_block := Ptr Stack_first_block 0 in
  let last_block := Ptr Stack_last_block 0 in
  (if reads_first_block address len then
     discard (sd_read (Some first_block)
                      (Z.land address MASK_BLOCK_NUMBER) DATA_BLOCK_LEN)
   else ret tt) ;;;
  (if reads_last_block address len then
     discard (sd_read (Some last_block)
                      (Z.land (u64 (u64 (address + len) - 1)) MASK_BLOCK_NUMBER)
                      DATA_BLOCK_LEN)
   else ret tt).

(** The rest of [sd_write], from the write command on. *)
Definition sd_write_commit (data : ptr) (address len : Z) : M unit :=
  let first_block := Ptr Stack_first_block 0 in
  let last_block := Ptr Stack_last_block 0 in
  (* Send write command to SD *)
  cd <- send_command
          (new_cmd_desc
             (if get_nb_of_blocks address len =? 1 then CMD 24 else CMD 25)
             (u32 (Z.shiftr address DATA_BLOCK_BITS)) R1_LEN) ;;
  if negb (load (response cd) 0 =? R1_READY_STATE) then fail
  else
    (* Write blocks *)
    write_multiple_blocks data address len first_block last_block ;;;
    (* Send stop transmission token *)
    if negb (get_nb_of_blocks address len =? 1) then
      b <- get_buff ;;
      set_buff (store (store b 0 STOP_TRANSMISSION_TOKEN) 1 0xFF) ;;;
      exchange_buff 2 ;;;
      wait_until_not_busy
    else ret tt.

Definition sd_write (data : option ptr) (address len : Z) : M unit :=
  d <- get_sd ;;
  (* Initial checks *)
  match data with
  | None => fail
  | Some data' =>
    if initial_checks d data address len then fail
    else
      sd_write_read_back address len ;;;
      sd_write_commit data' address len
  end.

(** ** sd_init *)

(** Modelled from the spec: [struct sd_init_param] is declared in sd.h, which
    is not among the sources; it carries the initialized SPI descriptor. *)
Record sd_init_param : Type := Sd_init_param { param_spi_desc : spi }.

(** Modelled from the spec: the size of [sd_desc->buff] is fixed in sd.h,
    which is not among the sources; the largest exchange done through it is
    [CSD_LEN] bytes. *)
Definition SD_BUFF_LEN : Z := CSD_LEN.

(* *sd_desc = calloc(1, sizeof(struct sd_desc)); ( *sd_desc)->spi_desc = param->spi_desc; *)
Definition alloc_sd_desc (param : sd_init_param) : M unit :=
  fun st =>
    (Ok tt, State (Sd_desc (param_spi_desc param) 0
                           (repeat 0 (Z.to_nat SD_BUFF_LEN)))
                  (mem st) (pipe st) (trace st)).

(* loop state: (cmd_desc, i) *)
Definition sd_init_cmd0_body (s : cmd_desc * Z)
  : M (step (cmd_desc * Z) cmd_desc) :=
  let '(cd, i) := s in
  cd <- send_command cd ;;
  if load (response cd) 0 =? R1_IDLE_STATE then ret (Break cd)
  else if u32 (i + 1) =? CMD0_RETRY_NUMBER then fail
  else ret (Continue (cd, u32 (i + 1))).

Definition sd_init_acmd41_body (cd : cmd_desc) : M (step cmd_desc cmd_desc) :=
  cd <- send_command cd ;;
  if load (response cd) 0 =? R1_READY_STATE then ret (Break cd)
  else ret (Continue (Cmd_desc (cmd cd) 0x00000000 (response cd)
                               (response_len cd))).

(** [sd_init].  [sd_desc_nonnull] and [param] stand for the two pointer
    arguments, [calloc_ok] for the allocation.  The loop around ACMD41 has no
    bound in the source; the model gives it [2 ^ fuel] turns. *)
Definition sd_init (fuel : nat) (sd_desc_nonnull : bool)
    (param : option sd_init_param) (calloc_ok : bool) : M unit :=
  (* Allocate data and initialize sd_desc with param *)
  match param with
  | None => fail
  | Some param' =>
    if negb sd_desc_nonnull then fail
    else if negb calloc_ok then fail
    else
      alloc_sd_desc param' ;;;
      (* Synchronize SD card frequency: Send 10 dummy bytes *)
      b <- get_buff ;;
      set_buff (memset b 0 0xFF 10) ;;;
      exchange_buff 10 ;;;
      (* Change from SD mode to SPI mode *)
      cd <- loop 3 sd_init_cmd0_body
                 (new_cmd_desc (CMD 0) STUFF_ARG R1_LEN, 0) ;;
      (* Check if SD is version 2.0 or later and its Voltage range *)
      cd <- send_command (Cmd_desc (CMD 8) CMD8_ARG (response cd) R3_LEN) ;;
      if negb ((load (response cd) 0 =? R1_IDLE_STATE)
               && (load (response cd) 3 =? 0x1)
               && (load (response cd) 4 =? 0xAA)) then fail
      else
        (* Change to ready state *)
        cd <- loop fuel sd_init_acmd41_body
                   (Cmd_desc (ACMD 41) ACMD41_ARG (response cd) R1_LEN) ;;
        (* Check if card is HC or XC (implemented only for this types) *)
        cd <- send_command (Cmd_desc (CMD 58) STUFF_ARG (response cd) R3_LEN) ;;
        if negb ((load (response cd) 0 =? R1_READY_STATE)
                 && negb (Z.land (load (response cd) 1)
                                 (Z.shiftr BIT_CCS 24) =? 0)) then fail
        else
          (* Read CSD register to get memory size *)
          cd <- send_command (Cmd_desc (CMD 9) STUFF_ARG (response cd) R1_LEN) ;;
          r0 <- wait_for_response ;;
          if negb (r0 =? START_1_BLOCK_TOKEN) then fail
          else
            b <- get_buff ;;
            set_buff (memset b 0 0xFF CSD_LEN) ;;;
            exchange_buff CSD_LEN ;;;
            (* Get c_size from CSD *)
            b <- get_buff ;;
            let c_size :=
              Z.lor (Z.lor (Z.shiftl (Z.land (load b 7) (Z.shiftl 1 5 - 1)) 16)
                           (Z.shiftl (load b 8) 8))
                    (load b 9) in
            set_memory_size (u64 (u64 (c_size + 1)
                                  * Z.shiftl DATA_BLOCK_LEN 10))
  end.

(** ** Sessions *)

(** The descriptor of a session: [sd_init] has filled it in with success,
    and [sd_read] and [sd_write] have worked on it since. *)
Inductive session : sd_desc -> Prop :=
| session_init fuel param st st' :
    sd_init fuel true (Some param) true st = (Ok tt, st') ->
    session (sd st')
| session_read data address len st :
    session (sd st) ->
    session (sd (snd (sd_read data address len st)))
| session_write data address len st :
    session (sd st) ->
    session (sd (snd (sd_write data address len st))).

End Driver.

Arguments Sd_desc {spi} _ _ _.
Arguments spi_desc {spi} _.
Arguments memory_size {spi} _.
Arguments buff {spi} _.
Arguments State {spi pipe_t} _ _ _ _.
Arguments sd {spi pipe_t} _.
Arguments mem {spi pipe_t} _ _.
Arguments pipe {spi pipe_t} _.
Arguments trace {spi pipe_t} _.
Arguments Sd_init_param {spi} _.
Arguments initial_checks {spi} _ _ _ _.
Arguments M spi pipe_t A : clear implicits.
Arguments ret {spi pipe_t A} _ _.
Arguments fail {spi pipe_t A} _.
Arguments out_of_fuel {spi pipe_t A} _.
Arguments bind {spi pipe_t A B} _ _ _.
Arguments get_sd {spi pipe_t} _.
Arguments get_buff {spi pipe_t} _.
Arguments set_buff {spi pipe_t} _ _.
Arguments set_memory_size {spi pipe_t} _ _.
Arguments get_mem {spi pipe_t} _ _.
Arguments set_mem {spi pipe_t} _ _ _.
Arguments loop_pow {spi pipe_t S R} _ _ _ _.
Arguments loop {spi pipe_t S R} _ _ _ _.
Arguments discard {spi pipe_t} _ _.
Arguments memcpy {spi pipe_t} _ _ _ _.
Arguments set_buff_crc {spi pipe_t} _.
Arguments alloc_sd_desc {spi pipe_t} _ _.
Arguments spi_write_and_read {spi pipe_t} exchange _ _.
Arguments exchange_buff {spi pipe_t} exchange _ _.
Arguments exchange_mem {spi pipe_t} exchange _ _ _.
Arguments exchange_val {spi pipe_t} exchange _ _.
Arguments wait_for_response_body {spi pipe_t} exchange _ _.
Arguments wait_for_response {spi pipe_t} exchange _.
Arguments wait_until_not_busy_body {spi pipe_t} exchange _ _.
Arguments wait_until_not_busy {spi pipe_t} exchange _.
Arguments send_command_frame {spi pipe_t} exchange _ _.
Arguments send_command_body {spi pipe_t} exchange _ _ _.
Arguments send_command {spi pipe_t} exchange _ _.
Arguments write_block {spi pipe_t} exchange _ _ _.
Arguments read_block {spi pipe_t} exchange _ _.
Arguments write_multiple_blocks_body {spi pipe_t} exchange _ _ _ _ _ _ _.
Arguments write_multiple_blocks {spi pipe_t} exchange _ _ _ _ _ _.
Arguments read_multiple_blocks_body {spi pipe_t} exchange _ _ _ _ _.
Arguments read_multiple_blocks {spi pipe_t} exchange _ _ _ _.
Arguments sd_read {spi pipe_t} exchange _ _ _ _.
Arguments sd_write_read_back {spi pipe_t} exchange _ _ _.
Arguments sd_write_commit {spi pipe_t} exchange _ _ _ _.
Arguments sd_write {spi pipe_t} exchange _ _ _ _.
Arguments sd_init_cmd0_body {spi pipe_t} exchange _ _.
Arguments sd_init_acmd41_body {spi pipe_t} exchange _ _.
Arguments sd_init {spi pipe_t} exchange _ _ _ _ _.
Arguments session {spi pipe_t} exchange _.
Arguments session_init {spi pipe_t} exchange _ _ _ _ _.
Arguments session_read {spi pipe_t} exchange _ _ _ _ _.
Arguments session_write {spi pipe_t} exchange _ _ _ _ _.

(** ** A byte pipe that replays a script

    The pipe holds the bytes the card will send, in order; an exchange of
    [n] bytes takes the next [n] of them (0xFF, the idle byte, once the
    script is used up) and always returns NO_OS_SUCCESS. *)
Definition script_exchange (h : unit) (p : list Z) (tx : list Z)
  : bool * list Z * list Z :=
  (true, firstn (length tx) (p ++ repeat 0xFF (length tx)), skipn (length tx) p).

Definition script_state (ms : Z) (m : buf_id -> list Z) (p : list Z)
  : state unit (list Z) :=
  State (Sd_desc tt ms (repeat 0 (Z.to_nat SD_BUFF_LEN))) m p [].

(** What was clocked out, exchange by exchange. *)
Definition sent {spi pipe_t} (st : state spi pipe_t) : list (list Z) :=
  map x_tx (trace st).

(** ** Scripts and states for concrete runs *)

(** What a card sends while the host clocks out the eight bytes of a
    command exchange. *)
Definition during_command : list Z := repeat 0xFF 8.

(** The card's side of a whole [sd_init]: warm-up, CMD0, CMD8, CMD55 and
    ACMD41, CMD58, then CMD9 answered with [r1_cmd9], the start token and
    the 16 bytes of [csd] with their CRC. *)
Definition init_script (r1_cmd9 : Z) (csd : list Z) : list Z :=
  repeat 0xFF 10
  ++ during_command ++ [0x01]
  ++ during_command ++ [0x01; 0x00; 0x00; 0x01; 0xAA]
  ++ during_command ++ [0x01] ++ during_command ++ [0x00]
  ++ during_command ++ [0x00; 0x40; 0x00; 0x00; 0x00]
  ++ during_command ++ [r1_cmd9] ++ [0xFE] ++ csd ++ [0xAA; 0xBB].

(** The CSD of a 4 GiB card: [c_size] is 0x001FFF. *)
Definition csd_4GiB : list Z :=
  [0x40; 0x0E; 0x00; 0x32; 0x5B; 0x59; 0x00; 0x00;
   0x1F; 0xFF; 0x7F; 0x80; 0x0A; 0x40; 0x00; 0x01].

(** The CSD of a card of a little over 1 TiB: [c_size] is 0x200000. *)
Definition csd_1TiB : list Z :=
  [0x40; 0x0E; 0x00; 0x32; 0x5B; 0x59; 0x00; 0x20;
   0x00; 0x00; 0x7F; 0x80; 0x0A; 0x40; 0x00; 0x01].

(** Memory with one caller buffer, [User 0], and stack arrays that hold
    512 bytes of 0xEE when the driver is entered. *)
Definition user_memory (data : list Z) : buf_id -> list Z :=
  fun b => if buf_id_eqb b (User 0) then data else repeat 0xEE 512.

(** The same with nothing in the caller's buffer. *)
Definition no_memory : buf_id -> list Z := user_memory [].

(** The state before [sd_init], the card holding [script]. *)
Definition power_on (m : buf_id -> list Z) (script : list Z)
  : state unit (list Z) :=
  script_state 0 m script.

(** The state after [sd_init] on a 4 GiB card that goes on with [script]. *)
Definition ready (m : buf_id -> list Z) (script : list Z)
  : state unit (list Z) :=
  snd (sd_init script_exchange 3 true (Some (Sd_init_param tt)) true
         (power_on m (init_script 0x00 csd_4GiB ++ script))).

(** What was clocked out between two states. *)
Definition sent_since {spi pipe_t} (st st' : state spi pipe_t)
  : list (list Z) :=
  skipn (length (trace st)) (sent st').

Definition block_of (b : Z) : list Z := repeat b 512.

(** The state after one of the two read-backs of [sd_write]. *)
Definition after_read_back {spi pipe_t}
    (exchange : spi -> pipe_t -> list Z -> bool * list Z * pipe_t)
    (wanted : bool) (buf : buf_id) (a : Z)
    (st : state spi pipe_t) : state spi pipe_t :=
  if wanted
  then snd (sd_read exchange (Some (Ptr buf 0)) a DATA_BLOCK_LEN st)
  else st.

(** ** What the specification says, in its own words *)

(** The command exchange: an idle byte, the command index with the start
    and host bits, the argument most significant byte first, the CRC slot
    and one more idle byte. *)
Definition command_exchange (idx arg crc : Z) : list Z :=
  [0xFF; Z.lor 0x40 (Z.land idx 0x3F);
   (arg / 2 ^ 24) mod 256; (arg / 2 ^ 16) mod 256; (arg / 2 ^ 8) mod 256;
   arg mod 256; crc; 0xFF].

(** The CRC slot of a standard command. *)
Definition command_crc (idx : Z) : Z :=
  if idx =? 0 then 0x95 else if idx =? 8 then 0x87 else 0xFF.

(** The eight bytes [send_command] puts into the scratch buffer. *)
Definition frame_of (cd : cmd_desc) : list Z :=
  [0xFF;
   u8 (Z.land (cmd cd) (u32 (Z.lnot BIT_APPLICATION_CMD)));
   Z.land (Z.shiftr (arg cd) 24) 0xff;
   Z.land (Z.shiftr (arg cd) 16) 0xff;
   Z.land (Z.shiftr (arg cd) 8) 0xff;
   Z.land (arg cd) 0xff;
   if cmd cd =? CMD 0 then 0x95 else if cmd cd =? CMD 8 then 0x87 else 0xFF;
   0xFF].

(** [c_size] as [sd_init] takes it from the bytes in the scratch buffer. *)
Definition c_size_of (b : list Z) : Z :=
  Z.lor (Z.lor (Z.shiftl (Z.land (load b 7) (Z.shiftl 1 5 - 1)) 16)
               (Z.shiftl (load b 8) 8))
        (load b 9).

(** [c_size] of the V2.0 CSD layout as the specification gives it. *)
Definition csd_c_size (csd : list Z) : Z :=
  Z.lor (Z.lor (Z.shiftl (Z.land (load csd 7) 0x3F) 16)
               (Z.shiftl (load csd 8) 8))
        (load csd 9).

(** [nblocks] of the block-band engine. *)
Definition nblocks (address length : Z) : Z :=
  (address + length - 1) / 512 - address / 512 + 1.

(** The write covers the whole of the first block it touches. *)
Definition first_block_written_in_full (address len : Z) : Prop :=
  address = 512 * (address / 512) /\ 512 * (address / 512) + 512 <= address + len.

(** The read-modify-write policy of the specification. *)
Definition head_read_needed (address len : Z) : Prop :=
  address mod 512 <> 0 \/ ~ first_block_written_in_full address len.

Definition tail_read_needed (address len : Z) : Prop :=
  (address + len - 1) / 512 <> address / 512
  /\ (address + len - 1) mod 512 <> 511.

(** One read-back of [sd_write] as the log shows it, from the state [st]
    before it to the state [st1] after it: when it is needed, [st1] is what
    a read of the whole block [blk] into [buf] leaves, and that read starts
    with the CMD17 exchange for the block; when it is not, nothing happens. *)
Definition read_back_step {spi pipe_t}
    (exchange : spi -> pipe_t -> list Z -> bool * list Z * pipe_t)
    (needed : Prop) (buf : buf_id) (blk : Z)
    (st st1 : state spi pipe_t) : Prop :=
  (needed ->
     st1 = snd (sd_read exchange (Some (Ptr buf 0)) (512 * blk) 512 st)
     /\ exists e t, trace st1 = trace st ++ e :: t
                   /\ x_tx e = command_exchange 17 blk 0xFF)
  /\ (~ needed -> st1 = st).

(** A bounded wait as the log shows it, from the log [t0] before the call
    to the outcome [o] and the log [t1] after it: the loop asked at least
    once and at most [2 ^ 25] times, one idle byte each time; it succeeds
    on a last, successful exchange whose byte is not [quiet], and it fails
    on a failed exchange or on the [2 ^ 25]th one. *)
Definition bounded_wait {A} (quiet : Z) (value : A -> Z -> Prop)
    (t0 : list xfer) (o : outcome A) (t1 : list xfer) : Prop :=
  o <> OutOfFuel /\
  exists t e,
    t1 = t0 ++ t ++ [e] /\
    Z.of_nat (length (t ++ [e])) <= 2 ^ 25 /\
    Forall (fun e => x_tx e = [0xFF]) (t ++ [e]) /\
    match o with
    | Ok a => exists b, x_rx e = [b] /\ x_ok e = true /\ b <> quiet /\ value a b
    | _ => x_ok e = false \/ Z.of_nat (length (t ++ [e])) = 2 ^ 25
    end.

(** ** Words for the further properties *)

(** The outcome is a value: the function went on, or returned
    NO_OS_SUCCESS. *)
Definition is_ok {A} (o : outcome A) : bool :=
  match o with Ok _ => true | _ => false end.

(** The exchange succeeded. *)
Definition xfer_ok (e : xfer) : Prop := x_ok e = true.

(** What a call from [st] to [st'] added to the log is [t]; every exchange
    of [t] but the last returned NO_OS_SUCCESS, and so did the last when the
    call itself did ([ok]). *)
Definition stops_at_first_failure {spi pipe_t} (st : state spi pipe_t)
    (ok : bool) (st' : state spi pipe_t) : Prop :=
  exists t, trace st' = trace st ++ t
    /\ Forall xfer_ok (removelast t)
    /\ (ok = true -> Forall xfer_ok t).

(** The buffers written between [st] and [st'] are among [written]. *)
Definition writes_only {spi pipe_t} (written : buf_id -> bool)
    (st st' : state spi pipe_t) : Prop :=
  forall buf, written buf = false -> mem st' buf = mem st buf.

(** A polling loop as the log shows it, from the log [t0] before the call
    to the outcome [o] and the log [t1] after it: [n] successful polls that
    brought the [quiet] byte, then one more poll [e].  On success [e] is a
    successful poll that brought another byte and is not poll number
    [2 ^ 25]; on failure [e] failed or is poll number [2 ^ 25]. *)
Definition first_answer {A} (quiet : Z) (value : A -> Z -> Prop)
    (t0 : list xfer) (o : outcome A) (t1 : list xfer) : Prop :=
  exists n e,
    t1 = t0 ++ repeat (Xfer [0xFF] [quiet] true) n ++ [e]
    /\ x_tx e = [0xFF]
    /\ match o with
       | Ok a => Z.of_nat n + 1 < 2 ^ 25 /\ x_ok e = true
                 /\ exists b, x_rx e = [b] /\ b <> quiet /\ value a b
       | Err => x_ok e = false \/ Z.of_nat n + 1 = 2 ^ 25
       | OutOfFuel => False
       end.

(** The exchanges of a whole block in a log, and the bytes they brought
    and took, in order. *)
Definition is_block (e : xfer) : bool := (length (x_tx e) =? 512)%nat.

Definition blocks_received (t : list xfer) : list Z :=
  flat_map x_rx (filter is_block t).

Definition blocks_sent (t : list xfer) : list Z :=
  flat_map x_tx (filter is_block t).

(** The poll that brought [b]. *)
Definition poll (b : Z) : xfer := Xfer [0xFF] [b] true.

(** A read-back of [sd_write] that returned NO_OS_SUCCESS, from the state
    [st] before it to the state [st1] after it: after the exchanges of its
    command, which move no block, the log ends with polls that brought
    0xFF, the poll that brought the start token, one exchange of 512 bytes
    0xFF and the two bytes of the CRC; the 512 bytes received are in [buf],
    from its first byte on. *)
Definition read_back_block {spi pipe_t}
    (exchange : spi -> pipe_t -> list Z -> bool * list Z * pipe_t)
    (needed : Prop) (buf : buf_id) (blk : Z)
    (st st1 : state spi pipe_t) : Prop :=
  needed ->
  fst (sd_read exchange (Some (Ptr buf 0)) (512 * blk) 512 st) = Ok tt ->
  exists t n rx crc,
    trace st1 = trace st ++ t ++ repeat (poll 0xFF) n
                  ++ [poll START_1_BLOCK_TOKEN;
                      Xfer (repeat 0xFF 512) rx true;
                      Xfer [0xFF; 0xFF] crc true]
    /\ blocks_received t = []
    /\ length rx = 512%nat
    /\ mem st1 buf = blit (mem st buf) 0 rx.

(** Where in the caller's data block number [i] of a request starts; for
    [i] the number of blocks, the length of the request. *)
Definition data_idx_at (address len i : Z) : Z :=
  Z.min len (Z.max 0 (512 * i - address mod 512)).

(** Between [st] and [st'] the log grew by exchanges other than those of a
    whole block. *)
Definition no_block_since {spi pipe_t} (st st' : state spi pipe_t) : Prop :=
  exists t, trace st' = trace st ++ t
            /\ Forall (fun e => is_block e = false) t.

(** A write across two blocks: the card turns both read-backs down, takes
    CMD25 and two blocks, each with the data response 0xE5, and is never
    busy. *)
Definition two_block_write_script : list Z :=
  during_command ++ [0x04]
  ++ during_command ++ [0x04]
  ++ during_command ++ [0x00]
  ++ [0xFF] ++ block_of 0xFF ++ [0xFF; 0xFF] ++ [0xE5] ++ [0x01]
  ++ [0xFF] ++ block_of 0xFF ++ [0xFF; 0xFF] ++ [0xE5] ++ [0x01]
  ++ [0xFF; 0xFF] ++ [0x01].

(** The same write when the card answers the read-back of the first block
    with a block of 0x11 and turns the one of the last block down. *)
Definition failed_tail_read_back_script : list Z :=
  during_command ++ [0x00] ++ [0xFE] ++ block_of 0x11 ++ [0xFF; 0xFF]
  ++ during_command ++ [0x04]
  ++ during_command ++ [0x00]
  ++ [0xFF] ++ block_of 0xFF ++ [0xFF; 0xFF] ++ [0xE5] ++ [0x01]
  ++ [0xFF] ++ block_of 0xFF ++ [0xFF; 0xFF] ++ [0xE5] ++ [0x01]
  ++ [0xFF; 0xFF] ++ [0x01].

(** The same write with both read-backs answered: CMD17 taken, the start
    token, a block of 0x11 for the first and of 0x22 for the last, each
    with its CRC. *)
Definition read_back_write_script : list Z :=
  during_command ++ [0x00] ++ [0xFE] ++ block_of 0x11 ++ [0xFF; 0xFF]
  ++ during_command ++ [0x00] ++ [0xFE] ++ block_of 0x22 ++ [0xFF; 0xFF]
  ++ during_command ++ [0x00]
  ++ [0xFF] ++ block_of 0xFF ++ [0xFF; 0xFF] ++ [0xE5] ++ [0x01]
  ++ [0xFF] ++ block_of 0xFF ++ [0xFF; 0xFF] ++ [0xE5] ++ [0x01]
  ++ [0xFF; 0xFF] ++ [0x01].

(** From every state [m] ends well, with a value that satisfies [P]. *)
Definition yields {spi pipe_t A} (m : M spi pipe_t A) (P : A -> Prop)
  : Prop :=
  forall st, exists a st', m st = (Ok a, st') /\ P a.

(** From no state [m] comes back within the turns its loops are given. *)
Definition never_returns {spi pipe_t A} (m : M spi pipe_t A) : Prop :=
  forall st, fst (m st) = OutOfFuel.

(** A card that stays in the idle state: every exchange succeeds; a poll
    brings R1 = 0x01, the four bytes after the R1 of a long response bring
    the echo of CMD8 (voltage accepted, check pattern 0xAA), and the card
    sends 0xFF while it is sent anything else. *)
Definition idle_card (h : unit) (p : unit) (tx : list Z)
  : bool * list Z * unit :=
  (true,
   match length tx with
   | 1%nat => [R1_IDLE_STATE]
   | 4%nat => [0x00; 0x00; 0x01; 0xAA]
   | n => repeat 0xFF n
   end,
   tt).

(** What every command gets from the idle card. *)
Definition idle_answer (cd cd' : cmd_desc) : Prop :=
  cmd cd' = cmd cd /\ response_len cd' = response_len cd
  /\ load (response cd') 0 = R1_IDLE_STATE
  /\ (response_len cd = R3_LEN ->
      load (response cd') 3 = 0x01 /\ load (response cd') 4 = 0xAA).

(** * Properties *)

(** ** Buffers *)

Lemma received_length (tx rx : list Z) :
  length (received tx rx) = length tx.
Proof.
  unfold received.
  rewrite length_app, length_map, length_firstn, length_skipn. lia.
Qed.

Lemma received_one (x : Z) (rx : list Z) :
  exists y, received [x] rx = [y].
Proof.
  pose proof (received_length [x] rx) as H.
  destruct (received [x] rx) as [|y [|z l]]; simpl in H; try discriminate.
  now exists y.
Qed.

Lemma u8_range (x : Z) : 0 <= u8 x < 256.
Proof. unfold u8. change (2 ^ 8) with 256. apply Z.mod_pos_bound. lia. Qed.

Lemma received_bytes (tx rx : list Z) :
  Forall (fun b => 0 <= b < 256) tx ->
  Forall (fun b => 0 <= b < 256) (received tx rx).
Proof.
  intros Htx. unfold received. apply Forall_app. split.
  - apply Forall_forall. intros b Hb. apply in_map_iff in Hb.
    destruct Hb as [a [<- _]]. apply u8_range.
  - apply Forall_forall. intros b Hb.
    rewrite Forall_forall in Htx. apply Htx.
    rewrite <- (firstn_skipn (length rx) tx). apply in_or_app. now right.
Qed.

Lemma load_blit_0 (dst src : list Z) (i : Z) :
  0 <= i -> (Z.to_nat i < length src)%nat ->
  load (blit dst 0 src) i = nth (Z.to_nat i) src 0.
Proof.
  intros Hi Hlen. unfold load, blit. simpl.
  now rewrite app_nth1.
Qed.

Lemma slice_memset_0 (b : list Z) (c n : Z) :
  slice (memset b 0 c n) 0 n = repeat c (Z.to_nat n).
Proof.
  unfold slice, memset. simpl.
  rewrite firstn_app, repeat_length, Nat.sub_diag. simpl.
  rewrite app_nil_r. apply firstn_all2. rewrite repeat_length. lia.
Qed.

(** ** Command bytes *)

Lemma below_64 (P : Z -> Prop) :
  (forall n, (n < 64)%nat -> P (Z.of_nat n)) ->
  forall idx, 0 <= idx < 64 -> P idx.
Proof.
  intros H idx Hidx. rewrite <- (Z2Nat.id idx) by lia. apply H. lia.
Qed.

Ltac by_cases_below_64 :=
  intros idx Hidx; pattern idx; apply below_64; [| exact Hidx];
  clear idx Hidx; intros n Hn;
  do 64 (destruct n as [|n]; [vm_compute; reflexivity |]);
  exfalso; lia.

Lemma cmd_byte_CMD : forall idx, 0 <= idx < 64 ->
  u8 (Z.land (CMD idx) (u32 (Z.lnot BIT_APPLICATION_CMD)))
  = Z.lor 0x40 (Z.land idx 0x3F).
Proof. by_cases_below_64. Qed.

Lemma cmd_byte_ACMD : forall idx, 0 <= idx < 64 ->
  u8 (Z.land (ACMD idx) (u32 (Z.lnot BIT_APPLICATION_CMD)))
  = Z.lor 0x40 (Z.land idx 0x3F).
Proof. by_cases_below_64. Qed.

Lemma CMD_not_application : forall idx, 0 <= idx < 64 ->
  Z.land (CMD idx) BIT_APPLICATION_CMD = 0.
Proof. by_cases_below_64. Qed.

Lemma ACMD_application : forall idx, 0 <= idx < 64 ->
  (Z.land (ACMD idx) BIT_APPLICATION_CMD =? 0) = false.
Proof. by_cases_below_64. Qed.

Lemma ACMD_no_crc : forall idx, 0 <= idx < 64 ->
  ((ACMD idx =? CMD 0) || (ACMD idx =? CMD 8)) = false.
Proof. by_cases_below_64. Qed.

Lemma CMD_crc (idx : Z) :
  (if CMD idx =? CMD 0 then 0x95 else if CMD idx =? CMD 8 then 0x87 else 0xFF)
  = command_crc idx.
Proof.
  unfold command_crc, CMD.
  destruct (Z.eqb_spec idx 0) as [->|H0]; [reflexivity|].
  destruct (Z.eqb_spec (idx + 64) (0 + 64)); [lia|].
  destruct (Z.eqb_spec idx 8) as [->|H8]; [reflexivity|].
  destruct (Z.eqb_spec (idx + 64) (8 + 64)); [lia | reflexivity].
Qed.

Lemma arg_byte (a k : Z) :
  0 <= k -> Z.land (Z.shiftr a k) 0xff = (a / 2 ^ k) mod 256.
Proof.
  intros Hk. change 0xff with (Z.ones 8).
  rewrite Z.land_ones by lia. now rewrite Z.shiftr_div_pow2 by lia.
Qed.

Lemma arg_byte_0 (a : Z) : Z.land a 0xff = a mod 256.
Proof. change 0xff with (Z.ones 8). now rewrite Z.land_ones by lia. Qed.

Lemma frame_of_CMD (cd : cmd_desc) (idx : Z) :
  0 <= idx < 64 -> cmd cd = CMD idx ->
  frame_of cd = command_exchange idx (arg cd) (command_crc idx).
Proof.
  intros Hidx Hcmd. unfold frame_of, command_exchange. rewrite Hcmd.
  rewrite cmd_byte_CMD, CMD_crc by assumption.
  now rewrite !arg_byte, arg_byte_0 by lia.
Qed.

Lemma frame_of_ACMD (cd : cmd_desc) (idx : Z) :
  0 <= idx < 64 -> cmd cd = ACMD idx ->
  frame_of cd = command_exchange idx (arg cd) 0xFF.
Proof.
  intros Hidx Hcmd. unfold frame_of, command_exchange. rewrite Hcmd.
  rewrite cmd_byte_ACMD by assumption.
  pose proof (ACMD_no_crc idx Hidx) as H. apply orb_false_elim in H.
  destruct H as [-> ->].
  now rewrite !arg_byte, arg_byte_0 by lia.
Qed.

(** ** Bits *)

Lemma log2_below (a n : Z) : 0 < n -> 0 <= a < 2 ^ n -> Z.log2 a < n.
Proof.
  intros Hn Ha. destruct (Z.eq_dec a 0) as [->|Hz]; [simpl; lia|].
  apply Z.log2_lt_pow2; lia.
Qed.

Lemma lor_below (a b n : Z) :
  0 <= n -> 0 <= a < 2 ^ n -> 0 <= b < 2 ^ n -> 0 <= Z.lor a b < 2 ^ n.
Proof.
  intros Hn Ha Hb. split; [apply Z.lor_nonneg; lia|].
  destruct (Z.eq_dec (Z.lor a b) 0) as [->|Hz]; [lia|].
  assert (0 < Z.lor a b) by (pose proof (proj2 (Z.lor_nonneg a b)); lia).
  assert (0 < n).
  { destruct (Z.eq_dec n 0) as [->|]; [|lia].
    assert (a = 0) by lia. assert (b = 0) by lia. subst. now contradiction Hz. }
  apply Z.log2_lt_pow2; [assumption|].
  rewrite Z.log2_lor by lia.
  apply Z.max_lub_lt; apply log2_below; assumption.
Qed.

Lemma land_block_number (a : Z) :
  0 <= a < 2 ^ 64 -> Z.land a MASK_BLOCK_NUMBER = 512 * (a / 512).
Proof.
  intros Ha. unfold MASK_BLOCK_NUMBER, MASK_ADDR_IN_BLOCK, DATA_BLOCK_LEN, u64.
  change (512 - 1) with 511.
  rewrite <- Z.land_ones by lia.
  rewrite (Z.land_comm (Z.lnot 511)), Z.land_assoc.
  rewrite (Z.land_ones a) by lia. rewrite Z.mod_small by lia.
  rewrite <- Z.ldiff_land. change 511 with (Z.ones 9).
  rewrite Z.ldiff_ones_r by lia.
  rewrite Z.shiftr_div_pow2, Z.shiftl_mul_pow2 by lia.
  change (2 ^ 9) with 512. lia.
Qed.

Lemma land_addr_in_block (a : Z) : Z.land a MASK_ADDR_IN_BLOCK = a mod 512.
Proof.
  unfold MASK_ADDR_IN_BLOCK, DATA_BLOCK_LEN. change (512 - 1) with (Z.ones 9).
  now rewrite Z.land_ones by lia.
Qed.

Lemma c_size_of_range (b : list Z) :
  0 <= load b 7 < 256 -> 0 <= load b 8 < 256 -> 0 <= load b 9 < 256 ->
  0 <= c_size_of b < 2 ^ 21.
Proof.
  intros H7 H8 H9. unfold c_size_of.
  change (Z.shiftl 1 5 - 1) with (Z.ones 5).
  rewrite Z.land_ones, !Z.shiftl_mul_pow2 by lia.
  pose proof (Z.mod_pos_bound (load b 7) (2 ^ 5) ltac:(lia)) as Hm.
  apply lor_below; [lia | | lia].
  apply lor_below; lia.
Qed.

(** ** Requests within bounds *)

Lemma u64_small (x : Z) : 0 <= x < 2 ^ 64 -> u64 x = x.
Proof. apply Z.mod_small. Qed.

Lemma u32_small (x : Z) : 0 <= x < 2 ^ 32 -> u32 x = x.
Proof. apply Z.mod_small. Qed.

Lemma shiftr_block (a : Z) : Z.shiftr a DATA_BLOCK_BITS = a / 512.
Proof. unfold DATA_BLOCK_BITS. now rewrite Z.shiftr_div_pow2 by lia. Qed.

Lemma get_nb_of_blocks_in_bounds (address len : Z) :
  0 <= address -> 0 < len -> address + len <= 2 ^ 40 ->
  get_nb_of_blocks address len = nblocks address len.
Proof.
  intros Ha Hl Hb. unfold get_nb_of_blocks, nblocks.
  rewrite (u64_small (address + len)) by lia.
  rewrite (u64_small (address + len - 1)) by lia.
  rewrite !shiftr_block.
  assert (H : 0 <= (address + len - 1) / 512 - address / 512 < 2 ^ 31).
  { Z.div_mod_to_equations. lia. }
  rewrite (u64_small (_ - _)) by lia.
  rewrite (u64_small (_ + 1)) by lia. apply u32_small. lia.
Qed.

Lemma block_index_in_bounds (address : Z) :
  0 <= address <= 2 ^ 40 ->
  u32 (Z.shiftr address DATA_BLOCK_BITS) = Z.shiftr address 9.
Proof.
  intros Ha. rewrite shiftr_block. rewrite Z.shiftr_div_pow2 by lia.
  change (2 ^ 9) with 512. apply u32_small.
  Z.div_mod_to_equations. lia.
Qed.

Lemma reads_first_block_spec (address len : Z) :
  0 <= address -> 0 < len ->
  reads_first_block address len = true <-> head_read_needed address len.
Proof.
  intros Ha Hl. unfold reads_first_block, head_read_needed,
    first_block_written_in_full, DATA_BLOCK_LEN.
  rewrite land_addr_in_block.
  destruct (Z.eqb_spec (address mod 512) 0) as [H0 | H0]; cbn [negb orb andb].
  - destruct (Z.ltb_spec len 512) as [Hlt | Hge]; split; intros Hx;
      try reflexivity; try discriminate.
    + right. Z.div_mod_to_equations. lia.
    + exfalso. destruct Hx as [Hx | Hx]; [lia|]. apply Hx.
      Z.div_mod_to_equations. lia.
  - split; [intros _; now left | reflexivity].
Qed.

Lemma reads_last_block_spec (address len : Z) :
  0 <= address -> 0 < len -> address + len <= 2 ^ 40 ->
  reads_last_block address len = true <-> tail_read_needed address len.
Proof.
  intros Ha Hl Hb. unfold reads_last_block, tail_read_needed.
  rewrite (u64_small (address + len)) by lia.
  rewrite (u64_small (address + len - 1)) by lia.
  rewrite !land_block_number, land_addr_in_block by lia.
  unfold MASK_ADDR_IN_BLOCK, DATA_BLOCK_LEN. change (512 - 1) with 511.
  destruct (Z.eqb_spec (512 * ((address + len - 1) / 512))
                       (512 * (address / 512))) as [H1 | H1];
    destruct (Z.eqb_spec ((address + len - 1) mod 512) 511) as [H2 | H2];
    cbn [negb andb]; split; intros H; try reflexivity; try discriminate;
    lia.
Qed.

Lemma initial_checks_in_bounds {spi} (d : sd_desc spi) (p : ptr)
    (address len : Z) :
  0 <= address -> 0 <= len -> memory_size d <= 2 ^ 40 ->
  address + len <= memory_size d ->
  initial_checks d (Some p) address len = false.
Proof.
  intros Ha Hl Hm Hb. unfold initial_checks.
  rewrite u64_small by lia. rewrite !Z.gtb_ltb.
  destruct (Z.ltb_spec (memory_size d) address); [lia|].
  destruct (Z.ltb_spec (memory_size d) len); [lia|].
  destruct (Z.ltb_spec (memory_size d) (address + len)); [lia|].
  reflexivity.
Qed.

Lemma initial_checks_out_of_bounds {spi} (d : sd_desc spi)
    (data : option ptr) (address len : Z) :
  0 <= address < 2 ^ 64 -> 0 <= len < 2 ^ 64 ->
  0 <= memory_size d <= 2 ^ 40 ->
  data = None \/ address + len > memory_size d ->
  initial_checks d data address len = true.
Proof.
  intros Ha Hl Hm [-> | Hb]; [reflexivity|]. unfold initial_checks.
  rewrite !Z.gtb_ltb.
  destruct (Z.ltb_spec (memory_size d) address);
    [now rewrite orb_true_r |].
  destruct (Z.ltb_spec (memory_size d) len);
    [now rewrite orb_true_r |].
  rewrite u64_small by lia.
  destruct (Z.ltb_spec (memory_size d) (address + len)); [| lia].
  now rewrite orb_true_r.
Qed.

(** The block a read-back goes to lies within the card. *)
Lemma block_in_bounds (ms a : Z) :
  ms mod 512 = 0 -> 0 <= a < ms -> 512 * (a / 512) + 512 <= ms.
Proof. intros Hm Ha. Z.div_mod_to_equations. lia. Qed.

Lemma nblocks_one_block (a : Z) :
  0 <= a -> nblocks (512 * (a / 512)) 512 = 1.
Proof. intros Ha. unfold nblocks. Z.div_mod_to_equations. lia. Qed.

Section Proofs.

Context {spi pipe_t : Type}.
Variable exchange : spi -> pipe_t -> list Z -> bool * list Z * pipe_t.

Local Abbreviation state := (state spi pipe_t).
Local Abbreviation M := (M spi pipe_t).

(** ** The descriptor is kept and the log only grows *)

Definition extends (st st' : state) : Prop :=
  spi_desc (sd st') = spi_desc (sd st)
  /\ memory_size (sd st') = memory_size (sd st)
  /\ exists t, trace st' = trace st ++ t.

Lemma extends_refl (st : state) : extends st st.
Proof. repeat split. exists []. now rewrite app_nil_r. Qed.

Lemma extends_trans (a b c : state) :
  extends a b -> extends b c -> extends a c.
Proof.
  intros (H1 & H2 & t1 & H3) (H4 & H5 & t2 & H6). repeat split; try congruence.
  exists (t1 ++ t2). rewrite H6, H3. now rewrite app_assoc.
Qed.

(** A computation that never runs out of fuel, keeps the descriptor and
    only adds to the log. *)
Definition safe {A} (m : M A) : Prop :=
  forall st, fst (m st) <> OutOfFuel /\ extends st (snd (m st)).

Lemma safe_ret {A} (a : A) : safe (ret a).
Proof. intros st. split; [discriminate | apply extends_refl]. Qed.

Lemma safe_fail {A} : safe (@fail spi pipe_t A).
Proof. intros st. split; [discriminate | apply extends_refl]. Qed.

Lemma safe_bind {A B} (m : M A) (f : A -> M B) :
  safe m -> (forall a, safe (f a)) -> safe (bind m f).
Proof.
  intros Hm Hf st. unfold bind. specialize (Hm st).
  destruct (m st) as [[a| |] st1]; simpl in Hm; destruct Hm as [Hne Hext].
  - destruct (Hf a st1) as [Hne' Hext']. split; [assumption|].
    eapply extends_trans; eassumption.
  - split; [discriminate | assumption].
  - now contradiction Hne.
Qed.

Lemma safe_if {A} (b : bool) (m1 m2 : M A) :
  safe m1 -> safe m2 -> safe (if b then m1 else m2).
Proof. now destruct b. Qed.

Lemma safe_get_sd : safe (@get_sd spi pipe_t).
Proof. intros st. split; [discriminate | apply extends_refl]. Qed.

Lemma safe_get_buff : safe (@get_buff spi pipe_t).
Proof. intros st. split; [discriminate | apply extends_refl]. Qed.

Lemma safe_set_buff (b : list Z) : safe (@set_buff spi pipe_t b).
Proof.
  intros st. split; [discriminate|]. simpl. repeat split.
  exists []. now rewrite app_nil_r.
Qed.

Lemma safe_get_mem (b : buf_id) : safe (@get_mem spi pipe_t b).
Proof. intros st. split; [discriminate | apply extends_refl]. Qed.

Lemma safe_set_mem (b : buf_id) (v : list Z) : safe (@set_mem spi pipe_t b v).
Proof.
  intros st. split; [discriminate|]. simpl. repeat split.
  exists []. now rewrite app_nil_r.
Qed.

Lemma safe_spi_write_and_read (tx : list Z) :
  safe (spi_write_and_read exchange tx).
Proof.
  intros st. unfold spi_write_and_read.
  destruct (exchange _ _ _) as [[ok rx] p']. simpl.
  split; [discriminate|]. repeat split. eexists. reflexivity.
Qed.

Lemma safe_discard (m : M unit) : safe m -> safe (discard m).
Proof.
  intros Hm st. unfold discard. specialize (Hm st).
  destruct (m st) as [[a| |] st1]; simpl in *; destruct Hm as [Hne Hext];
    (split; [discriminate || assumption | assumption]).
Qed.

Create HintDb safe.
#[local] Hint Resolve safe_ret safe_fail safe_get_sd safe_get_buff
  safe_set_buff safe_get_mem safe_set_mem safe_spi_write_and_read : safe.

Ltac safe_step :=
  lazymatch goal with
  | |- safe (bind _ _) => apply safe_bind; [| intros ?]
  | |- safe (if _ then _ else _) => apply safe_if
  | |- safe (match ?x with Some _ => _ | None => _ end) => destruct x
  | |- safe (discard _) => apply safe_discard
  | |- safe (let '(_, _) := ?x in _) => destruct x
  | |- _ => solve [auto with safe]
  end.

Ltac safe_tac := repeat safe_step.

Lemma safe_exchange_buff (n : Z) : safe (exchange_buff exchange n).
Proof. unfold exchange_buff. safe_tac. Qed.

Lemma safe_exchange_mem (p : ptr) (n : Z) : safe (exchange_mem exchange p n).
Proof. unfold exchange_mem. safe_tac. Qed.

Lemma safe_exchange_val (tx : list Z) : safe (exchange_val exchange tx).
Proof. unfold exchange_val. safe_tac. Qed.

Lemma safe_memcpy (dst src : ptr) (n : Z) : safe (@memcpy spi pipe_t dst src n).
Proof. unfold memcpy. safe_tac. Qed.

Lemma safe_set_buff_crc : safe (@set_buff_crc spi pipe_t).
Proof. unfold set_buff_crc. safe_tac. Qed.

#[local] Hint Resolve safe_exchange_buff safe_exchange_mem safe_exchange_val
  safe_memcpy safe_set_buff_crc : safe.

(** One exchange, spelled out. *)
Lemma exchange_val_run (tx : list Z) (st : state) :
  exchange_val exchange tx st =
  let r := exchange (spi_desc (sd st)) (pipe st) tx in
  let rx := received tx (snd (fst r)) in
  (if fst (fst r) then Ok rx else Err,
   State (sd st) (mem st) (snd r) (trace st ++ [Xfer tx rx (fst (fst r))])).
Proof.
  unfold exchange_val, bind, spi_write_and_read.
  destruct (exchange _ _ _) as [[[|] rx] p']; reflexivity.
Qed.

Lemma exchange_buff_run (n : Z) (st : state) :
  exchange_buff exchange n st =
  let tx := slice (buff (sd st)) 0 n in
  let r := exchange (spi_desc (sd st)) (pipe st) tx in
  let rx := received tx (snd (fst r)) in
  (if fst (fst r) then Ok tt else Err,
   State (Sd_desc (spi_desc (sd st)) (memory_size (sd st))
                  (blit (buff (sd st)) 0 rx))
         (mem st) (snd r) (trace st ++ [Xfer tx rx (fst (fst r))])).
Proof.
  unfold exchange_buff, bind, get_buff, spi_write_and_read, set_buff.
  cbn [sd pipe]. destruct (exchange _ _ _) as [[[|] rx] p']; reflexivity.
Qed.

(** ** Loops *)

(** The rule for [loop_pow]: an invariant [I] of the loop state and the
    machine state, a postcondition [Q] for the turns that leave the loop, and
    a measure that every turn that goes on lowers by [d] at least. *)
Lemma loop_pow_rule {S R} (body : S -> M (step S R))
    (I : S -> state -> Prop) (Q : outcome (step S R) -> state -> Prop)
    (m : S -> Z) (d : Z) :
  (forall s st, I s st ->
     match body s st with
     | (Ok (Continue s'), st') => I s' st' /\ m s' + d <= m s
     | (o, st') => Q o st'
     end) ->
  forall k s st, I s st ->
     match loop_pow k body s st with
     | (Ok (Continue s'), st') => I s' st' /\ m s' + d * 2 ^ Z.of_nat k <= m s
     | (o, st') => Q o st'
     end.
Proof.
  intros Hbody. induction k as [|k IH]; intros s st HI.
  - simpl. specialize (Hbody s st HI).
    destruct (body s st) as [[[s'|r]| |] st']; auto.
    destruct Hbody. split; [assumption | lia].
  - cbn [loop_pow]. pose proof (IH s st HI) as H1.
    destruct (loop_pow k body s st) as [[[s1|r]| |] st1]; auto.
    destruct H1 as [HI1 Hm1]. pose proof (IH s1 st1 HI1) as H2.
    destruct (loop_pow k body s1 st1) as [[[s2|r]| |] st2]; auto.
    destruct H2 as [HI2 Hm2]. split; [assumption|].
    rewrite Nat2Z.inj_succ, Z.pow_succ_r by lia. lia.
Qed.

(** A loop whose measure starts below [2 ^ k] and stays non-negative leaves
    through its body. *)
Lemma loop_rule {S R} (body : S -> M (step S R))
    (I : S -> state -> Prop) (Q : outcome (step S R) -> state -> Prop)
    (m : S -> Z) (k : nat) (s : S) (st : state) :
  (forall s st, I s st ->
     match body s st with
     | (Ok (Continue s'), st') => I s' st' /\ m s' + 1 <= m s
     | (o, st') => Q o st'
     end) ->
  (forall s st, I s st -> 0 <= m s) ->
  I s st -> m s < 2 ^ Z.of_nat k ->
  match loop k body s st with
  | (Ok r, st') => Q (Ok (Break r)) st'
  | (Err, st') => Q Err st'
  | (OutOfFuel, st') => Q OutOfFuel st'
  end.
Proof.
  intros Hbody Hpos HI Hm. unfold loop, bind.
  pose proof (loop_pow_rule body I Q m 1 Hbody k s st HI) as H.
  destruct (loop_pow k body s st) as [[[s'|r]| |] st']; auto.
  destruct H as [HI' Hm']. specialize (Hpos _ _ HI'). lia.
Qed.

(** The same for [safe]: the invariant is on the loop state alone. *)
Lemma safe_loop {S R} (body : S -> M (step S R)) (I : S -> Prop)
    (m : S -> Z) (k : nat) (s : S) :
  (forall s, I s -> safe (body s)) ->
  (forall s st s' st', I s -> body s st = (Ok (Continue s'), st') ->
     I s' /\ 0 <= m s' /\ m s' + 1 <= m s) ->
  I s -> 0 <= m s < 2 ^ Z.of_nat k ->
  safe (loop k body s).
Proof.
  intros Hsafe Hstep HI Hm st0.
  pose proof (loop_rule body
    (fun s st => I s /\ 0 <= m s /\ extends st0 st)
    (fun o st => o <> OutOfFuel /\ extends st0 st) m k s st0) as H.
  assert (H' : match loop k body s st0 with
  | (Ok r, st') => Ok (Break (S:=S) r) <> OutOfFuel /\ extends st0 st'
  | (Err, st') => @Err (step S R) <> OutOfFuel /\ extends st0 st'
  | (OutOfFuel, st') => @OutOfFuel (step S R) <> OutOfFuel /\ extends st0 st'
  end).
  { apply H; try lia.
    - intros s1 st1 (HI1 & Hm1 & He1).
      destruct (Hsafe s1 HI1 st1) as [Hne Hext].
      specialize (Hstep s1 st1).
      destruct (body s1 st1) as [[[s'|r]| |] st']; simpl in *.
      + destruct (Hstep s' st' HI1 eq_refl) as (? & ? & ?).
        split; [split; [assumption | split; [assumption|]] | assumption].
        eapply extends_trans; eassumption.
      + split; [discriminate|]. eapply extends_trans; eassumption.
      + split; [discriminate|]. eapply extends_trans; eassumption.
      + now contradiction Hne.
    - split; [assumption | split; [lia | apply extends_refl]]. }
  destruct (loop k body s st0) as [[r| |] st']; simpl; destruct H' as [Hne He];
    (split; [discriminate || (exfalso; now apply Hne) | assumption]).
Qed.

(** ** The two polling loops *)

Lemma u32_timeout (timeout : Z) :
  0 < timeout <= WAIT_RESP_TIMEOUT -> u32 (timeout - 1) = timeout - 1.
Proof.
  unfold WAIT_RESP_TIMEOUT, u32. intros H. apply Z.mod_small. lia.
Qed.

(** The rule for a polling loop: a body that leaves with a value as soon as
    the byte it holds is not [quiet], and otherwise exchanges one idle byte
    and counts the timeout down. *)
Lemma polling_rule {R} (body : Z * Z -> M (step (Z * Z) R)) (quiet : Z)
    (value : R -> Z -> Prop) (st : state) :
  (forall d timeout s, d <> quiet ->
     exists r, body (d, timeout) s = (Ok (Break r), s) /\ value r d) ->
  (forall timeout s,
     body (quiet, timeout) s =
     bind (exchange_val exchange [0xFF])
          (fun rx => if timeout =? 0 then fail
                     else ret (Continue (load rx 0, u32 (timeout - 1)))) s) ->
  bounded_wait quiet value (trace st)
    (fst (loop 25 body (quiet, WAIT_RESP_TIMEOUT) st))
    (trace (snd (loop 25 body (quiet, WAIT_RESP_TIMEOUT) st))).
Proof.
  intros Hleave Hpoll.
  pose proof (loop_rule body
    (fun s st1 =>
       0 <= snd s <= WAIT_RESP_TIMEOUT /\
       exists t, trace st1 = trace st ++ t /\
         Z.of_nat (length t) = WAIT_RESP_TIMEOUT - snd s /\
         Forall (fun e => x_tx e = [0xFF]) t /\
         ((t = [] /\ fst s = quiet) \/
          exists t', t = t' ++ [Xfer [0xFF] [fst s] true]))
    (fun o st1 =>
       match o with
       | Ok (Break a) => bounded_wait quiet value (trace st) (Ok a) (trace st1)
       | Ok (Continue _) => False
       | Err => bounded_wait quiet value (trace st) (@Err R) (trace st1)
       | OutOfFuel => False
       end)
    snd 25%nat (quiet, WAIT_RESP_TIMEOUT) st) as H.
  match type of H with ?A -> ?B -> ?C -> ?D -> ?E => assert (HE : E) end.
  { apply H; clear H.
    - intros [d timeout] st1 (Hto & t & Ht & Hlen & Htx & Hlast).
      cbn [fst snd] in *.
      destruct (Z.eq_dec d quiet) as [Hd | Hd].
      + subst d. rewrite Hpoll. unfold bind. rewrite exchange_val_run.
        destruct (exchange (spi_desc (sd st1)) (pipe st1) [0xFF])
          as [[ok rx] p'].
        cbv zeta. cbn [fst snd].
        destruct (received_one 0xFF rx) as [y Hy]. rewrite Hy.
        change (load [y] 0) with y.
        assert (Hall : Forall (fun e => x_tx e = [0xFF])
                         (t ++ [Xfer [0xFF] [y] ok])).
        { apply Forall_app. split; [assumption|]. now constructor. }
        assert (Hlen' : Z.of_nat (length (t ++ [Xfer [0xFF] [y] ok]))
                        = WAIT_RESP_TIMEOUT - timeout + 1).
        { rewrite length_app. cbn [length]. lia. }
        destruct ok.
        * destruct (Z.eqb_spec timeout 0) as [H0 | H0];
            unfold ret, fail; cbv beta iota zeta; cbn [fst snd trace].
          -- split; [discriminate|]. exists t, (Xfer [0xFF] [y] true).
             split; [now rewrite Ht, <- app_assoc|].
             split; [rewrite Hlen'; unfold WAIT_RESP_TIMEOUT; lia|].
             split; [assumption|]. right. rewrite Hlen'.
             unfold WAIT_RESP_TIMEOUT. lia.
          -- cbn [fst snd]. rewrite u32_timeout by lia.
             split; [|lia]. split; [lia|].
             exists (t ++ [Xfer [0xFF] [y] true]).
             split; [now rewrite Ht, <- app_assoc|].
             split; [rewrite Hlen'; lia|]. split; [assumption|].
             right. exists t. reflexivity.
        * split; [discriminate|]. exists t, (Xfer [0xFF] [y] false).
          split; [now rewrite Ht, <- app_assoc|].
          split; [rewrite Hlen'; unfold WAIT_RESP_TIMEOUT in *; lia|].
          split; [assumption|]. now left.
      + destruct (Hleave d timeout st1 Hd) as (r & -> & Hv).
        destruct Hlast as [[_ Hd'] | [t' Ht']]; [contradiction|].
        split; [discriminate|]. exists t', (Xfer [0xFF] [d] true).
        split; [now rewrite Ht, Ht'|]. rewrite <- Ht'.
        split; [unfold WAIT_RESP_TIMEOUT in *; lia|].
        split; [assumption|]. exists d. cbn. auto.
    - intros s st1 (Hto & _). lia.
    - cbn [fst snd]. split; [unfold WAIT_RESP_TIMEOUT; lia|].
      exists []. rewrite app_nil_r. split; [reflexivity|].
      split; [cbn [length]; lia|]. split; [constructor|]. now left.
    - reflexivity. }
  clear H.
  destruct (loop 25 _ _ st) as [[a| |] st1]; cbn [fst snd];
    [assumption | assumption | contradiction].
Qed.

Lemma wait_for_response_bounded (st : state) :
  bounded_wait 0xFF (fun a b => a = b) (trace st)
    (fst (wait_for_response exchange st))
    (trace (snd (wait_for_response exchange st))).
Proof.
  unfold wait_for_response. apply polling_rule.
  - intros d timeout s Hd. exists d. split; [| reflexivity].
    unfold wait_for_response_body.
    destruct (Z.eqb_spec d 0xFF); [contradiction | reflexivity].
  - reflexivity.
Qed.

Lemma wait_until_not_busy_bounded (st : state) :
  bounded_wait 0x00 (fun _ _ => True) (trace st)
    (fst (wait_until_not_busy exchange st))
    (trace (snd (wait_until_not_busy exchange st))).
Proof.
  unfold wait_until_not_busy. apply polling_rule.
  - intros d timeout s Hd. exists tt. split; [| exact I].
    unfold wait_until_not_busy_body.
    destruct (Z.eqb_spec d 0x00); [contradiction | reflexivity].
  - reflexivity.
Qed.

(** ** Every function below [sd_init] is safe *)

Lemma bind_Ok {A B} (m : M A) (f : A -> M B) (st st' : state) (b : B) :
  bind m f st = (Ok b, st') ->
  exists a st1, m st = (Ok a, st1) /\ f a st1 = (Ok b, st').
Proof.
  unfold bind. destruct (m st) as [[a| |] st1]; intros H; try discriminate.
  now exists a, st1.
Qed.

Lemma wait_body_step (tx : list Z) (timeout : Z) (st st' : state)
    (s' : Z * Z) {R} :
  0 <= timeout <= WAIT_RESP_TIMEOUT ->
  bind (exchange_val exchange tx)
       (fun rx => if timeout =? 0 then fail
                  else ret (Continue (R:=R) (load rx 0, u32 (timeout - 1))))
       st = (Ok (Continue s'), st') ->
  0 <= snd s' <= WAIT_RESP_TIMEOUT /\ snd s' + 1 <= timeout.
Proof.
  intros Hto H. apply bind_Ok in H. destruct H as (rx & st1 & _ & H).
  destruct (Z.eqb_spec timeout 0); [discriminate|].
  inversion H; subst. cbn [snd]. rewrite u32_timeout by lia. lia.
Qed.

Lemma safe_wait_for_response : safe (wait_for_response exchange).
Proof.
  unfold wait_for_response.
  apply safe_loop with
    (I := fun s => 0 <= snd s <= WAIT_RESP_TIMEOUT) (m := snd).
  - intros [d timeout] _. unfold wait_for_response_body. safe_tac.
  - intros [d timeout] st [d' timeout'] st' Hto H.
    unfold wait_for_response_body in H. cbn [snd] in *.
    destruct (negb (d =? 255)); [discriminate|].
    apply wait_body_step in H; [cbn [snd] in H; lia | assumption].
  - cbn [snd]. unfold WAIT_RESP_TIMEOUT. lia.
  - cbn [snd]. unfold WAIT_RESP_TIMEOUT. split; [lia | reflexivity].
Qed.

Lemma safe_wait_until_not_busy : safe (wait_until_not_busy exchange).
Proof.
  unfold wait_until_not_busy.
  apply safe_loop with
    (I := fun s => 0 <= snd s <= WAIT_RESP_TIMEOUT) (m := snd).
  - intros [d timeout] _. unfold wait_until_not_busy_body. safe_tac.
  - intros [d timeout] st [d' timeout'] st' Hto H.
    unfold wait_until_not_busy_body in H. cbn [snd] in *.
    destruct (negb (d =? 0)); [discriminate|].
    apply wait_body_step in H; [cbn [snd] in H; lia | assumption].
  - cbn [snd]. unfold WAIT_RESP_TIMEOUT. lia.
  - cbn [snd]. unfold WAIT_RESP_TIMEOUT. split; [lia | reflexivity].
Qed.

#[local] Hint Resolve safe_wait_for_response safe_wait_until_not_busy : safe.

Lemma safe_send_command_body (self : cmd_desc -> M cmd_desc) (cd : cmd_desc) :
  (Z.land (cmd cd) BIT_APPLICATION_CMD <> 0 ->
   safe (self (new_cmd_desc (CMD 55) STUFF_ARG R1_LEN))) ->
  safe (send_command_body exchange self cd).
Proof.
  intros Hself. unfold send_command_body.
  apply safe_bind; [| intros ?; unfold send_command_frame; safe_tac].
  destruct (Z.eqb_spec (Z.land (cmd cd) BIT_APPLICATION_CMD) 0) as [H | H];
    cbn [negb]; [auto with safe|].
  apply safe_bind; [auto | intros ?; safe_tac].
Qed.

Lemma safe_send_command (cd : cmd_desc) : safe (send_command exchange cd).
Proof.
  unfold send_command. apply safe_send_command_body. intros _.
  apply safe_send_command_body. intros H. now contradiction H.
Qed.

#[local] Hint Resolve safe_send_command : safe.

Lemma safe_write_block (data : ptr) (nb : Z) :
  safe (write_block exchange data nb).
Proof. unfold write_block. safe_tac. Qed.

Lemma safe_read_block (data : ptr) : safe (read_block exchange data).
Proof. unfold read_block. safe_tac. Qed.

#[local] Hint Resolve safe_write_block safe_read_block : safe.

Lemma u32_range (x : Z) : 0 <= u32 x < 2 ^ 32.
Proof. unfold u32. apply Z.mod_pos_bound. lia. Qed.

Lemma get_nb_of_blocks_range (address len : Z) :
  0 <= get_nb_of_blocks address len < 2 ^ 32.
Proof. unfold get_nb_of_blocks. apply u32_range. Qed.

Lemma block_loop_step {A} (m : M A) (i nb v : Z) (st st' : state)
    (s' : Z * Z) :
  0 <= i < nb -> nb < 2 ^ 32 ->
  bind m (fun _ => ret (Continue (R:=unit) (u32 (i + 1), v))) st
    = (Ok (Continue s'), st') ->
  0 <= fst s' <= nb /\ 0 <= nb - fst s' /\ nb - fst s' + 1 <= nb - i.
Proof.
  intros Hi Hnb H. apply bind_Ok in H. destruct H as (a & st1 & _ & H).
  inversion H; subst. cbn [fst]. unfold u32. rewrite Z.mod_small by lia. lia.
Qed.

Lemma safe_write_multiple_blocks (data : ptr) (addr len : Z)
    (first_block last_block : ptr) :
  safe (write_multiple_blocks exchange data addr len first_block last_block).
Proof.
  unfold write_multiple_blocks.
  pose proof (get_nb_of_blocks_range addr len) as Hnb.
  apply safe_loop with
    (I := fun s => 0 <= fst s <= get_nb_of_blocks addr len)
    (m := fun s => get_nb_of_blocks addr len - fst s).
  - intros [i idx] _. unfold write_multiple_blocks_body. safe_tac.
  - intros [i idx] st s' st' Hi H.
    unfold write_multiple_blocks_body in H. cbn [fst] in *.
    destruct (Z.ltb_spec i (get_nb_of_blocks addr len)); cbn [negb] in H;
      [| discriminate].
    apply block_loop_step with (nb := get_nb_of_blocks addr len) in H; lia.
  - cbn [fst]. lia.
  - cbn [fst]. change (Z.of_nat 32) with 32. lia.
Qed.

Lemma safe_read_multiple_blocks (data : ptr) (addr len : Z) :
  safe (read_multiple_blocks exchange data addr len).
Proof.
  unfold read_multiple_blocks.
  pose proof (get_nb_of_blocks_range addr len) as Hnb.
  apply safe_loop with
    (I := fun s => 0 <= fst s <= get_nb_of_blocks addr len)
    (m := fun s => get_nb_of_blocks addr len - fst s).
  - intros [i idx] _. unfold read_multiple_blocks_body. safe_tac.
  - intros [i idx] st s' st' Hi H.
    unfold read_multiple_blocks_body in H. cbn [fst] in *.
    destruct (Z.ltb_spec i (get_nb_of_blocks addr len)); cbn [negb] in H;
      [| discriminate].
    apply block_loop_step with (nb := get_nb_of_blocks addr len) in H; lia.
  - cbn [fst]. lia.
  - cbn [fst]. change (Z.of_nat 32) with 32. lia.
Qed.

#[local] Hint Resolve safe_write_multiple_blocks safe_read_multiple_blocks
  : safe.

Lemma safe_sd_read (data : option ptr) (address len : Z) :
  safe (sd_read exchange data address len).
Proof. unfold sd_read. safe_tac. Qed.

#[local] Hint Resolve safe_sd_read : safe.

Lemma safe_sd_write_read_back (address len : Z) :
  safe (sd_write_read_back exchange address len).
Proof. unfold sd_write_read_back. safe_tac. Qed.

Lemma safe_sd_write_commit (data : ptr) (address len : Z) :
  safe (sd_write_commit exchange data address len).
Proof. unfold sd_write_commit. safe_tac. Qed.

#[local] Hint Resolve safe_sd_write_read_back safe_sd_write_commit : safe.

Lemma safe_sd_write (data : option ptr) (address len : Z) :
  safe (sd_write exchange data address len).
Proof. unfold sd_write. safe_tac. Qed.

(** ** The command exchange *)

Lemma frame_bytes (b : list Z) (x1 x2 x3 x4 x5 : Z) :
  slice (store (store (store (store (store (memset b 0 0xFF CMD_LEN)
           1 x1) 2 x2) 3 x3) 4 x4) 5 x5) 0 CMD_LEN
  = [0xFF; x1; x2; x3; x4; x5; 0xFF; 0xFF].
Proof. reflexivity. Qed.

Lemma frame_bytes_crc (b : list Z) (x1 x2 x3 x4 x5 x6 : Z) :
  slice (store (store (store (store (store (store (memset b 0 0xFF CMD_LEN)
           1 x1) 2 x2) 3 x3) 4 x4) 5 x5) 6 x6) 0 CMD_LEN
  = [0xFF; x1; x2; x3; x4; x5; x6; 0xFF].
Proof. reflexivity. Qed.

(** Whatever follows, the first exchange of [send_command_frame] sends the
    frame. *)
Lemma send_command_frame_first (cd : cmd_desc) (st : state) :
  exists e t,
    trace (snd (send_command_frame exchange cd st)) = trace st ++ e :: t
    /\ x_tx e = frame_of cd.
Proof.
  unfold send_command_frame.
  unfold bind at 1. unfold get_buff. unfold bind at 1. unfold set_buff at 1.
  unfold bind at 1. rewrite exchange_buff_run. cbv zeta. cbn [sd buff].
  match goal with
  | |- context [slice ?b 0 CMD_LEN] =>
      assert (Hb : slice b 0 CMD_LEN = frame_of cd)
  end.
  { unfold frame_of.
    destruct (cmd cd =? CMD 0); [apply frame_bytes_crc|].
    destruct (cmd cd =? CMD 8); [apply frame_bytes_crc | apply frame_bytes]. }
  rewrite Hb.
  match goal with
  | |- context [exchange ?h ?p ?tx] => destruct (exchange h p tx) as [[ok rx] p']
  end.
  cbn [fst snd]. destruct ok.
  - match goal with
    | |- context [bind ?m ?f ?s] =>
        assert (Hs : safe (bind m f)) by safe_tac;
        destruct (Hs s) as [_ (_ & _ & t & Ht)]
    end.
    rewrite Ht. cbn [trace]. rewrite <- app_assoc.
    eexists; eexists; split; reflexivity.
  - cbn [trace]. eexists; eexists; split; reflexivity.
Qed.

Lemma send_command_not_application (cd : cmd_desc) (st : state)
    (self : cmd_desc -> M cmd_desc) :
  Z.land (cmd cd) BIT_APPLICATION_CMD = 0 ->
  send_command_body exchange self cd st = send_command_frame exchange cd st.
Proof.
  intros H. unfold send_command_body. rewrite H. reflexivity.
Qed.

Lemma send_command_first (cd : cmd_desc) (st : state) :
  Z.land (cmd cd) BIT_APPLICATION_CMD = 0 ->
  exists e t,
    trace (snd (send_command exchange cd st)) = trace st ++ e :: t
    /\ x_tx e = frame_of cd.
Proof.
  intros H. unfold send_command.
  rewrite send_command_not_application by assumption.
  apply send_command_frame_first.
Qed.

Lemma send_command_application (cd : cmd_desc) (st : state) :
  (Z.land (cmd cd) BIT_APPLICATION_CMD =? 0) = false ->
  send_command exchange cd st =
  match send_command_frame exchange (new_cmd_desc (CMD 55) STUFF_ARG R1_LEN) st
  with
  | (Ok l, st1) =>
      if load (response l) 0 =? R1_IDLE_STATE
      then send_command_frame exchange cd st1 else (Err, st1)
  | (Err, st1) => (Err, st1)
  | (OutOfFuel, st1) => (OutOfFuel, st1)
  end.
Proof.
  intros H. unfold send_command. unfold send_command_body at 1.
  rewrite H. cbn [negb]. unfold bind at 1. unfold bind at 1.
  rewrite send_command_not_application by reflexivity.
  destruct (send_command_frame exchange _ st) as [[l| |] st1];
    try reflexivity.
  now destruct (load (response l) 0 =? R1_IDLE_STATE).
Qed.

(** C1, as the code has it: the command exchange is eight bytes, an idle
    byte before and after the six bytes of the frame.  For a standard command
    CMDidx it is the first exchange of [send_command]: 0xFF, then
    [0x40 | (idx & 0x3F)], the argument most significant byte first, 0x95 for
    CMD0, 0x87 for CMD8 and 0xFF otherwise, then 0xFF.  For an application
    command ACMDidx the CMD55 exchange comes first, and when that got the
    idle response the same eight bytes follow, with 0xFF in the CRC slot;
    otherwise nothing more is sent. *)
Theorem command_exchange_layout (cd : cmd_desc) (idx : Z) (st : state) :
  0 <= idx < 64 ->
  (cmd cd = CMD idx ->
   exists e t,
     trace (snd (send_command exchange cd st)) = trace st ++ e :: t
     /\ x_tx e = command_exchange idx (arg cd) (command_crc idx))
  /\
  (cmd cd = ACMD idx ->
   match send_command exchange (new_cmd_desc (CMD 55) STUFF_ARG R1_LEN) st with
   | (Ok l, st1) =>
       if load (response l) 0 =? R1_IDLE_STATE then
         exists e t,
           trace (snd (send_command exchange cd st)) = trace st1 ++ e :: t
           /\ x_tx e = command_exchange idx (arg cd) 0xFF
       else send_command exchange cd st = (Err, st1)
   | (Err, st1) => send_command exchange cd st = (Err, st1)
   | (OutOfFuel, st1) => False
   end).
Proof.
  intros Hidx. split; intros Hcmd.
  - rewrite <- (frame_of_CMD cd idx Hidx Hcmd).
    apply send_command_first. rewrite Hcmd. now apply CMD_not_application.
  - pose proof (safe_send_command (new_cmd_desc (CMD 55) STUFF_ARG R1_LEN) st)
      as [Hne _].
    rewrite (send_command_application cd)
      by (rewrite Hcmd; now apply ACMD_application).
    unfold send_command in *.
    rewrite send_command_not_application in * by reflexivity.
    destruct (send_command_frame exchange _ st) as [[l| |] st1];
      [| reflexivity | now apply Hne].
    destruct (load (response l) 0 =? R1_IDLE_STATE); [| reflexivity].
    rewrite <- (frame_of_ACMD cd idx Hidx Hcmd).
    apply send_command_frame_first.
Qed.

(** ** What [sd_init] leaves in [memory_size] *)

Ltac inv_bind H :=
  let a := fresh "a" in
  let s := fresh "st" in
  let H1 := fresh "H" in
  apply bind_Ok in H; destruct H as (a & s & H1 & H).

Ltac inv_if H :=
  match type of H with
  | (if ?c then _ else _) _ = _ =>
      let E := fresh "E" in destruct c eqn:E; try discriminate H
  end.

Lemma nth_bytes (l : list Z) (i : nat) :
  Forall (fun b => 0 <= b < 256) l -> 0 <= nth i l 0 < 256.
Proof.
  intros H. destruct (Nat.lt_ge_cases i (length l)) as [Hi | Hi].
  - rewrite Forall_forall in H. apply H. now apply nth_In.
  - rewrite nth_overflow by assumption. lia.
Qed.

Lemma repeat_bytes (n : nat) :
  Forall (fun b => 0 <= b < 256) (repeat 255 n).
Proof.
  apply Forall_forall. intros x Hx. apply repeat_spec in Hx. lia.
Qed.

Lemma sd_init_memory_size fuel nn param c (st st' : state) :
  sd_init exchange fuel nn param c st = (Ok tt, st') ->
  memory_size (sd st')
    = (c_size_of (buff (sd st')) + 1) * (512 * 1024)
  /\ 0 <= c_size_of (buff (sd st')) < 2 ^ 21.
Proof.
  intros H. unfold sd_init in H.
  destruct param as [param|]; [| discriminate].
  inv_if H. inv_if H.
  inv_bind H. inv_bind H. inv_bind H. inv_bind H. inv_bind H. inv_bind H.
  inv_if H. inv_bind H. inv_bind H. inv_if H. inv_bind H. inv_bind H.
  inv_if H.
  clear - H. revert H. generalize st9 as s. clear st9. intros s H.
  unfold bind at 1 in H. unfold get_buff at 1 in H.
  unfold bind at 1 in H. unfold set_buff at 1 in H.
  unfold bind at 1 in H. rewrite exchange_buff_run in H.
  cbv zeta in H. cbn [sd buff spi_desc memory_size pipe mem trace] in H.
  rewrite slice_memset_0 in H.
  destruct (exchange (spi_desc (sd s)) (pipe s) (repeat 255 (Z.to_nat CSD_LEN)))
    as [[ok rx] p'].
  cbn [fst snd] in H. destruct ok; [| discriminate].
  unfold bind, get_buff, set_memory_size in H.
  cbn [sd buff spi_desc memory_size pipe mem trace] in H.
  inversion H; subst; clear H. cbn [sd buff memory_size].
  fold (c_size_of
          (blit (memset (buff (sd s)) 0 255 CSD_LEN) 0
                (received (repeat 255 (Z.to_nat CSD_LEN)) rx))).
  set (b := blit _ 0 _).
  assert (Hbytes : forall i, 0 <= i < 18 -> 0 <= load b i < 256).
  { intros i Hi. subst b. rewrite load_blit_0.
    - apply nth_bytes, received_bytes. apply (repeat_bytes 18).
    - lia.
    - rewrite received_length. cbn [length].
      change (Z.to_nat i < 18)%nat. lia. }
  pose proof (c_size_of_range b (Hbytes 7 ltac:(lia)) (Hbytes 8 ltac:(lia))
                (Hbytes 9 ltac:(lia))) as Hc.
  split; [| assumption].
  change (Z.shiftl DATA_BLOCK_LEN 10) with (512 * 1024).
  unfold u64. rewrite (Z.mod_small (c_size_of b + 1)) by lia.
  apply Z.mod_small. lia.
Qed.

(** The invariant of sessions: [memory_size] is a whole number of blocks,
    at least one and at most [2 ^ 31]. *)
Lemma session_memory_size (d : sd_desc spi) :
  session exchange d ->
  memory_size d mod 512 = 0 /\ 512 <= memory_size d <= 2 ^ 40.
Proof.
  induction 1 as [fuel param st st' H | data address len st _ IH
                 | data address len st _ IH].
  - apply sd_init_memory_size in H. destruct H as [-> Hc].
    split; [| lia].
    replace ((c_size_of (buff (sd st')) + 1) * (512 * 1024))
      with ((c_size_of (buff (sd st')) + 1) * 1024 * 512) by lia.
    apply Z.mod_mul. lia.
  - destruct (safe_sd_read data address len st) as [_ (_ & -> & _)].
    exact IH.
  - destruct (safe_sd_write data address len st) as [_ (_ & -> & _)].
    exact IH.
Qed.

(** ** Reads and writes *)

Lemma bind_trace_first {A B} (m : M A) (f : A -> M B) (st : state)
    (e : xfer) (t : list xfer) :
  trace (snd (m st)) = trace st ++ e :: t ->
  (forall a, safe (f a)) ->
  exists t', trace (snd (bind m f st)) = trace st ++ e :: t'.
Proof.
  intros Hm Hf. unfold bind.
  destruct (m st) as [[a| |] st1]; cbn [snd] in *; try (now exists t).
  destruct (Hf a st1) as [_ (_ & _ & t2 & Ht2)].
  rewrite Ht2, Hm, <- app_assoc. eexists. reflexivity.
Qed.

Lemma sd_read_rejected (data : option ptr) (address len : Z) (st : state) :
  initial_checks (sd st) data address len = true ->
  sd_read exchange data address len st = (Err, st).
Proof.
  intros H. unfold sd_read, bind, get_sd.
  destruct data as [p|]; [| reflexivity]. now rewrite H.
Qed.

Lemma sd_write_rejected (data : option ptr) (address len : Z) (st : state) :
  initial_checks (sd st) data address len = true ->
  sd_write exchange data address len st = (Err, st).
Proof.
  intros H. unfold sd_write, bind, get_sd.
  destruct data as [p|]; [| reflexivity]. now rewrite H.
Qed.

Lemma sd_read_first (p : ptr) (address len : Z) (st : state) :
  initial_checks (sd st) (Some p) address len = false ->
  exists e t,
    trace (snd (sd_read exchange (Some p) address len st)) = trace st ++ e :: t
    /\ x_tx e =
       frame_of (new_cmd_desc
                   (if get_nb_of_blocks address len =? 1
                    then CMD 17 else CMD 18)
                   (u32 (Z.shiftr address DATA_BLOCK_BITS)) R1_LEN).
Proof.
  intros H. unfold sd_read. unfold bind at 1. unfold get_sd. rewrite H.
  match goal with
  | |- context [send_command exchange ?cd] =>
      destruct (send_command_first cd st) as (e & t & Ht & He)
  end.
  { now destruct (get_nb_of_blocks address len =? 1). }
  match goal with
  | |- context [bind ?m ?f st] =>
      assert (Hf : forall a, safe (f a)) by (intros; safe_tac);
      destruct (bind_trace_first m f st e t Ht Hf) as [t' Ht']
  end.
  exists e, t'. split; [exact Ht' | exact He].
Qed.

Lemma sd_write_commit_first (p : ptr) (address len : Z) (st : state) :
  exists e t,
    trace (snd (sd_write_commit exchange p address len st))
      = trace st ++ e :: t
    /\ x_tx e =
       frame_of (new_cmd_desc
                   (if get_nb_of_blocks address len =? 1
                    then CMD 24 else CMD 25)
                   (u32 (Z.shiftr address DATA_BLOCK_BITS)) R1_LEN).
Proof.
  unfold sd_write_commit.
  match goal with
  | |- context [send_command exchange ?cd] =>
      destruct (send_command_first cd st) as (e & t & Ht & He)
  end.
  { now destruct (get_nb_of_blocks address len =? 1). }
  match goal with
  | |- context [bind ?m ?f st] =>
      assert (Hf : forall a, safe (f a)) by (intros; safe_tac);
      destruct (bind_trace_first m f st e t Ht Hf) as [t' Ht']
  end.
  exists e, t'. split; [exact Ht' | exact He].
Qed.

(** The frames of the four data commands, for a request within bounds. *)
Lemma data_frame (address len i1 i2 : Z) :
  0 <= address -> 0 < len -> address + len <= 2 ^ 40 ->
  (i1 = 17 /\ i2 = 18) \/ (i1 = 24 /\ i2 = 25) ->
  frame_of (new_cmd_desc
              (if get_nb_of_blocks address len =? 1 then CMD i1 else CMD i2)
              (u32 (Z.shiftr address DATA_BLOCK_BITS)) R1_LEN)
  = command_exchange (if nblocks address len =? 1 then i1 else i2)
                     (Z.shiftr address 9) 0xFF.
Proof.
  intros Ha Hl Hb Hi.
  rewrite get_nb_of_blocks_in_bounds, block_index_in_bounds by lia.
  destruct (nblocks address len =? 1);
    destruct Hi as [[-> ->] | [-> ->]];
    match goal with
    | |- frame_of (new_cmd_desc (CMD ?i) _ _) = _ =>
        rewrite (frame_of_CMD _ i); [reflexivity | lia | reflexivity]
    end.
Qed.

(** A discarded call goes on in the state the call has left. *)
Lemma discard_run (m : M unit) (st : state) :
  safe m -> discard m st = (Ok tt, snd (m st)).
Proof.
  intros Hm. unfold discard. destruct (Hm st) as [Hne _].
  destruct (m st) as [[[]| |] st1]; cbn [fst snd] in *;
    [reflexivity | reflexivity | now contradiction Hne].
Qed.

Lemma sd_write_read_back_run (address len : Z) (st : state) :
  sd_write_read_back exchange address len st =
  (Ok tt,
   after_read_back exchange (reads_last_block address len) Stack_last_block
     (Z.land (u64 (u64 (address + len) - 1)) MASK_BLOCK_NUMBER)
     (after_read_back exchange (reads_first_block address len) Stack_first_block
        (Z.land address MASK_BLOCK_NUMBER) st)).
Proof.
  unfold sd_write_read_back, after_read_back, bind.
  destruct (reads_first_block address len);
    destruct (reads_last_block address len);
    unfold ret; repeat rewrite discard_run by apply safe_sd_read;
    reflexivity.
Qed.

Lemma sd_write_run (p : ptr) (address len : Z) (st : state) :
  initial_checks (sd st) (Some p) address len = false ->
  sd_write exchange (Some p) address len st =
  sd_write_commit exchange p address len
    (snd (sd_write_read_back exchange address len st)).
Proof.
  intros H. unfold sd_write. unfold bind at 1. unfold get_sd. rewrite H.
  unfold bind. now rewrite sd_write_read_back_run.
Qed.

(** A read-back within the card starts with CMD17 for its block. *)
Lemma read_back_first (buf : buf_id) (a : Z) (st : state) :
  memory_size (sd st) mod 512 = 0 -> memory_size (sd st) <= 2 ^ 40 ->
  0 <= a < memory_size (sd st) ->
  exists e t,
    trace (snd (sd_read exchange (Some (Ptr buf 0)) (512 * (a / 512))
                        DATA_BLOCK_LEN st))
      = trace st ++ e :: t
    /\ x_tx e = command_exchange 17 (a / 512) 0xFF.
Proof.
  intros Hm Hms Ha.
  pose proof (block_in_bounds _ _ Hm Ha) as Hb.
  assert (H0 : 0 <= 512 * (a / 512)) by (Z.div_mod_to_equations; lia).
  destruct (sd_read_first (Ptr buf 0) (512 * (a / 512)) DATA_BLOCK_LEN st)
    as (e & t & Ht & He).
  { apply initial_checks_in_bounds; unfold DATA_BLOCK_LEN; lia. }
  exists e, t. split; [exact Ht|]. rewrite He.
  unfold DATA_BLOCK_LEN.
  rewrite (data_frame _ 512 17 18) by (try lia; now left).
  rewrite nblocks_one_block by lia. cbn [Z.eqb Pos.eqb].
  rewrite Z.shiftr_div_pow2 by lia. change (2 ^ 9) with 512.
  f_equal. Z.div_mod_to_equations. lia.
Qed.

Lemma after_read_back_step (wanted : bool) (needed : Prop) (buf : buf_id)
    (a : Z) (st : state) :
  (wanted = true <-> needed) ->
  memory_size (sd st) mod 512 = 0 -> memory_size (sd st) <= 2 ^ 40 ->
  0 <= a < memory_size (sd st) ->
  read_back_step exchange needed buf (a / 512) st
    (after_read_back exchange wanted buf (512 * (a / 512)) st).
Proof.
  intros Hw Hm Hms Ha. unfold read_back_step, after_read_back.
  destruct wanted; split; intros Hn.
  - split; [reflexivity|]. now apply read_back_first.
  - exfalso. apply Hn, Hw. reflexivity.
  - apply Hw in Hn. discriminate.
  - reflexivity.
Qed.

Lemma after_read_back_extends (wanted : bool) (buf : buf_id) (a : Z)
    (st : state) :
  extends st (after_read_back exchange wanted buf a st).
Proof.
  unfold after_read_back. destruct wanted; [| apply extends_refl].
  apply safe_sd_read.
Qed.

(** The whole of [sd_write] for a request within bounds on a session. *)
Lemma sd_write_in_bounds (p : ptr) (address len : Z) (st : state) :
  session exchange (sd st) ->
  0 <= address -> 0 < len -> address + len <= memory_size (sd st) ->
  exists st1 st2 e t,
    read_back_step exchange (head_read_needed address len)
      Stack_first_block (address / 512) st st1
    /\ read_back_step exchange (tail_read_needed address len)
         Stack_last_block ((address + len - 1) / 512) st1 st2
    /\ snd (sd_write_read_back exchange address len st) = st2
    /\ trace (snd (sd_write exchange (Some p) address len st))
       = trace st2 ++ e :: t
    /\ x_tx e = command_exchange (if nblocks address len =? 1 then 24 else 25)
                                 (Z.shiftr address 9) 0xFF.
Proof.
  intros Hs Ha Hl Hb.
  destruct (session_memory_size _ Hs) as [Hm Hms].
  rewrite sd_write_run by (apply initial_checks_in_bounds; lia).
  rewrite sd_write_read_back_run. cbn [snd].
  rewrite (u64_small (address + len)) by lia.
  rewrite (u64_small (address + len - 1)) by lia.
  rewrite !land_block_number by lia.
  set (st1 := after_read_back exchange (reads_first_block address len)
                Stack_first_block (512 * (address / 512)) st).
  set (st2 := after_read_back exchange (reads_last_block address len)
                Stack_last_block (512 * ((address + len - 1) / 512)) st1).
  destruct (after_read_back_extends (reads_first_block address len)
              Stack_first_block (512 * (address / 512)) st)
    as (_ & Hms1 & _).
  fold st1 in Hms1.
  destruct (sd_write_commit_first p address len st2) as (e & t & Ht & He).
  exists st1, st2, e, t. split; [| split; [| split; [| split]]].
  - apply after_read_back_step; try lia.
    apply reads_first_block_spec; lia.
  - apply (after_read_back_step _ _ _ (address + len - 1)); try lia.
    + apply reads_last_block_spec; lia.
    + now rewrite Hms1.
  - reflexivity.
  - exact Ht.
  - rewrite He. apply data_frame; lia.
Qed.

(** ** What a write sends for its first block *)

(** A computation that leaves the buffers in memory alone. *)
Definition keeps_mem {A} (m : M A) : Prop :=
  forall st, mem (snd (m st)) = mem st.

Lemma keeps_mem_ret {A} (a : A) : keeps_mem (ret a).
Proof. intros st. reflexivity. Qed.

Lemma keeps_mem_fail {A} : keeps_mem (@fail spi pipe_t A).
Proof. intros st. reflexivity. Qed.

Lemma keeps_mem_bind {A B} (m : M A) (f : A -> M B) :
  keeps_mem m -> (forall a, keeps_mem (f a)) -> keeps_mem (bind m f).
Proof.
  intros Hm Hf st. unfold bind. specialize (Hm st).
  destruct (m st) as [[a| |] st1]; cbn [snd] in *; try assumption.
  now rewrite Hf.
Qed.

Lemma keeps_mem_if {A} (b : bool) (m1 m2 : M A) :
  keeps_mem m1 -> keeps_mem m2 -> keeps_mem (if b then m1 else m2).
Proof. now destruct b. Qed.

Lemma keeps_mem_get_buff : keeps_mem (@get_buff spi pipe_t).
Proof. intros st. reflexivity. Qed.

Lemma keeps_mem_set_buff (b : list Z) : keeps_mem (@set_buff spi pipe_t b).
Proof. intros st. reflexivity. Qed.

Lemma keeps_mem_spi_write_and_read (tx : list Z) :
  keeps_mem (spi_write_and_read exchange tx).
Proof.
  intros st. unfold spi_write_and_read.
  now destruct (exchange _ _ _) as [[ok rx] p'].
Qed.

Create HintDb keeps_mem.
#[local] Hint Resolve keeps_mem_ret keeps_mem_fail keeps_mem_get_buff
  keeps_mem_set_buff keeps_mem_spi_write_and_read : keeps_mem.

Ltac keeps_mem_step :=
  lazymatch goal with
  | |- keeps_mem (bind _ _) => apply keeps_mem_bind; [| intros ?]
  | |- keeps_mem (if _ then _ else _) => apply keeps_mem_if
  | |- keeps_mem (let '(_, _) := ?x in _) => destruct x
  | |- _ => solve [auto with keeps_mem]
  end.

Ltac keeps_mem_tac := repeat keeps_mem_step.

Lemma keeps_mem_loop_pow {S R} (body : S -> M (step S R)) :
  (forall s, keeps_mem (body s)) ->
  forall k s, keeps_mem (loop_pow k body s).
Proof.
  intros Hbody. induction k as [|k IH]; intros s st; [apply Hbody|].
  cbn [loop_pow]. pose proof (IH s st) as H1.
  destruct (loop_pow k body s st) as [[[s1|r]| |] st1]; cbn [snd] in *;
    try assumption.
  now rewrite IH.
Qed.

Lemma keeps_mem_loop {S R} (body : S -> M (step S R)) (k : nat) (s : S) :
  (forall s, keeps_mem (body s)) -> keeps_mem (loop k body s).
Proof.
  intros Hbody. unfold loop. apply keeps_mem_bind.
  - now apply keeps_mem_loop_pow.
  - intros [s'|r]; [intros st; reflexivity | apply keeps_mem_ret].
Qed.

Lemma keeps_mem_exchange_buff (n : Z) : keeps_mem (exchange_buff exchange n).
Proof. unfold exchange_buff. keeps_mem_tac. Qed.

Lemma keeps_mem_exchange_val (tx : list Z) :
  keeps_mem (exchange_val exchange tx).
Proof. unfold exchange_val. keeps_mem_tac. Qed.

#[local] Hint Resolve keeps_mem_exchange_buff keeps_mem_exchange_val
  : keeps_mem.

Lemma keeps_mem_wait_for_response : keeps_mem (wait_for_response exchange).
Proof.
  unfold wait_for_response. apply keeps_mem_loop. intros [d timeout].
  unfold wait_for_response_body. keeps_mem_tac.
Qed.

#[local] Hint Resolve keeps_mem_wait_for_response : keeps_mem.

Lemma keeps_mem_send_command (cd : cmd_desc) :
  keeps_mem (send_command exchange cd).
Proof.
  assert (Hf : forall cd, keeps_mem (send_command_frame exchange cd)).
  { intros cd'. unfold send_command_frame. keeps_mem_tac. }
  assert (Hb : forall self cd,
             (forall cd', keeps_mem (self cd')) ->
             keeps_mem (send_command_body exchange self cd)).
  { intros self cd' Hself. unfold send_command_body. keeps_mem_tac. }
  unfold send_command. apply Hb. intros cd'. apply Hb.
  intros cd'' st. reflexivity.
Qed.

(** What the first turn of a loop does, when the loop ends well. *)
Lemma loop_pow_first {S R} (body : S -> M (step S R)) :
  (forall s, safe (body s)) ->
  forall k s st x st',
    loop_pow k body s st = (Ok x, st') ->
    body s st = (Ok x, st')
    \/ exists s1 st1, body s st = (Ok (Continue s1), st1) /\ extends st1 st'.
Proof.
  intros Hbody. induction k as [|k IH]; intros s st x st' H; [now left|].
  cbn [loop_pow] in H.
  destruct (loop_pow k body s st) as [[[s1|r]| |] st1] eqn:E;
    try discriminate.
  - right. destruct (IH s st _ _ E) as [H1 | (s2 & st2 & H2 & He2)].
    + exists s1, st1. split; [exact H1|].
      destruct (IH s1 st1 _ _ H) as [H3 | (s3 & st3 & H3 & He3)].
      * pose proof (proj2 (Hbody s1 st1)) as He. now rewrite H3 in He.
      * eapply extends_trans; [| exact He3].
        pose proof (proj2 (Hbody s1 st1)) as He. now rewrite H3 in He.
    + exists s2, st2. split; [exact H2|].
      eapply extends_trans; [exact He2|].
      destruct (IH s1 st1 _ _ H) as [H3 | (s3 & st3 & H3 & He3)].
      * pose proof (proj2 (Hbody s1 st1)) as He. now rewrite H3 in He.
      * eapply extends_trans; [| exact He3].
        pose proof (proj2 (Hbody s1 st1)) as He. now rewrite H3 in He.
  - inversion H; subst. apply IH. exact E.
Qed.

Lemma loop_first {S R} (body : S -> M (step S R)) (k : nat) (s : S)
    (st st' : state) (r : R) :
  (forall s, safe (body s)) ->
  loop k body s st = (Ok r, st') ->
  body s st = (Ok (Break r), st')
  \/ exists s1 st1, body s st = (Ok (Continue s1), st1) /\ extends st1 st'.
Proof.
  intros Hbody H. unfold loop in H. apply bind_Ok in H.
  destruct H as ([s'|r'] & st1 & H1 & H); [discriminate|].
  injection H as -> ->. now apply (loop_pow_first body Hbody k).
Qed.

(** The bytes of a request that go to its first block. *)
Lemma first_block_copy (address len : Z) :
  0 <= address -> 0 < len -> address + len <= 2 ^ 40 ->
  buff_first_idx address 0 = address mod 512
  /\ buff_copy_len address len (get_nb_of_blocks address len) 0
     = Z.min len (512 - address mod 512).
Proof.
  intros Ha Hl Hb. unfold buff_copy_len, buff_first_idx.
  change (0 =? 0) with true. cbv iota.
  rewrite get_nb_of_blocks_in_bounds by lia.
  rewrite land_addr_in_block.
  assert (Hfi : u16 (address mod 512) = address mod 512).
  { apply Z.mod_small. Z.div_mod_to_equations. lia. }
  rewrite Hfi. split; [reflexivity|].
  rewrite (u64_small (address + len)) by lia.
  rewrite (u64_small (address + len - 1)) by lia.
  rewrite land_addr_in_block. unfold nblocks, DATA_BLOCK_LEN.
  assert (Hn : 0 <= (address + len - 1) / 512 - address / 512 < 2 ^ 31)
    by (Z.div_mod_to_equations; lia).
  replace ((address + len - 1) / 512 - address / 512 + 1 - 1)
    with ((address + len - 1) / 512 - address / 512) by lia.
  rewrite (u32_small (_ - _)) by lia.
  destruct (Z.eqb_spec 0 ((address + len - 1) / 512 - address / 512))
    as [E | E].
  - assert (Hd : (address + len - 1) mod 512 - address mod 512 + 1 = len)
      by (Z.div_mod_to_equations; lia).
    assert (Hr : 0 <= (address + len - 1) mod 512 - address mod 512 < 512)
      by (Z.div_mod_to_equations; lia).
    rewrite (u64_small (_ - _)) by lia. rewrite u64_small by lia.
    unfold u16. rewrite Z.mod_small by lia.
    Z.div_mod_to_equations. lia.
  - rewrite u32_small by (Z.div_mod_to_equations; lia).
    unfold u16. rewrite Z.mod_small by (Z.div_mod_to_equations; lia).
    Z.div_mod_to_equations. lia.
Qed.

Lemma run_keeps_mem {A} (m : M A) (st st' : state) (o : outcome A) :
  keeps_mem m -> m st = (o, st') -> mem st' = mem st.
Proof. intros Hm H. specialize (Hm st). now rewrite H in Hm. Qed.

Lemma run_extends {A} (m : M A) (st st' : state) (o : outcome A) :
  safe m -> m st = (o, st') -> extends st st'.
Proof. intros Hm H. destruct (Hm st) as [_ He]. now rewrite H in He. Qed.

Lemma extends_trace (st st' : state) :
  extends st st' -> exists t, trace st' = trace st ++ t.
Proof. now intros (_ & _ & H). Qed.

Lemma buf_id_eqb_refl (b : buf_id) : buf_id_eqb b b = true.
Proof. destruct b; cbn; [reflexivity .. | apply Nat.eqb_refl]. Qed.

Lemma memcpy_ok (dst src : ptr) (n : Z) (st st' : state) (a : unit) :
  memcpy dst src n st = (Ok a, st') ->
  mem st' (base dst)
    = blit (mem st (base dst)) (offset dst)
           (slice (mem st (base src)) (offset src) n)
  /\ trace st' = trace st.
Proof.
  unfold memcpy, bind, get_mem, set_mem. intros H. injection H as _ <-.
  cbn [mem trace]. now rewrite buf_id_eqb_refl.
Qed.

Lemma exchange_mem_ok (p : ptr) (n : Z) (st st' : state) (a : unit) :
  exchange_mem exchange p n st = (Ok a, st') ->
  exists e, trace st' = trace st ++ [e]
            /\ x_tx e = slice (mem st (base p)) (offset p) n.
Proof.
  unfold exchange_mem, bind, get_mem, spi_write_and_read, set_mem.
  destruct (exchange _ _ _) as [[ok rx] p']. cbn [fst snd].
  destruct ok; [| discriminate]. unfold ret. intros H. injection H as _ <-.
  cbn [trace]. eexists. split; reflexivity.
Qed.

(** A block write that ends well has sent the 512 bytes at [data]. *)
Lemma write_block_ok (data : ptr) (nb : Z) (st st' : state) (a : unit) :
  write_block exchange data nb st = (Ok a, st') ->
  exists t1 e t2,
    trace st' = trace st ++ t1 ++ e :: t2
    /\ x_tx e = slice (mem st (base data)) (offset data) DATA_BLOCK_LEN.
Proof.
  intros H. unfold write_block in H.
  apply bind_Ok in H. destruct H as (b & s1 & H1 & H).
  apply bind_Ok in H. destruct H as ([] & s2 & H2 & H).
  apply bind_Ok in H. destruct H as ([] & s3 & H3 & H).
  apply bind_Ok in H. destruct H as ([] & s4 & H4 & H).
  apply bind_Ok in H. destruct H as ([] & s5 & H5 & H).
  assert (Hm : mem s4 = mem st).
  { rewrite (run_keeps_mem _ _ _ _ (keeps_mem_exchange_buff 1) H4).
    assert (Hif : mem s3 = mem s2).
    { eapply run_keeps_mem; [| exact H3]. keeps_mem_tac. }
    rewrite Hif.
    rewrite (run_keeps_mem _ _ _ _ (keeps_mem_set_buff _) H2).
    exact (run_keeps_mem _ _ _ _ keeps_mem_get_buff H1). }
  assert (He : extends st s4).
  { eapply extends_trans; [exact (run_extends _ _ _ _ safe_get_buff H1)|].
    eapply extends_trans; [exact (run_extends _ _ _ _ (safe_set_buff _) H2)|].
    eapply extends_trans; [| exact (run_extends _ _ _ _
                                      (safe_exchange_buff 1) H4)].
    eapply run_extends; [| exact H3]. safe_tac. }
  assert (He' : extends s5 st').
  { eapply run_extends; [| exact H]. safe_tac. }
  apply exchange_mem_ok in H5. destruct H5 as (e & Ht & Hx).
  apply extends_trace in He, He'.
  destruct He as [t1 Ht1], He' as [t2 Ht2].
  exists t1, e, t2. split.
  - rewrite Ht2, Ht, Ht1, <- !app_assoc. reflexivity.
  - now rewrite Hx, Hm.
Qed.

Lemma write_multiple_blocks_loop (data : ptr) (addr len : Z)
    (first_block last_block : ptr) :
  write_multiple_blocks exchange data addr len first_block last_block
  = loop 32 (write_multiple_blocks_body exchange data addr len
               first_block last_block) (0, 0).
Proof. reflexivity. Qed.

(** When the first block is not written in full, a write that ends well has
    sent, after its command, the scratch block [first_block] with the
    caller's bytes copied in at [address mod 512]. *)
Lemma sd_write_commit_first_block (p : ptr) (address len : Z)
    (st2 st' : state) :
  0 <= address -> 0 < len -> address + len <= 2 ^ 40 ->
  head_read_needed address len ->
  sd_write_commit exchange p address len st2 = (Ok tt, st') ->
  exists t1 e t2,
    trace st' = trace st2 ++ t1 ++ e :: t2
    /\ x_tx e =
       slice (blit (mem st2 Stack_first_block) (address mod 512)
                   (slice (mem st2 (base p)) (offset p)
                          (Z.min len (512 - address mod 512))))
             0 512.
Proof.
  intros Ha Hl Hb Hhead H.
  destruct (first_block_copy address len Ha Hl Hb) as [Hfi Hcl].
  unfold sd_write_commit in H.
  rewrite write_multiple_blocks_loop in H.
  inv_bind H. inv_if H. inv_bind H.
  rename st into sA, st0 into sB.
  assert (HeA : extends st2 sA)
    by (eapply run_extends; [apply safe_send_command | exact H0]).
  assert (HmA : mem sA = mem st2)
    by (eapply run_keeps_mem; [apply keeps_mem_send_command | exact H0]).
  assert (HeB : extends sB st').
  { eapply run_extends; [| exact H]. safe_tac. }
  clear H H0 E.
  apply loop_first in H1;
    [| intros [i idx]; unfold write_multiple_blocks_body; safe_tac].
  rename H1 into H. destruct a0.
  assert (Hnb : (0 <? get_nb_of_blocks address len) = true).
  { rewrite get_nb_of_blocks_in_bounds by lia. unfold nblocks.
    apply Z.ltb_lt. Z.div_mod_to_equations. lia. }
  destruct H as [H | (s1 & st1 & H & He1)];
    unfold write_multiple_blocks_body in H; rewrite Hnb in H;
    cbn [negb] in H; inv_bind H; [discriminate|].
  inversion H; subst; clear H.
  rewrite Hfi, Hcl in H0.
  assert (Hc : (address mod 512 =? 0)
               && (Z.min len (512 - address mod 512) =? DATA_BLOCK_LEN)
               = false).
  { apply andb_false_iff.
    destruct (Z.eqb_spec (address mod 512) 0) as [E0 | E0]; [right | now left].
    apply Z.eqb_neq. unfold DATA_BLOCK_LEN. intros Hmin.
    destruct Hhead as [Hh | Hh]; [contradiction|]. apply Hh.
    unfold first_block_written_in_full. Z.div_mod_to_equations. lia. }
  rewrite Hc in H0. change (0 =? 0) with true in H0. cbv iota in H0.
  inv_bind H0.
  apply memcpy_ok in H. unfold ptr_add in H. cbn [base offset] in H.
  rewrite Z.add_0_l, Z.add_0_r, HmA in H. destruct H as [Hmem HtM].
  apply write_block_ok in H0. cbn [base offset] in H0.
  destruct H0 as (t1 & e & t2 & Ht & Hx).
  apply extends_trace in HeA, He1, HeB.
  destruct HeA as [tA HtA], He1 as [tB HtB], HeB as [tC HtC].
  exists (tA ++ t1), e, (t2 ++ tB ++ tC). split.
  - rewrite HtC, HtB, Ht, HtM, HtA. repeat rewrite <- app_assoc.
    reflexivity.
  - rewrite Hx, Hmem. unfold DATA_BLOCK_LEN. reflexivity.
Qed.

(** ** The claims about [sd_read] and [sd_write] *)

(** A call that the initial checks let through reaches the byte pipe. *)
Lemma sd_read_reaches_pipe (p : ptr) (address len : Z) (st : state) :
  initial_checks (sd st) (Some p) address len = false ->
  (length (trace st)
   < length (trace (snd (sd_read exchange (Some p) address len st))))%nat.
Proof.
  intros H. destruct (sd_read_first p address len st H) as (e & t & Ht & _).
  rewrite Ht, length_app. cbn [length]. lia.
Qed.

Lemma sd_write_reaches_pipe (p : ptr) (address len : Z) (st : state) :
  initial_checks (sd st) (Some p) address len = false ->
  (length (trace st)
   < length (trace (snd (sd_write exchange (Some p) address len st))))%nat.
Proof.
  intros H. rewrite sd_write_run by assumption.
  destruct (safe_sd_write_read_back address len st) as [_ (_ & _ & t1 & Ht1)].
  destruct (sd_write_commit_first p address len
              (snd (sd_write_read_back exchange address len st)))
    as (e & t & Ht & _).
  rewrite Ht, Ht1, !length_app. cbn [length]. lia.
Qed.

(** C3: on a session, a read or a write whose data pointer is null or whose
    range ends beyond [memory_size] returns NO_OS_FAILURE with the machine
    state untouched, so before any exchange on the byte pipe; and when the
    range ends within [memory_size] the initial checks let the call
    through: it goes on to the byte pipe. *)
Theorem bounds_checked_before_any_exchange (data : option ptr)
    (address len : Z) (st : state) :
  session exchange (sd st) ->
  0 <= address < 2 ^ 64 -> 0 <= len < 2 ^ 64 ->
  (data = None \/ address + len > memory_size (sd st) ->
   sd_read exchange data address len st = (Err, st)
   /\ sd_write exchange data address len st = (Err, st))
  /\
  (address + len <= memory_size (sd st) ->
   forall p,
     initial_checks (sd st) (Some p) address len = false
     /\ (length (trace st)
         < length (trace (snd (sd_read exchange (Some p) address len st))))%nat
     /\ (length (trace st)
         < length (trace (snd (sd_write exchange (Some p) address len st))))%nat).
Proof.
  intros Hs Ha Hl. destruct (session_memory_size _ Hs) as [_ Hms]. split.
  - intros H.
    assert (Hc : initial_checks (sd st) data address len = true)
      by (apply initial_checks_out_of_bounds; try assumption; lia).
    split; [now apply sd_read_rejected | now apply sd_write_rejected].
  - intros H p.
    assert (Hc : initial_checks (sd st) (Some p) address len = false)
      by (apply initial_checks_in_bounds; lia).
    split; [exact Hc | split].
    + now apply sd_read_reaches_pipe.
    + now apply sd_write_reaches_pipe.
Qed.

(** C4: on a session, for a request within bounds with [len > 0], the block
    count of the code is [nblocks]; the first exchange of [sd_read] is the
    command exchange of CMD17 when [nblocks] is 1 and of CMD18 otherwise;
    the first exchange of [sd_write] after its read-backs is the command
    exchange of CMD24 when [nblocks] is 1 and of CMD25 otherwise; the
    argument is [address >> 9] each time. *)
Theorem data_command_and_block_index (p : ptr) (address len : Z)
    (st : state) :
  session exchange (sd st) ->
  0 <= address -> 0 < len -> address + len <= memory_size (sd st) ->
  get_nb_of_blocks address len = nblocks address len
  /\
  (exists e t,
     trace (snd (sd_read exchange (Some p) address len st))
       = trace st ++ e :: t
     /\ x_tx e = command_exchange (if nblocks address len =? 1 then 17 else 18)
                                  (Z.shiftr address 9) 0xFF)
  /\
  (exists e t,
     trace (snd (sd_write exchange (Some p) address len st))
       = trace (snd (sd_write_read_back exchange address len st)) ++ e :: t
     /\ x_tx e = command_exchange (if nblocks address len =? 1 then 24 else 25)
                                  (Z.shiftr address 9) 0xFF).
Proof.
  intros Hs Ha Hl Hb. destruct (session_memory_size _ Hs) as [_ Hms].
  split; [apply get_nb_of_blocks_in_bounds; lia | split].
  - destruct (sd_read_first p address len st) as (e & t & Ht & He).
    { apply initial_checks_in_bounds; lia. }
    exists e, t. split; [exact Ht|]. rewrite He. apply data_frame; lia.
  - destruct (sd_write_in_bounds p address len st Hs Ha Hl Hb)
      as (st1 & st2 & e & t & _ & _ & Hrb & Ht & He).
    exists e, t. rewrite Hrb. split; assumption.
Qed.

(** C10: whatever [sd_read] and [sd_write] do and return, the descriptor
    they leave has the [spi_desc] and the [memory_size] it had; of its
    fields only the scratch buffer may differ. *)
Theorem descriptor_frame (data : option ptr) (address len : Z) (st : state) :
  sd (snd (sd_read exchange data address len st))
    = Sd_desc (spi_desc (sd st)) (memory_size (sd st))
              (buff (sd (snd (sd_read exchange data address len st))))
  /\
  sd (snd (sd_write exchange data address len st))
    = Sd_desc (spi_desc (sd st)) (memory_size (sd st))
              (buff (sd (snd (sd_write exchange data address len st)))).
Proof.
  split.
  - destruct (safe_sd_read data address len st) as [_ (H1 & H2 & _)].
    rewrite <- H1, <- H2. now destruct (sd (snd _)).
  - destruct (safe_sd_write data address len st) as [_ (H1 & H2 & _)].
    rewrite <- H1, <- H2. now destruct (sd (snd _)).
Qed.

(** C8: both polling loops end for every byte pipe.  [wait_for_response]
    and [wait_until_not_busy] never use up the fuel of the model; each
    exchanges one idle byte at least once and at most [2 ^ 25] times, and
    either returns success on a successful exchange that brought a byte
    other than 0xFF (the byte it hands back), respectively other than
    0x00, or returns failure on a failed exchange or on exchange number
    [2 ^ 25]. *)
Theorem polling_loops_terminate (st : state) :
  bounded_wait 0xFF (fun a b => a = b) (trace st)
    (fst (wait_for_response exchange st))
    (trace (snd (wait_for_response exchange st)))
  /\
  bounded_wait 0x00 (fun _ _ => True) (trace st)
    (fst (wait_until_not_busy exchange st))
    (trace (snd (wait_until_not_busy exchange st))).
Proof.
  split; [apply wait_for_response_bounded | apply wait_until_not_busy_bounded].
Qed.

(** * Further properties *)

(** ** Relations that every step of the driver keeps

    A relation [G st b st'] between the state before, whether the
    computation went on ([b = true]) or stopped, and the state after.  When
    it holds of the primitives and composes, it holds of every function built
    from them. *)

Lemma slice_length_le (b : list Z) (off n : Z) :
  (length (slice b off n) <= Z.to_nat n)%nat.
Proof. unfold slice. rewrite length_firstn. lia. Qed.

(** A command that ends well hands back its descriptor with the response
    filled in and nothing else changed. *)
Lemma send_command_frame_fields (cd cd' : cmd_desc) (st st' : state) :
  send_command_frame exchange cd st = (Ok cd', st') ->
  exists r, cd' = set_response cd r.
Proof.
  intros H. unfold send_command_frame in H.
  inv_bind H. inv_bind H. inv_bind H. inv_bind H.
  destruct (0 <? u32 (response_len cd - 1)).
  - inv_bind H. injection H as <- _. eexists. reflexivity.
  - injection H as <- _. eexists. reflexivity.
Qed.

Lemma send_command_fields (cd cd' : cmd_desc) (st st' : state) :
  send_command exchange cd st = (Ok cd', st') ->
  exists r, cd' = set_response cd r.
Proof.
  intros H. unfold send_command, send_command_body in H.
  inv_bind H. now apply send_command_frame_fields in H.
Qed.

Section Follows.

Variable G : state -> bool -> state -> Prop.
Variable Ptx : list Z -> Prop.
Variable Pmem : buf_id -> Prop.

Hypothesis G_refl : forall st b, G st b st.
Hypothesis G_trans : forall a b c f, G a true b -> G b f c -> G a f c.
Hypothesis G_sd :
  forall st d, G st true (State d (mem st) (pipe st) (trace st)).

Definition follows {A} (m : M A) : Prop :=
  forall st, G st (is_ok (fst (m st))) (snd (m st)).

Hypothesis G_set_mem :
  forall b v, Pmem b -> follows (@set_mem spi pipe_t b v).
Hypothesis G_exchange_val :
  forall tx, Ptx tx -> follows (exchange_val exchange tx).
Hypothesis G_exchange_buff :
  forall n, (forall b, Ptx (slice b 0 n)) ->
            follows (exchange_buff exchange n).
Hypothesis G_exchange_mem :
  forall p n, Pmem (base p) -> (forall b, Ptx (slice b (offset p) n)) ->
              follows (exchange_mem exchange p n).
Hypothesis Ptx_short : forall tx, (length tx <= 18)%nat -> Ptx tx.

Lemma follows_ret {A} (a : A) : follows (ret a).
Proof. intros st. apply G_refl. Qed.

Lemma follows_fail {A} : follows (@fail spi pipe_t A).
Proof. intros st. apply G_refl. Qed.

Lemma follows_out_of_fuel {A} : follows (@out_of_fuel spi pipe_t A).
Proof. intros st. apply G_refl. Qed.

Lemma follows_bind {A B} (m : M A) (f : A -> M B) :
  follows m -> (forall a, follows (f a)) -> follows (bind m f).
Proof.
  intros Hm Hf st. unfold bind. specialize (Hm st).
  destruct (m st) as [[a| |] st1]; cbn [fst snd is_ok] in *;
    try assumption.
  eapply G_trans; [exact Hm | apply Hf].
Qed.

Lemma follows_if {A} (b : bool) (m1 m2 : M A) :
  follows m1 -> follows m2 -> follows (if b then m1 else m2).
Proof. now destruct b. Qed.

Lemma follows_get_sd : follows (@get_sd spi pipe_t).
Proof. intros st. apply G_refl. Qed.

Lemma follows_get_buff : follows (@get_buff spi pipe_t).
Proof. intros st. apply G_refl. Qed.

Lemma follows_get_mem (b : buf_id) : follows (@get_mem spi pipe_t b).
Proof. intros st. apply G_refl. Qed.

Lemma follows_set_buff (b : list Z) : follows (@set_buff spi pipe_t b).
Proof. intros st. apply G_sd. Qed.

Lemma follows_set_memory_size (n : Z) :
  follows (@set_memory_size spi pipe_t n).
Proof. intros st. apply G_sd. Qed.

Lemma follows_alloc_sd_desc (param : sd_init_param spi) :
  follows (@alloc_sd_desc spi pipe_t param).
Proof. intros st. apply G_sd. Qed.

Lemma follows_loop_pow {S R} (body : S -> M (step S R)) :
  (forall s, follows (body s)) ->
  forall k s, follows (loop_pow k body s).
Proof.
  intros Hbody. induction k as [|k IH]; intros s st; [apply Hbody|].
  cbn [loop_pow]. pose proof (IH s st) as H1.
  destruct (loop_pow k body s st) as [[[s1|r]| |] st1];
    cbn [fst snd is_ok] in *; try assumption.
  eapply G_trans; [exact H1 | apply IH].
Qed.

Lemma follows_loop {S R} (body : S -> M (step S R)) (k : nat) (s : S) :
  (forall s, follows (body s)) -> follows (loop k body s).
Proof.
  intros Hbody. unfold loop. apply follows_bind.
  - now apply follows_loop_pow.
  - intros [s'|r]; [apply follows_out_of_fuel | apply follows_ret].
Qed.

Lemma follows_loop_inv {S R} (body : S -> M (step S R)) (I : S -> Prop)
    (k : nat) (s : S) :
  (forall s, I s -> follows (body s)) ->
  (forall s st s' st', I s -> body s st = (Ok (Continue s'), st') -> I s') ->
  I s -> follows (loop k body s).
Proof.
  intros Hbody Hstep HI.
  assert (Hpow : forall k s st, I s ->
            G st (is_ok (fst (loop_pow k body s st)))
              (snd (loop_pow k body s st))
            /\ forall s' st', loop_pow k body s st = (Ok (Continue s'), st')
                              -> I s').
  { clear k s HI. induction k as [|k IH]; intros s st HI.
    - split; [now apply Hbody | intros s' st' H; now apply (Hstep s st s' st')].
    - cbn [loop_pow]. destruct (IH s st HI) as [H1 H2].
      destruct (loop_pow k body s st) as [[[s1|r]| |] st1];
        cbn [fst snd is_ok] in *;
        try (split; [assumption | intros; discriminate]).
      specialize (H2 s1 st1 eq_refl). destruct (IH s1 st1 H2) as [H3 H4].
      split; [exact (G_trans _ _ _ _ H1 H3) | exact H4]. }
  intros st. unfold loop, bind, ret, out_of_fuel.
  destruct (Hpow k s st HI) as [H1 _].
  destruct (loop_pow k body s st) as [[[s1|r]| |] st1];
    cbn [fst snd is_ok] in *; try assumption.
  exact (G_trans _ _ _ _ H1 (G_refl _ _)).
Qed.

Lemma follows_discard (m : M unit) :
  (forall a b, G a false b -> G a true b) ->
  follows m -> follows (discard m).
Proof.
  intros Hw Hm st. unfold discard. specialize (Hm st).
  destruct (m st) as [[a| |] st1]; cbn [fst snd is_ok] in *;
    auto.
Qed.

Create HintDb follows.
#[local] Hint Resolve follows_ret follows_fail follows_out_of_fuel
  follows_get_sd follows_get_buff follows_get_mem follows_set_buff
  follows_set_memory_size follows_alloc_sd_desc : follows.

Ltac follows_step :=
  lazymatch goal with
  | |- follows (bind _ _) => apply follows_bind; [| intros ?]
  | |- follows (if _ then _ else _) => apply follows_if
  | |- follows (match ?x with Some _ => _ | None => _ end) => destruct x
  | |- follows (let '(_, _) := ?x in _) => destruct x
  | |- _ => solve [auto with follows]
  end.

Ltac follows_tac := repeat follows_step.

Lemma Ptx_slice (b : list Z) (off n : Z) : n <= 18 -> Ptx (slice b off n).
Proof.
  intros Hn. apply Ptx_short. pose proof (slice_length_le b off n). lia.
Qed.

Lemma follows_exchange_short (n : Z) :
  n <= 18 -> follows (exchange_buff exchange n).
Proof. intros Hn. apply G_exchange_buff. intros b. now apply Ptx_slice. Qed.

Lemma follows_exchange_byte (d : Z) : follows (exchange_val exchange [d]).
Proof. apply G_exchange_val, Ptx_short. cbn. lia. Qed.

#[local] Hint Resolve follows_exchange_byte : follows.

Lemma follows_wait_for_response : follows (wait_for_response exchange).
Proof.
  unfold wait_for_response. apply follows_loop. intros [d timeout].
  unfold wait_for_response_body. follows_tac.
Qed.

Lemma follows_wait_until_not_busy : follows (wait_until_not_busy exchange).
Proof.
  unfold wait_until_not_busy. apply follows_loop. intros [d timeout].
  unfold wait_until_not_busy_body. follows_tac.
Qed.

#[local] Hint Resolve follows_wait_for_response follows_wait_until_not_busy
  : follows.

Lemma follows_set_buff_crc : follows (@set_buff_crc spi pipe_t).
Proof. unfold set_buff_crc. follows_tac. Qed.

#[local] Hint Resolve follows_set_buff_crc : follows.

(** The response of the driver's commands is one byte or five. *)
Definition short_response (cd : cmd_desc) : Prop :=
  0 <= u32 (response_len cd - 1) <= 18.

Lemma follows_send_command_frame (cd : cmd_desc) :
  short_response cd -> follows (send_command_frame exchange cd).
Proof.
  intros Hr. unfold send_command_frame. follows_tac.
  - apply follows_exchange_short. unfold CMD_LEN. lia.
  - apply G_exchange_val, Ptx_short. rewrite repeat_length.
    unfold short_response in Hr. lia.
Qed.

Lemma follows_send_command (cd : cmd_desc) :
  short_response cd -> follows (send_command exchange cd).
Proof.
  intros Hr. unfold send_command, send_command_body.
  apply follows_bind; [| intros ?; now apply follows_send_command_frame].
  apply follows_if; [| apply follows_ret].
  apply follows_bind; [| intros ?; follows_tac].
  apply follows_bind; [follows_tac | intros ?].
  apply follows_send_command_frame. unfold short_response. cbn. lia.
Qed.

Lemma short_response_R1 (c a : Z) (r : list Z) :
  short_response (Cmd_desc c a r R1_LEN).
Proof. unfold short_response. cbn. lia. Qed.

Lemma short_response_R3 (c a : Z) (r : list Z) :
  short_response (Cmd_desc c a r R3_LEN).
Proof. unfold short_response. cbn. lia. Qed.

Lemma follows_sd_init (fuel : nat) (nn : bool)
    (param : option (sd_init_param spi)) (c : bool) :
  follows (sd_init exchange fuel nn param c).
Proof.
  unfold sd_init. destruct param as [param|]; [| apply follows_fail].
  apply follows_if; [apply follows_fail |].
  apply follows_if; [apply follows_fail |].
  apply follows_bind; [follows_tac | intros _].
  apply follows_bind; [follows_tac | intros b].
  apply follows_bind; [follows_tac | intros _].
  apply follows_bind; [apply follows_exchange_short; lia | intros _].
  apply follows_bind; [| intros cd0].
  { apply follows_loop_inv with (I := fun s => response_len (fst s) = R1_LEN).
    - intros [cd i] Hcd. cbn [fst] in Hcd. unfold sd_init_cmd0_body.
      apply follows_bind; [| intros ?; follows_tac].
      apply follows_send_command. unfold short_response. rewrite Hcd.
      cbn. lia.
    - intros [cd i] st [cd' i'] st' Hcd H. cbn [fst] in *.
      unfold sd_init_cmd0_body in H. inv_bind H.
      apply send_command_fields in H0. destruct H0 as [r ->].
      destruct (load _ 0 =? R1_IDLE_STATE); [discriminate|].
      destruct (u32 (i + 1) =? CMD0_RETRY_NUMBER); [discriminate|].
      injection H as <- _ _. exact Hcd.
    - reflexivity. }
  apply follows_bind;
    [apply follows_send_command, short_response_R3 | intros cd8].
  apply follows_if; [apply follows_fail |].
  apply follows_bind; [| intros cd41].
  { apply follows_loop_inv with (I := fun cd => response_len cd = R1_LEN).
    - intros cd Hcd. unfold sd_init_acmd41_body.
      apply follows_bind; [| intros ?; follows_tac].
      apply follows_send_command. unfold short_response. rewrite Hcd.
      cbn. lia.
    - intros cd st cd' st' Hcd H.
      unfold sd_init_acmd41_body in H. inv_bind H.
      apply send_command_fields in H0. destruct H0 as [r ->].
      destruct (load _ 0 =? R1_READY_STATE); [discriminate|].
      injection H as <- _. exact Hcd.
    - reflexivity. }
  apply follows_bind;
    [apply follows_send_command, short_response_R3 | intros cd58].
  apply follows_if; [apply follows_fail |].
  apply follows_bind;
    [apply follows_send_command, short_response_R1 | intros cd9].
  apply follows_bind; [follows_tac | intros r0].
  apply follows_if; [apply follows_fail |].
  apply follows_bind; [follows_tac | intros b'].
  apply follows_bind; [follows_tac | intros _].
  apply follows_bind;
    [apply follows_exchange_short; unfold CSD_LEN; lia | intros _].
  follows_tac.
Qed.

(** The functions that move blocks, when every exchange and the buffers
    they are handed are allowed. *)
Hypothesis Ptx_all : forall tx, Ptx tx.

Lemma follows_exchange_mem (p : ptr) (n : Z) :
  Pmem (base p) -> follows (exchange_mem exchange p n).
Proof. intros Hp. apply G_exchange_mem; [exact Hp | intros; apply Ptx_all]. Qed.

Lemma follows_exchange_buff (n : Z) : follows (exchange_buff exchange n).
Proof. apply G_exchange_buff. intros; apply Ptx_all. Qed.

Lemma follows_memcpy (dst src : ptr) (n : Z) :
  Pmem (base dst) -> follows (@memcpy spi pipe_t dst src n).
Proof. intros Hp. unfold memcpy. follows_tac. Qed.

Lemma follows_write_block (data : ptr) (nb : Z) :
  Pmem (base data) -> follows (write_block exchange data nb).
Proof.
  intros Hp. unfold write_block.
  repeat first
    [ apply follows_exchange_buff
    | apply follows_exchange_mem; exact Hp
    | follows_step ].
Qed.

Lemma follows_read_block (data : ptr) :
  Pmem (base data) -> follows (read_block exchange data).
Proof.
  intros Hp. unfold read_block.
  repeat first
    [ apply follows_exchange_buff
    | apply follows_exchange_mem; exact Hp
    | apply G_set_mem; exact Hp
    | follows_step ].
Qed.

Lemma follows_send_command_R1 (c a : Z) (r : list Z) :
  follows (send_command exchange (Cmd_desc c a r R1_LEN)).
Proof. apply follows_send_command, short_response_R1. Qed.

Lemma follows_read_multiple_blocks (data : ptr) (addr len : Z) :
  Pmem (base data) -> Pmem Stack_buff ->
  follows (read_multiple_blocks exchange data addr len).
Proof.
  intros Hp Hb. unfold read_multiple_blocks. apply follows_loop.
  intros [i idx]. unfold read_multiple_blocks_body.
  repeat first
    [ apply follows_read_block; assumption
    | apply follows_memcpy; assumption
    | follows_step ].
Qed.

Lemma follows_write_multiple_blocks (data : ptr) (addr len : Z)
    (first_block last_block : ptr) :
  Pmem (base data) -> Pmem (base first_block) -> Pmem (base last_block) ->
  follows (write_multiple_blocks exchange data addr len
             first_block last_block).
Proof.
  intros Hp Hf Hl. unfold write_multiple_blocks. apply follows_loop.
  intros [i idx]. unfold write_multiple_blocks_body.
  repeat first
    [ apply follows_write_block; assumption
    | apply follows_memcpy; assumption
    | follows_step ].
Qed.

Lemma follows_sd_read (data : option ptr) (address len : Z) :
  (forall p, data = Some p -> Pmem (base p)) -> Pmem Stack_buff ->
  follows (sd_read exchange data address len).
Proof.
  intros Hp Hb. unfold sd_read.
  apply follows_bind; [follows_tac | intros d].
  destruct data as [p|]; [| apply follows_fail].
  specialize (Hp p eq_refl).
  repeat first
    [ apply follows_send_command_R1
    | apply follows_read_multiple_blocks; assumption
    | follows_step ].
Qed.

Lemma follows_sd_write_commit (data : ptr) (address len : Z) :
  Pmem (base data) -> Pmem Stack_first_block -> Pmem Stack_last_block ->
  follows (sd_write_commit exchange data address len).
Proof.
  intros Hp Hf Hl. unfold sd_write_commit.
  repeat first
    [ apply follows_send_command_R1
    | apply follows_write_multiple_blocks; assumption
    | apply follows_exchange_buff
    | follows_step ].
Qed.

Lemma follows_sd_write (data : option ptr) (address len : Z) :
  (forall a b, G a false b -> G a true b) ->
  (forall p, data = Some p -> Pmem (base p)) ->
  Pmem Stack_first_block -> Pmem Stack_last_block -> Pmem Stack_buff ->
  follows (sd_write exchange data address len).
Proof.
  intros Hw Hp Hf Hl Hb. unfold sd_write.
  apply follows_bind; [follows_tac | intros d].
  destruct data as [p|]; [| apply follows_fail].
  specialize (Hp p eq_refl).
  apply follows_if; [apply follows_fail |].
  apply follows_bind; [| intros _; now apply follows_sd_write_commit].
  unfold sd_write_read_back.
  repeat first
    [ apply follows_discard; [exact Hw |]
    | apply follows_sd_read; [intros q Hq; injection Hq as <-; assumption
                             | assumption]
    | follows_step ].
Qed.

End Follows.

(** ** A failed exchange ends the call *)

Lemma stops_same_log (st st' : state) (b : bool) :
  trace st' = trace st -> stops_at_first_failure st b st'.
Proof.
  intros H. exists []. rewrite app_nil_r. repeat split; auto; constructor.
Qed.

Lemma stops_refl (st : state) (b : bool) : stops_at_first_failure st b st.
Proof. now apply stops_same_log. Qed.

Lemma removelast_sub (P : xfer -> Prop) (t : list xfer) :
  Forall P t -> Forall P (removelast t).
Proof.
  induction 1 as [|x t Hx Ht IH]; [constructor|].
  cbn [removelast]. destruct t; [constructor|]. constructor; assumption.
Qed.

Lemma stops_trans (a b c : state) (f : bool) :
  stops_at_first_failure a true b -> stops_at_first_failure b f c ->
  stops_at_first_failure a f c.
Proof.
  intros (t1 & H1 & _ & Hall1) (t2 & H2 & Hinit & Hall2).
  specialize (Hall1 eq_refl).
  exists (t1 ++ t2). split; [now rewrite H2, H1, app_assoc|]. split.
  - destruct t2 as [|e t2].
    + rewrite app_nil_r. now apply removelast_sub.
    + rewrite removelast_app by discriminate.
      apply Forall_app. split; assumption.
  - intros Hf. apply Forall_app. split; [assumption | now apply Hall2].
Qed.

Lemma stops_one (st st' : state) (e : xfer) :
  trace st' = trace st ++ [e] ->
  stops_at_first_failure st (x_ok e) st'.
Proof.
  intros H. exists [e]. split; [exact H|]. split; [constructor|].
  intros He. constructor; [exact He | constructor].
Qed.

Ltac stops_one_tac :=
  match goal with
  | |- stops_at_first_failure _ _ (State _ _ _ (_ ++ [?e])) =>
      apply (stops_one _ _ e); reflexivity
  end.

Lemma stops_exchange_val (tx : list Z) (st : state) :
  stops_at_first_failure st (is_ok (fst (exchange_val exchange tx st)))
    (snd (exchange_val exchange tx st)).
Proof.
  rewrite exchange_val_run. cbv zeta. cbn [fst snd].
  destruct (exchange (spi_desc (sd st)) (pipe st) tx) as [[[|] rx] p'];
    cbn [fst snd is_ok]; stops_one_tac.
Qed.

Lemma stops_exchange_buff (n : Z) (st : state) :
  stops_at_first_failure st (is_ok (fst (exchange_buff exchange n st)))
    (snd (exchange_buff exchange n st)).
Proof.
  rewrite exchange_buff_run. cbv zeta. cbn [fst snd].
  destruct (exchange (spi_desc (sd st)) (pipe st) (slice (buff (sd st)) 0 n))
    as [[[|] rx] p'];
    cbn [fst snd is_ok]; stops_one_tac.
Qed.

Lemma stops_exchange_mem (p : ptr) (n : Z) (st : state) :
  stops_at_first_failure st (is_ok (fst (exchange_mem exchange p n st)))
    (snd (exchange_mem exchange p n st)).
Proof.
  unfold exchange_mem, bind, get_mem, spi_write_and_read, set_mem.
  destruct (exchange (spi_desc (sd st)) (pipe st)
              (slice (mem st (base p)) (offset p) n)) as [[[|] rx] p'];
    unfold ret, fail; cbv beta iota zeta;
    cbn [fst snd is_ok sd mem pipe trace]; stops_one_tac.
Qed.

(** X1: [sd_read] and [sd_init] stop at the first exchange that fails.  Of
    the exchanges either call adds to the log, every one but the last
    returned NO_OS_SUCCESS; when the call itself returns NO_OS_SUCCESS, so
    did the last one. *)
Theorem failed_exchange_ends_the_call (data : option ptr) (address len : Z)
    (fuel : nat) (nn : bool) (param : option (sd_init_param spi)) (c : bool)
    (st : state) :
  stops_at_first_failure st
    (is_ok (fst (sd_read exchange data address len st)))
    (snd (sd_read exchange data address len st))
  /\
  stops_at_first_failure st
    (is_ok (fst (sd_init exchange fuel nn param c st)))
    (snd (sd_init exchange fuel nn param c st)).
Proof.
  split.
  - apply (follows_sd_read stops_at_first_failure
             (fun _ => True) (fun _ => True)
             stops_refl stops_trans
             (fun s d => stops_same_log s _ true eq_refl)
             (fun b v _ s => stops_same_log s _ _ eq_refl)
             (fun tx _ => stops_exchange_val tx)
             (fun n _ => stops_exchange_buff n)
             (fun p n _ _ => stops_exchange_mem p n)
             (fun _ _ => I) (fun _ => I)); intros; exact I.
  - apply (follows_sd_init stops_at_first_failure (fun _ => True)
             stops_refl stops_trans
             (fun s d => stops_same_log s _ true eq_refl)
             (fun tx _ => stops_exchange_val tx)
             (fun n _ => stops_exchange_buff n)
             (fun _ _ => I)).
Qed.

(** ** The buffers a call writes *)

Lemma buf_id_eqb_eq (a b : buf_id) : buf_id_eqb a b = true -> a = b.
Proof.
  destruct a, b; cbn; try discriminate; try reflexivity.
  intros H. apply Nat.eqb_eq in H. now subst.
Qed.

Lemma writes_same_mem (S : buf_id -> bool) (st st' : state) :
  mem st' = mem st -> writes_only S st st'.
Proof. intros H buf _. now rewrite H. Qed.

Lemma writes_trans (S : buf_id -> bool) (a b c : state) :
  writes_only S a b -> writes_only S b c -> writes_only S a c.
Proof. intros H1 H2 buf Hb. now rewrite H2, H1. Qed.

Lemma writes_set_mem (S : buf_id -> bool) (b : buf_id) (v : list Z)
    (st : state) :
  S b = true -> writes_only S st (snd (set_mem b v st)).
Proof.
  intros Hb buf Hbuf. cbn [set_mem snd mem].
  destruct (buf_id_eqb b buf) eqn:E; [| reflexivity].
  apply buf_id_eqb_eq in E. congruence.
Qed.

Lemma writes_exchange_val (S : buf_id -> bool) (tx : list Z) (st : state) :
  writes_only S st (snd (exchange_val exchange tx st)).
Proof. apply writes_same_mem. now rewrite exchange_val_run. Qed.

Lemma writes_exchange_buff (S : buf_id -> bool) (n : Z) (st : state) :
  writes_only S st (snd (exchange_buff exchange n st)).
Proof. apply writes_same_mem. now rewrite exchange_buff_run. Qed.

Lemma writes_exchange_mem (S : buf_id -> bool) (p : ptr) (n : Z)
    (st : state) :
  S (base p) = true -> writes_only S st (snd (exchange_mem exchange p n st)).
Proof.
  intros Hb buf Hbuf.
  unfold exchange_mem, bind, get_mem, spi_write_and_read, set_mem.
  destruct (exchange (spi_desc (sd st)) (pipe st)
              (slice (mem st (base p)) (offset p) n)) as [[[|] rx] p'];
    unfold ret, fail; cbv beta iota zeta; cbn [fst snd sd mem pipe trace];
    (destruct (buf_id_eqb (base p) buf) eqn:E; [| reflexivity]);
    apply buf_id_eqb_eq in E; congruence.
Qed.

Lemma sd_read_writes (p : ptr) (address len : Z) (st : state) :
  writes_only (fun b => buf_id_eqb (base p) b || buf_id_eqb Stack_buff b)
    st (snd (sd_read exchange (Some p) address len st)).
Proof.
  set (S := fun b => _).
  apply (follows_sd_read (fun st _ st' => writes_only S st st')
           (fun _ => True) (fun b => S b = true)
           (fun s _ => writes_same_mem S s s eq_refl)
           (fun a b c _ => writes_trans S a b c)
           (fun s d => writes_same_mem S s _ eq_refl)
           (fun b v Hb s => writes_set_mem S b v s Hb)
           (fun tx _ => writes_exchange_val S tx)
           (fun n _ => writes_exchange_buff S n)
           (fun p n Hb _ s => writes_exchange_mem S p n s Hb)
           (fun _ _ => I) (fun _ => I)).
  - intros q Hq. injection Hq as <-. subst S. cbv beta.
    now rewrite buf_id_eqb_refl.
  - subst S. cbv beta. apply orb_true_r.
Qed.

Lemma sd_write_writes (p : ptr) (address len : Z) (st : state) :
  writes_only (fun b => buf_id_eqb (base p) b
                        || buf_id_eqb Stack_first_block b
                        || buf_id_eqb Stack_last_block b
                        || buf_id_eqb Stack_buff b)
    st (snd (sd_write exchange (Some p) address len st)).
Proof.
  set (S := fun b => _).
  apply (follows_sd_write (fun st _ st' => writes_only S st st')
           (fun _ => True) (fun b => S b = true)
           (fun s _ => writes_same_mem S s s eq_refl)
           (fun a b c _ => writes_trans S a b c)
           (fun s d => writes_same_mem S s _ eq_refl)
           (fun b v Hb s => writes_set_mem S b v s Hb)
           (fun tx _ => writes_exchange_val S tx)
           (fun n _ => writes_exchange_buff S n)
           (fun p n Hb _ s => writes_exchange_mem S p n s Hb)
           (fun _ _ => I) (fun _ => I)).
  - auto.
  - intros q Hq. injection Hq as <-. subst S. cbv beta.
    now rewrite buf_id_eqb_refl.
  - subst S. cbv beta. cbn [buf_id_eqb].
    now rewrite orb_true_r.
  - subst S. cbv beta. cbn [buf_id_eqb].
    now rewrite !orb_true_r.
  - subst S. cbv beta. apply orb_true_r.
Qed.

Lemma sd_init_writes (fuel : nat) (nn : bool)
    (param : option (sd_init_param spi)) (c : bool) (st : state) :
  writes_only (fun _ => false)
    st (snd (sd_init exchange fuel nn param c st)).
Proof.
  set (S := fun _ : buf_id => false).
  apply (follows_sd_init (fun st _ st' => writes_only S st st')
           (fun _ => True)
           (fun s _ => writes_same_mem S s s eq_refl)
           (fun a b c _ => writes_trans S a b c)
           (fun s d => writes_same_mem S s _ eq_refl)
           (fun tx _ => writes_exchange_val S tx)
           (fun n _ => writes_exchange_buff S n)
           (fun _ _ => I)).
Qed.

(** X2: the buffers the three calls write.  [sd_read] leaves every buffer
    as it was except the caller's and the block array of its own stack
    frame; [sd_write] leaves every buffer as it was except the caller's and
    the three block arrays of the driver's stack frames; [sd_init] writes no
    buffer at all. *)
Theorem buffers_written (p : ptr) (address len : Z)
    (fuel : nat) (nn : bool) (param : option (sd_init_param spi)) (c : bool)
    (st : state) :
  writes_only (fun b => buf_id_eqb (base p) b || buf_id_eqb Stack_buff b)
    st (snd (sd_read exchange (Some p) address len st))
  /\
  writes_only (fun b => buf_id_eqb (base p) b
                        || buf_id_eqb Stack_first_block b
                        || buf_id_eqb Stack_last_block b
                        || buf_id_eqb Stack_buff b)
    st (snd (sd_write exchange (Some p) address len st))
  /\
  writes_only (fun _ => false)
    st (snd (sd_init exchange fuel nn param c st)).
Proof.
  split; [apply sd_read_writes | split];
    [apply sd_write_writes | apply sd_init_writes].
Qed.

(** X3: [sd_read] and [sd_write] return on every byte pipe, from every
    state and for every argument: neither the block loops nor the polling
    loops inside them use up the turns the model gives them. *)
Theorem data_calls_return (data : option ptr) (address len : Z) (st : state) :
  fst (sd_read exchange data address len st) <> OutOfFuel
  /\ fst (sd_write exchange data address len st) <> OutOfFuel.
Proof.
  split; [apply safe_sd_read | apply safe_sd_write].
Qed.

(** ** The capacity [sd_init] stores *)

Lemma c_size_of_blit_0 (b rx : list Z) :
  length rx = 18%nat -> c_size_of (blit b 0 rx) = c_size_of rx.
Proof.
  intros Hl. unfold c_size_of, blit, load.
  change (firstn (Z.to_nat 0) b) with (@nil Z). cbn [app].
  rewrite !app_nth1 by (rewrite Hl; cbn; lia). reflexivity.
Qed.

Lemma sd_init_last_exchange fuel nn param c (st st' : state) :
  sd_init exchange fuel nn param c st = (Ok tt, st') ->
  exists t e b,
    trace st' = t ++ [e]
    /\ x_tx e = repeat 0xFF 18 /\ x_ok e = true
    /\ length (x_rx e) = 18%nat
    /\ buff (sd st') = blit b 0 (x_rx e).
Proof.
  intros H. unfold sd_init in H.
  destruct param as [param|]; [| discriminate].
  inv_if H. inv_if H.
  inv_bind H. inv_bind H. inv_bind H. inv_bind H. inv_bind H. inv_bind H.
  inv_if H. inv_bind H. inv_bind H. inv_if H. inv_bind H. inv_bind H.
  inv_if H.
  clear - H. revert H. generalize st9 as s. clear st9. intros s H.
  unfold bind at 1 in H. unfold get_buff at 1 in H.
  unfold bind at 1 in H. unfold set_buff at 1 in H.
  unfold bind at 1 in H. rewrite exchange_buff_run in H.
  cbv zeta in H. cbn [sd buff spi_desc memory_size pipe mem trace] in H.
  rewrite slice_memset_0 in H.
  destruct (exchange (spi_desc (sd s)) (pipe s) (repeat 255 (Z.to_nat CSD_LEN)))
    as [[ok rx] p'].
  cbn [fst snd] in H. destruct ok; [| discriminate].
  unfold bind, get_buff, set_memory_size in H.
  cbn [sd buff spi_desc memory_size pipe mem trace] in H.
  inversion H; subst; clear H. cbn [sd buff trace].
  eexists _, (Xfer _ _ true), _.
  split; [reflexivity|]. cbn [x_tx x_rx x_ok].
  split; [reflexivity|]. split; [reflexivity|].
  split; [| reflexivity].
  rewrite received_length. reflexivity.
Qed.

(** X4: the capacity is computed from the last exchange of [sd_init].  An
    [sd_init] that returns NO_OS_SUCCESS ended with a successful exchange of
    eighteen 0xFF bytes, and [memory_size] is [(c_size + 1) * 512 KiB] with
    [c_size] the 21 bits the code takes from bytes 7, 8 and 9 received in
    that exchange; so it is a multiple of 512 KiB between 512 KiB and
    1 TiB. *)
Theorem capacity_from_last_exchange fuel nn param c (st st' : state) :
  sd_init exchange fuel nn param c st = (Ok tt, st') ->
  exists t e,
    trace st' = t ++ [e]
    /\ x_tx e = repeat 0xFF 18 /\ x_ok e = true
    /\ memory_size (sd st') = (c_size_of (x_rx e) + 1) * 524288
    /\ 524288 <= memory_size (sd st') <= 2 ^ 40.
Proof.
  intros H.
  destruct (sd_init_last_exchange _ _ _ _ _ _ H)
    as (t & e & b & Ht & Htx & Hok & Hl & Hb).
  destruct (sd_init_memory_size _ _ _ _ _ _ H) as [Hm Hc].
  rewrite Hb, c_size_of_blit_0 in Hm, Hc by exact Hl.
  exists t, e. repeat (split; [assumption|]).
  split; [rewrite Hm; lia | lia].
Qed.

(** ** The polling loops hand back the first answer *)

Lemma polling_first_answer {R} (body : Z * Z -> M (step (Z * Z) R))
    (quiet : Z) (value : R -> Z -> Prop) (st : state) :
  (forall d timeout s, d <> quiet ->
     exists r, body (d, timeout) s = (Ok (Break r), s) /\ value r d) ->
  (forall timeout s,
     body (quiet, timeout) s =
     bind (exchange_val exchange [0xFF])
          (fun rx => if timeout =? 0 then fail
                     else ret (Continue (load rx 0, u32 (timeout - 1)))) s) ->
  first_answer quiet value (trace st)
    (fst (loop 25 body (quiet, WAIT_RESP_TIMEOUT) st))
    (trace (snd (loop 25 body (quiet, WAIT_RESP_TIMEOUT) st))).
Proof.
  intros Hleave Hpoll.
  set (Q := Xfer [0xFF] [quiet] true).
  pose proof (loop_rule body
    (fun s st1 =>
       0 <= snd s <= WAIT_RESP_TIMEOUT /\
       exists n, Z.of_nat n = WAIT_RESP_TIMEOUT - snd s /\
         ((n = 0%nat /\ fst s = quiet /\ trace st1 = trace st) \/
          exists n', n = S n' /\
            trace st1 = trace st ++ repeat Q n'
                          ++ [Xfer [0xFF] [fst s] true]))
    (fun o st1 =>
       match o with
       | Ok (Break a) => first_answer quiet value (trace st) (Ok a) (trace st1)
       | Ok (Continue _) => False
       | Err => first_answer quiet value (trace st) (@Err R) (trace st1)
       | OutOfFuel => False
       end)
    snd 25%nat (quiet, WAIT_RESP_TIMEOUT) st) as H.
  match type of H with ?A -> ?B -> ?C -> ?D -> ?E => assert (HE : E) end.
  { apply H; clear H.
    - intros [d timeout] st1 (Hto & n & Hn & Hlog).
      cbn [fst snd] in *.
      destruct (Z.eq_dec d quiet) as [Hd | Hd].
      + subst d.
        assert (Ht : trace st1 = trace st ++ repeat Q n).
        { destruct Hlog as [(-> & _ & Ht) | (n' & -> & Ht)].
          - now rewrite Ht, app_nil_r.
          - rewrite Ht. fold Q. rewrite <- repeat_cons. reflexivity. }
        clear Hlog.
        rewrite Hpoll. unfold bind. rewrite exchange_val_run.
        destruct (exchange (spi_desc (sd st1)) (pipe st1) [0xFF])
          as [[ok rx] p'].
        cbv zeta. cbn [fst snd].
        destruct (received_one 0xFF rx) as [y Hy]. rewrite Hy.
        change (load [y] 0) with y.
        destruct ok.
        * destruct (Z.eqb_spec timeout 0) as [H0 | H0];
            unfold ret, fail; cbv beta iota zeta; cbn [fst snd trace].
          -- exists n, (Xfer [0xFF] [y] true).
             split; [now rewrite Ht, <- app_assoc|].
             split; [reflexivity|]. right.
             unfold WAIT_RESP_TIMEOUT in *. lia.
          -- cbn [fst snd]. rewrite u32_timeout by lia.
             split; [|lia]. split; [lia|].
             exists (S n). split; [lia|]. right. exists n.
             split; [reflexivity|]. now rewrite Ht, <- app_assoc.
        * exists n, (Xfer [0xFF] [y] false).
          split; [now rewrite Ht, <- app_assoc|].
          split; [reflexivity|]. now left.
      + destruct (Hleave d timeout st1 Hd) as (r & -> & Hv).
        destruct Hlog as [(_ & Hd' & _) | (n' & -> & Ht)]; [contradiction|].
        exists n', (Xfer [0xFF] [d] true).
        split; [exact Ht|]. split; [reflexivity|].
        split; [unfold WAIT_RESP_TIMEOUT in *; lia|].
        split; [reflexivity|]. exists d. cbn [x_rx]. auto.
    - intros s st1 (Hto & _). lia.
    - cbn [fst snd]. split; [unfold WAIT_RESP_TIMEOUT; lia|].
      exists 0%nat. split; [cbn; lia|]. left. auto.
    - reflexivity. }
  clear H.
  destruct (loop 25 _ _ st) as [[a| |] st1]; cbn [fst snd];
    [assumption | assumption | contradiction].
Qed.

Lemma wait_for_response_first_answer (st : state) :
  first_answer 0xFF (fun a b => a = b) (trace st)
    (fst (wait_for_response exchange st))
    (trace (snd (wait_for_response exchange st))).
Proof.
  unfold wait_for_response. apply polling_first_answer.
  - intros d timeout s Hd. exists d. split; [| reflexivity].
    unfold wait_for_response_body.
    destruct (Z.eqb_spec d 0xFF); [contradiction | reflexivity].
  - reflexivity.
Qed.

Lemma wait_until_not_busy_first_answer (st : state) :
  first_answer 0x00 (fun _ _ => True) (trace st)
    (fst (wait_until_not_busy exchange st))
    (trace (snd (wait_until_not_busy exchange st))).
Proof.
  unfold wait_until_not_busy. apply polling_first_answer.
  - intros d timeout s Hd. exists tt. split; [| exact I].
    unfold wait_until_not_busy_body.
    destruct (Z.eqb_spec d 0x00); [contradiction | reflexivity].
  - reflexivity.
Qed.

(** X5: both polling loops hand back the first answer.  The log of
    [wait_for_response] is some successful polls that brought 0xFF followed
    by one more poll; on success that poll is successful, brought the byte
    that is handed back, which is not 0xFF, and is not poll number
    [2 ^ 25]; on failure it failed or is poll number [2 ^ 25], whatever it
    brought.  The same holds for [wait_until_not_busy] with 0x00 in the
    place of 0xFF. *)
Theorem polling_returns_first_answer (st : state) :
  first_answer 0xFF (fun a b => a = b) (trace st)
    (fst (wait_for_response exchange st))
    (trace (snd (wait_for_response exchange st)))
  /\
  first_answer 0x00 (fun _ _ => True) (trace st)
    (fst (wait_until_not_busy exchange st))
    (trace (snd (wait_until_not_busy exchange st))).
Proof.
  split;
    [apply wait_for_response_first_answer
    | apply wait_until_not_busy_first_answer].
Qed.

(** ** Buffers, slices and copies *)

Lemma slice_length (b : list Z) (off n : Z) :
  0 <= off -> 0 <= n -> off + n <= Z.of_nat (length b) ->
  length (slice b off n) = Z.to_nat n.
Proof.
  intros Ho Hn Hl. unfold slice. rewrite length_firstn, length_skipn. lia.
Qed.

Lemma blit_length (b src : list Z) (off : Z) :
  0 <= off -> off + Z.of_nat (length src) <= Z.of_nat (length b) ->
  length (blit b off src) = length b.
Proof.
  intros Ho Hl. unfold blit.
  rewrite !length_app, length_firstn, length_skipn. lia.
Qed.

Lemma memset_length (b : list Z) (off c n : Z) :
  0 <= off -> 0 <= n -> off + n <= Z.of_nat (length b) ->
  length (memset b off c n) = length b.
Proof.
  intros Ho Hn Hl. unfold memset.
  rewrite !length_app, length_firstn, repeat_length, length_skipn. lia.
Qed.

Lemma blit_nil (b : list Z) (off : Z) : blit b off [] = b.
Proof.
  unfold blit. cbn [app length]. rewrite Nat.add_0_r.
  apply firstn_skipn.
Qed.

(** The bytes [memset] wrote. *)
Lemma slice_memset (b : list Z) (off c n : Z) :
  0 <= off <= Z.of_nat (length b) -> 0 <= n ->
  slice (memset b off c n) off n = repeat c (Z.to_nat n).
Proof.
  intros Ho Hn. unfold slice, memset.
  rewrite skipn_app, length_firstn.
  rewrite (skipn_all2 (firstn _ b)) by (rewrite length_firstn; lia).
  replace (Z.to_nat off - Nat.min (Z.to_nat off) (length b))%nat with 0%nat
    by lia.
  cbn [skipn app]. rewrite firstn_app, repeat_length, Nat.sub_diag.
  cbn [firstn]. rewrite app_nil_r. apply firstn_all2.
  rewrite repeat_length. lia.
Qed.

(** A copy over bytes that [memset] wrote leaves no trace of them. *)
Lemma blit_memset (b src : list Z) (off c n : Z) :
  0 <= off <= Z.of_nat (length b) -> 0 <= n ->
  length src = Z.to_nat n ->
  blit (memset b off c n) off src = blit b off src.
Proof.
  intros Ho Hn Hl. unfold blit, memset.
  rewrite firstn_app, length_firstn.
  rewrite (firstn_all2 (firstn _ b)) by (rewrite length_firstn; lia).
  replace (Z.to_nat off - Nat.min (Z.to_nat off) (length b))%nat with 0%nat
    by lia.
  cbn [firstn]. rewrite app_nil_r. f_equal. f_equal.
  rewrite skipn_app, length_firstn.
  rewrite (skipn_all2 (firstn _ b)) by (rewrite length_firstn; lia).
  cbn [app].
  replace (Z.to_nat off + length src - Nat.min (Z.to_nat off) (length b))%nat
    with (length src) by lia.
  rewrite skipn_app, repeat_length.
  rewrite (skipn_all2 (repeat _ _)) by (rewrite repeat_length; lia).
  cbn [app]. replace (length src - Z.to_nat n)%nat with 0%nat by lia.
  cbn [skipn]. f_equal. lia.
Qed.

Lemma firstn_app_exact {A} (l r : list A) (n : nat) :
  length l = n -> firstn n (l ++ r) = l.
Proof.
  intros <-. rewrite firstn_app, Nat.sub_diag. cbn [firstn].
  rewrite app_nil_r. now apply firstn_all2.
Qed.

Lemma skipn_app_exact {A} (l r : list A) (n k : nat) :
  length l = n -> skipn (n + k) (l ++ r) = skipn k r.
Proof.
  intros <-. rewrite skipn_app, skipn_all2 by lia. cbn [app].
  f_equal. lia.
Qed.

(** Two copies, the second right behind the first, are one copy. *)
Lemma blit_blit (b x y : list Z) (off : Z) :
  0 <= off -> off + Z.of_nat (length x) <= Z.of_nat (length b) ->
  blit (blit b off x) (off + Z.of_nat (length x)) y = blit b off (x ++ y).
Proof.
  intros Ho Hl. unfold blit.
  replace (Z.to_nat (off + Z.of_nat (length x)))
    with (Z.to_nat off + length x)%nat by lia.
  assert (Hf : length (firstn (Z.to_nat off) b ++ x)
               = (Z.to_nat off + length x)%nat)
    by (rewrite length_app, length_firstn; lia).
  rewrite (app_assoc _ x). rewrite (firstn_app_exact _ _ _ Hf).
  rewrite (skipn_app_exact _ _ _ _ Hf), skipn_skipn.
  rewrite <- !app_assoc, length_app. do 4 f_equal. lia.
Qed.

(** ** One block *)

Lemma wait_for_response_ok (st st' : state) (r : Z) :
  wait_for_response exchange st = (Ok r, st') ->
  exists n,
    trace st' = trace st ++ repeat (poll 0xFF) n ++ [poll r]
    /\ r <> 0xFF /\ mem st' = mem st.
Proof.
  intros H. pose proof (wait_for_response_first_answer st) as Hf.
  pose proof (keeps_mem_wait_for_response st) as Hm.
  rewrite H in Hf, Hm. cbn [fst snd] in Hf, Hm.
  destruct Hf as (n & [tx rx ok] & Ht & Htx & _ & Hok & b & Hrx & Hb & ->).
  cbn [x_tx x_rx x_ok] in *. subst tx rx ok.
  exists n. auto.
Qed.

Lemma wait_until_not_busy_ok (st st' : state) (a : unit) :
  wait_until_not_busy exchange st = (Ok a, st') ->
  exists n b,
    trace st' = trace st ++ repeat (poll 0x00) n ++ [poll b]
    /\ b <> 0x00 /\ mem st' = mem st.
Proof.
  intros H. pose proof (wait_until_not_busy_first_answer st) as Hf.
  assert (Hm : mem st' = mem st).
  { assert (Hk : keeps_mem (wait_until_not_busy exchange)).
    { unfold wait_until_not_busy. apply keeps_mem_loop. intros [d timeout].
      unfold wait_until_not_busy_body. keeps_mem_tac. }
    exact (run_keeps_mem _ _ _ _ Hk H). }
  rewrite H in Hf. cbn [fst snd] in Hf.
  destruct Hf as (n & [tx rx ok] & Ht & Htx & _ & Hok & b & Hrx & Hb & _).
  cbn [x_tx x_rx x_ok] in *. subst tx rx ok.
  exists n, b. auto.
Qed.

Lemma exchange_mem_run (p : ptr) (n : Z) (st : state) :
  exchange_mem exchange p n st =
  let tx := slice (mem st (base p)) (offset p) n in
  let r := exchange (spi_desc (sd st)) (pipe st) tx in
  let rx := received tx (snd (fst r)) in
  (if fst (fst r) then Ok tt else Err,
   State (sd st)
         (fun b' => if buf_id_eqb (base p) b'
                    then blit (mem st (base p)) (offset p) rx
                    else mem st b')
         (snd r) (trace st ++ [Xfer tx rx (fst (fst r))])).
Proof.
  unfold exchange_mem, bind, get_mem, spi_write_and_read, set_mem.
  cbn [sd pipe mem trace].
  destruct (exchange _ _ _) as [[[|] rx] p']; reflexivity.
Qed.

(** A successful exchange of the [n] bytes at [p]: what went out, and
    where what came back went. *)
Lemma exchange_mem_done (p : ptr) (n : Z) (st st' : state) (a : unit) :
  exchange_mem exchange p n st = (Ok a, st') ->
  exists rx,
    length rx = length (slice (mem st (base p)) (offset p) n)
    /\ trace st' = trace st
                   ++ [Xfer (slice (mem st (base p)) (offset p) n) rx true]
    /\ forall b, mem st' b = if buf_id_eqb (base p) b
                             then blit (mem st (base p)) (offset p) rx
                             else mem st b.
Proof.
  rewrite exchange_mem_run. cbv zeta.
  destruct (exchange (spi_desc (sd st)) (pipe st)
              (slice (mem st (base p)) (offset p) n)) as [[ok rx] p'].
  cbn [fst snd]. destruct ok; [| discriminate].
  intros H. injection H as _ <-. cbn [trace mem].
  eexists. split; [apply received_length|]. split; reflexivity.
Qed.

Lemma exchange_buff_done (n : Z) (st st' : state) (a : unit) :
  exchange_buff exchange n st = (Ok a, st') ->
  exists rx,
    trace st' = trace st ++ [Xfer (slice (buff (sd st)) 0 n) rx true]
    /\ mem st' = mem st.
Proof.
  rewrite exchange_buff_run. cbv zeta.
  destruct (exchange (spi_desc (sd st)) (pipe st)
              (slice (buff (sd st)) 0 n)) as [[ok rx] p'].
  cbn [fst snd]. destruct ok; [| discriminate].
  intros H. injection H as _ <-. cbn [trace mem].
  eexists. split; reflexivity.
Qed.

Lemma slice_store_crc (b : list Z) :
  slice (store (store b 0 0xFF) 1 0xFF) 0 CRC_LEN = [0xFF; 0xFF].
Proof. reflexivity. Qed.

(** A block read that ends well: the polls that brought 0xFF, the poll
    that brought the start token, the exchange of 512 bytes 0xFF at
    [data], into which the received bytes go, and the exchange of two
    bytes 0xFF for the CRC. *)
Lemma read_block_ok (data : ptr) (st st' : state) (a : unit) :
  read_block exchange data st = (Ok a, st') ->
  0 <= offset data <= Z.of_nat (length (mem st (base data))) ->
  exists n rx crc,
    trace st' = trace st ++ repeat (poll 0xFF) n
                  ++ [poll START_1_BLOCK_TOKEN;
                      Xfer (repeat 0xFF 512) rx true;
                      Xfer [0xFF; 0xFF] crc true]
    /\ length rx = 512%nat
    /\ forall b, mem st' b = if buf_id_eqb (base data) b
                             then blit (mem st (base data)) (offset data) rx
                             else mem st b.
Proof.
  intros H Ho. revert H. unfold read_block. intros H.
  inv_bind H. apply wait_for_response_ok in H0.
  destruct H0 as (n & Ht0 & _ & Hm0).
  destruct (Z.land a0 MASK_ERROR_TOKEN =? 0); [discriminate|].
  destruct (Z.eqb_spec a0 START_1_BLOCK_TOKEN) as [-> | _];
    cbn [negb] in H; [| discriminate].
  inv_bind H. injection H0 as <- <-.
  inv_bind H. injection H0 as _ <-.
  inv_bind H. apply exchange_mem_done in H0.
  destruct H0 as (rx & Hl & Ht2 & Hm2).
  cbn [set_mem mem trace base] in Hl, Ht2, Hm2.
  rewrite buf_id_eqb_refl in Hl, Ht2, Hm2.
  rewrite Hm0 in Hl, Ht2, Hm2.
  rewrite slice_memset in Hl, Ht2 by (unfold DATA_BLOCK_LEN; lia).
  inv_bind H. unfold set_buff_crc, bind, get_buff, set_buff in H0.
  injection H0 as _ <-.
  apply exchange_buff_done in H. destruct H as (crc & Ht4 & Hm4).
  cbn [sd buff trace mem] in Ht4, Hm4. rewrite slice_store_crc in Ht4.
  rewrite repeat_length in Hl.
  exists n, rx, crc. split; [| split].
  - rewrite Ht4, Ht2, Ht0, <- !app_assoc. reflexivity.
  - exact Hl.
  - intros b. rewrite Hm4, Hm2. destruct (buf_id_eqb (base data) b) eqn:E.
    + assert (H512 : 0 <= DATA_BLOCK_LEN) by (unfold DATA_BLOCK_LEN; lia).
      exact (blit_memset (mem st (base data)) rx (offset data) 255
               DATA_BLOCK_LEN Ho H512 Hl).
    + reflexivity.
Qed.

Ltac inv_bind_as H a s H1 :=
  apply bind_Ok in H; destruct H as (a & s & H1 & H).

(** The token that opens a block on its way to the card. *)
Lemma write_block_token (nb : Z) (st st' : state) (a : unit) :
  bind get_buff (fun b =>
    bind (set_buff (store b 0 START_N_BLOCK_TOKEN)) (fun _ =>
    bind (if nb =? 1
          then bind get_buff
                 (fun b => set_buff (store b 0 START_1_BLOCK_TOKEN))
          else ret tt) (fun _ =>
    exchange_buff exchange 1))) st = (Ok a, st') ->
  exists r1,
    trace st' = trace st
      ++ [Xfer [if nb =? 1 then START_1_BLOCK_TOKEN else START_N_BLOCK_TOKEN]
               r1 true]
    /\ mem st' = mem st.
Proof.
  intros H. inv_bind H. injection H0 as <- <-.
  inv_bind H. injection H0 as _ <-.
  inv_bind H. destruct (nb =? 1).
  - inv_bind H0. injection H1 as <- <-. injection H0 as _ <-.
    apply exchange_buff_done in H. destruct H as (r1 & Ht & Hm).
    cbn [sd buff trace mem] in Ht, Hm. exists r1. now split.
  - injection H0 as _ <-.
    apply exchange_buff_done in H. destruct H as (r1 & Ht & Hm).
    cbn [sd buff trace mem] in Ht, Hm. exists r1. now split.
Qed.

(** A block write that ends well: the token, the 512 bytes at [data],
    two bytes 0xFF for the CRC, the polls for the data response, whose low
    bits say that the block was taken, and the polls while the card is
    busy.  What came back during the exchange of the block is now at
    [data]. *)
Lemma write_block_done (data : ptr) (nb : Z) (st st' : state) (a : unit) :
  write_block exchange data nb st = (Ok a, st') ->
  exists r1 rx crc n1 b1 n2 b2,
    trace st' = trace st
      ++ [Xfer [if nb =? 1 then START_1_BLOCK_TOKEN else START_N_BLOCK_TOKEN]
               r1 true;
          Xfer (slice (mem st (base data)) (offset data) DATA_BLOCK_LEN)
               rx true;
          Xfer [0xFF; 0xFF] crc true]
      ++ repeat (poll 0xFF) n1 ++ [poll b1]
      ++ repeat (poll 0x00) n2 ++ [poll b2]
    /\ Z.land b1 MASK_RESPONSE_TOKEN = 0x4 /\ b2 <> 0x00
    /\ length rx
       = length (slice (mem st (base data)) (offset data) DATA_BLOCK_LEN)
    /\ forall buf, mem st' buf
                   = if buf_id_eqb (base data) buf
                     then blit (mem st (base data)) (offset data) rx
                     else mem st buf.
Proof.
  intros H. revert H. unfold write_block. intros H.
  assert (H' : exists s1,
    bind get_buff (fun b =>
      bind (set_buff (store b 0 START_N_BLOCK_TOKEN)) (fun _ =>
      bind (if nb =? 1
            then bind get_buff
                   (fun b => set_buff (store b 0 START_1_BLOCK_TOKEN))
            else ret tt) (fun _ =>
      exchange_buff exchange 1))) st = (Ok tt, s1)
    /\ bind (exchange_mem exchange data DATA_BLOCK_LEN) (fun _ =>
       bind set_buff_crc (fun _ =>
       bind (exchange_buff exchange CRC_LEN) (fun _ =>
       bind (wait_for_response exchange) (fun response =>
       bind (if Z.land response MASK_RESPONSE_TOKEN =? 0x4
             then ret tt else fail) (fun _ =>
       wait_until_not_busy exchange))))) s1 = (Ok a, st')).
  { inv_bind H. inv_bind H. inv_bind H. inv_bind H. destruct a3.
    exists st3. split; [| exact H].
    unfold bind at 1. rewrite H0. unfold bind at 1. rewrite H1.
    unfold bind at 1. rewrite H2. exact H3. }
  clear H. destruct H' as (s1 & H1 & H).
  apply write_block_token in H1. destruct H1 as (r1 & Ht1 & Hm1).
  inv_bind H. apply exchange_mem_done in H0.
  destruct H0 as (rx & Hl & Ht2 & Hm2). rewrite Hm1 in Hl, Ht2, Hm2.
  inv_bind H. unfold set_buff_crc, bind, get_buff, set_buff in H0.
  injection H0 as _ <-.
  inv_bind H. apply exchange_buff_done in H0. destruct H0 as (crc & Ht4 & Hm4).
  cbn [sd buff trace mem] in Ht4, Hm4. rewrite slice_store_crc in Ht4.
  inv_bind_as H b1 s5 H5. apply wait_for_response_ok in H5.
  destruct H5 as (n1 & Ht5 & _ & Hm5).
  inv_bind_as H u s6 H6.
  destruct (Z.eqb_spec (Z.land b1 MASK_RESPONSE_TOKEN) 0x4)
    as [Hb1 |]; [| discriminate].
  injection H6 as _ <-.
  apply wait_until_not_busy_ok in H. destruct H as (n2 & b2 & Ht6 & Hb2 & Hm6).
  exists r1, rx, crc, n1, b1, n2, b2.
  split; [| split; [exact Hb1 | split; [exact Hb2 | split; [exact Hl|]]]].
  - rewrite Ht6, Ht5, Ht4, Ht2, Ht1, <- !app_assoc. reflexivity.
  - intros buf. rewrite Hm6, Hm5, Hm4. apply Hm2.
Qed.

(** ** The blocks of a request *)

(** What block [i] of a request in bounds takes from its 512 bytes, and
    where the loops stand after it. *)
Lemma chunk_in_bounds (address len i : Z) :
  0 <= address -> 0 < len -> address + len <= 2 ^ 40 ->
  0 <= i < nblocks address len ->
  buff_first_idx address i = (if i =? 0 then address mod 512 else 0)
  /\ buff_copy_len address len (get_nb_of_blocks address len) i
     = data_idx_at address len (i + 1) - data_idx_at address len i
  /\ data_idx_at address len i
     = (if i =? 0 then 0 else 512 * i - address mod 512)
  /\ 0 < data_idx_at address len (i + 1) - data_idx_at address len i
  /\ buff_first_idx address i
     + (data_idx_at address len (i + 1) - data_idx_at address len i) <= 512
  /\ data_idx_at address len (i + 1) <= len.
Proof.
  intros Ha Hl Hb Hi. unfold buff_copy_len, buff_first_idx, data_idx_at.
  rewrite get_nb_of_blocks_in_bounds by lia.
  rewrite !land_addr_in_block.
  assert (Hfi : u16 (address mod 512) = address mod 512).
  { apply Z.mod_small. Z.div_mod_to_equations. lia. }
  rewrite Hfi.
  rewrite (u64_small (address + len)) by lia.
  rewrite (u64_small (address + len - 1)) by lia.
  unfold nblocks, DATA_BLOCK_LEN in *.
  assert (Hn : 0 <= (address + len - 1) / 512 - address / 512 < 2 ^ 31)
    by (Z.div_mod_to_equations; lia).
  replace ((address + len - 1) / 512 - address / 512 + 1 - 1)
    with ((address + len - 1) / 512 - address / 512) by lia.
  rewrite (u32_small (_ - _)) by lia.
  assert (Hr : 0 <= (address + len - 1) mod 512 < 512)
    by (apply Z.mod_pos_bound; lia).
  assert (Hf : 0 <= address mod 512 < 512) by (apply Z.mod_pos_bound; lia).
  pose proof (Z.div_mod address 512 ltac:(lia)) as Ea.
  pose proof (Z.div_mod (address + len - 1) 512 ltac:(lia)) as El.
  set (q := address / 512) in *. set (f := address mod 512) in *.
  set (q' := (address + len - 1) / 512) in *.
  set (r' := (address + len - 1) mod 512) in *.
  destruct (Z.eqb_spec i 0) as [Hi0 | Hi0];
    destruct (Z.eqb_spec i (q' - q)) as [E | E].
  - rewrite (u64_small (_ - _)) by lia. rewrite u64_small by lia.
    unfold u16. rewrite Z.mod_small by lia. lia.
  - rewrite u32_small by lia. unfold u16. rewrite Z.mod_small by lia. lia.
  - rewrite Z.sub_0_r. rewrite (u64_small r') by lia.
    rewrite u64_small by lia. unfold u16. rewrite Z.mod_small by lia. lia.
  - rewrite Z.sub_0_r. rewrite u32_small by lia.
    unfold u16. rewrite Z.mod_small by lia. lia.
Qed.

Lemma slice_blocks_step (B rx : list Z) (fi idx first_idx copy_len i : Z) :
  Z.of_nat (length B) = 512 * i -> length rx = 512%nat ->
  0 <= fi < 512 -> 0 <= i ->
  first_idx = (if i =? 0 then fi else 0) ->
  idx = (if i =? 0 then 0 else 512 * i - fi) ->
  0 <= copy_len -> first_idx + copy_len <= 512 ->
  slice B fi idx ++ slice rx first_idx copy_len
  = slice (B ++ rx) fi (idx + copy_len).
Proof.
  intros HB Hrx Hfi Hi Hf Hidx Hc Hfc.
  destruct (Z.eqb_spec i 0) as [-> | Hi0].
  - destruct B; [| cbn [length] in HB; lia]. subst. reflexivity.
  - subst first_idx idx. unfold slice.
    change (skipn (Z.to_nat 0) rx) with rx.
    assert (Hs : length (skipn (Z.to_nat fi) B) = Z.to_nat (512 * i - fi))
      by (rewrite length_skipn; lia).
    rewrite (firstn_all2 (skipn (Z.to_nat fi) B)) by lia.
    rewrite skipn_app.
    replace (Z.to_nat fi - length B)%nat with 0%nat by lia.
    cbn [skipn]. rewrite firstn_app, Hs.
    rewrite (firstn_all2 (skipn (Z.to_nat fi) B)) by lia.
    f_equal. f_equal. lia.
Qed.

Lemma blocks_received_app (t1 t2 : list xfer) :
  blocks_received (t1 ++ t2) = blocks_received t1 ++ blocks_received t2.
Proof. unfold blocks_received. now rewrite filter_app, flat_map_app. Qed.

Lemma blocks_sent_app (t1 t2 : list xfer) :
  blocks_sent (t1 ++ t2) = blocks_sent t1 ++ blocks_sent t2.
Proof. unfold blocks_sent. now rewrite filter_app, flat_map_app. Qed.

Lemma no_block_filter (t : list xfer) :
  Forall (fun e => is_block e = false) t -> filter is_block t = [].
Proof.
  induction 1 as [|e t He _ IH]; [reflexivity|].
  cbn [filter]. now rewrite He.
Qed.

Lemma no_block_received (t : list xfer) :
  Forall (fun e => is_block e = false) t -> blocks_received t = [].
Proof. intros H. unfold blocks_received. now rewrite no_block_filter. Qed.

Lemma no_block_sent (t : list xfer) :
  Forall (fun e => is_block e = false) t -> blocks_sent t = [].
Proof. intros H. unfold blocks_sent. now rewrite no_block_filter. Qed.

Lemma no_block_polls (b : Z) (n : nat) :
  Forall (fun e => is_block e = false) (repeat (poll b) n).
Proof.
  induction n as [|n IH]; [constructor|]. cbn [repeat].
  constructor; [reflexivity | exact IH].
Qed.

Lemma is_block_length (tx rx : list Z) (ok : bool) :
  length tx = 512%nat -> is_block (Xfer tx rx ok) = true.
Proof. intros H. unfold is_block. cbn [x_tx]. now rewrite H. Qed.

(** The one block in the log of a block read. *)
Lemma read_block_log (n : nat) (rx crc : list Z) :
  blocks_received
    (repeat (poll 0xFF) n
     ++ [poll START_1_BLOCK_TOKEN; Xfer (repeat 0xFF 512) rx true;
         Xfer [0xFF; 0xFF] crc true]) = rx.
Proof.
  rewrite blocks_received_app, (no_block_received _ (no_block_polls _ _)).
  unfold blocks_received. cbn [app filter].
  change (is_block (poll START_1_BLOCK_TOKEN)) with false.
  change (is_block (Xfer [0xFF; 0xFF] crc true)) with false.
  rewrite is_block_length by apply repeat_length.
  cbn [flat_map x_rx]. apply app_nil_r.
Qed.

Lemma buf_id_eqb_neq (a b : buf_id) : a <> b -> buf_id_eqb a b = false.
Proof.
  intros H. destruct (buf_id_eqb a b) eqn:E; [| reflexivity].
  now apply buf_id_eqb_eq in E.
Qed.

Lemma memcpy_done (dst src : ptr) (n : Z) (st st' : state) (a : unit) :
  memcpy dst src n st = (Ok a, st') ->
  trace st' = trace st
  /\ forall b, mem st' b
               = if buf_id_eqb (base dst) b
                 then blit (mem st (base dst)) (offset dst)
                        (slice (mem st (base src)) (offset src) n)
                 else mem st b.
Proof.
  unfold memcpy, bind, get_mem, set_mem. intros H. injection H as _ <-.
  cbn [mem trace]. split; reflexivity.
Qed.

Lemma slice_blit_0 (b rx : list Z) (off n : Z) :
  0 <= off -> 0 <= n -> off + n <= Z.of_nat (length rx) ->
  slice (blit b 0 rx) off n = slice rx off n.
Proof.
  intros Ho Hn Hl. unfold slice, blit.
  change (firstn (Z.to_nat 0) b) with (@nil Z). cbn [app].
  rewrite skipn_app, firstn_app, length_skipn.
  replace (Z.to_nat n - (length rx - Z.to_nat off))%nat with 0%nat by lia.
  cbn [firstn]. apply app_nil_r.
Qed.

Lemma slice_all (rx : list Z) (n : Z) :
  length rx = Z.to_nat n -> slice rx 0 n = rx.
Proof.
  intros H. unfold slice. cbn [Z.to_nat skipn]. apply firstn_all2. lia.
Qed.

(** One turn of [read_multiple_blocks]: a block is read, and the part of
    it the caller asked for goes to the caller's buffer. *)
Lemma read_chunk (p : ptr) (idx fidx cl : Z) (s1 s2 : state) (u : unit) :
  (if (fidx =? 0x0000) && (cl =? DATA_BLOCK_LEN)
   then read_block exchange (ptr_add p idx)
   else bind (read_block exchange (Ptr Stack_buff 0))
          (fun _ => memcpy (ptr_add p idx) (ptr_add (Ptr Stack_buff 0) fidx)
                      cl)) s1 = (Ok u, s2) ->
  0 <= offset p + idx <= Z.of_nat (length (mem s1 (base p))) ->
  base p <> Stack_buff -> 0 <= fidx -> 0 <= cl -> fidx + cl <= 512 ->
  exists delta rx,
    trace s2 = trace s1 ++ delta
    /\ blocks_received delta = rx /\ length rx = 512%nat
    /\ mem s2 (base p)
       = blit (mem s1 (base p)) (offset p + idx) (slice rx fidx cl).
Proof.
  intros H Ho Hp Hf Hc Hfc. revert H.
  destruct (Z.eqb_spec fidx 0x0000) as [-> | Hf0]; cbn [andb];
    [destruct (Z.eqb_spec cl DATA_BLOCK_LEN) as [-> | Hc0] |]; intros H.
  - apply read_block_ok in H; [| exact Ho].
    destruct H as (n & rx & crc & Ht & Hl & Hm).
    eexists _, rx. split; [exact Ht|]. split; [apply read_block_log|].
    split; [exact Hl|]. rewrite Hm. cbn [ptr_add base offset].
    rewrite buf_id_eqb_refl, slice_all by exact Hl. reflexivity.
  - inv_bind_as H u1 s H1. apply read_block_ok in H1; [| cbn; lia].
    destruct H1 as (n & rx & crc & Ht & Hl & Hm).
    apply memcpy_done in H. destruct H as [Ht2 Hm2].
    eexists _, rx. split; [rewrite Ht2; exact Ht|].
    split; [apply read_block_log|]. split; [exact Hl|].
    rewrite Hm2. cbn [ptr_add base offset]. rewrite buf_id_eqb_refl, !Hm.
    cbn [base offset]. rewrite buf_id_eqb_refl.
    rewrite (buf_id_eqb_neq Stack_buff (base p)) by congruence.
    rewrite slice_blit_0 by lia. reflexivity.
  - inv_bind_as H u1 s H1. apply read_block_ok in H1; [| cbn; lia].
    destruct H1 as (n & rx & crc & Ht & Hl & Hm).
    apply memcpy_done in H. destruct H as [Ht2 Hm2].
    eexists _, rx. split; [rewrite Ht2; exact Ht|].
    split; [apply read_block_log|]. split; [exact Hl|].
    rewrite Hm2. cbn [ptr_add base offset]. rewrite buf_id_eqb_refl, !Hm.
    cbn [base offset]. rewrite buf_id_eqb_refl.
    rewrite (buf_id_eqb_neq Stack_buff (base p)) by congruence.
    rewrite slice_blit_0 by lia. reflexivity.
Qed.

Lemma data_idx_at_end (address len : Z) :
  0 <= address -> 0 < len ->
  data_idx_at address len (nblocks address len) = len.
Proof.
  intros Ha Hl. unfold data_idx_at, nblocks.
  Z.div_mod_to_equations. lia.
Qed.

Lemma slice_blocks_length (B : list Z) (address len i : Z) :
  0 <= address -> 0 < len -> 0 <= i ->
  Z.of_nat (length B) = 512 * i ->
  Z.of_nat (length (slice B (address mod 512) (data_idx_at address len i)))
  = data_idx_at address len i.
Proof.
  intros Ha Hl Hi HB. unfold slice.
  rewrite length_firstn, length_skipn.
  pose proof (Z.mod_pos_bound address 512 ltac:(lia)) as Hf.
  unfold data_idx_at in *. lia.
Qed.

(** The blocks of a read that ends well: the bytes asked for, taken from
    the blocks as they came, are in the caller's buffer. *)
Lemma read_multiple_blocks_done (p : ptr) (address len : Z)
    (st st' : state) (a : unit) :
  read_multiple_blocks exchange p address len st = (Ok a, st') ->
  0 <= address -> 0 < len -> address + len <= 2 ^ 40 ->
  0 <= offset p -> offset p + len <= Z.of_nat (length (mem st (base p))) ->
  base p <> Stack_buff ->
  exists t,
    trace st' = trace st ++ t
    /\ Z.of_nat (length (blocks_received t)) = 512 * nblocks address len
    /\ mem st' (base p)
       = blit (mem st (base p)) (offset p)
              (slice (blocks_received t) (address mod 512) len).
Proof.
  intros H Ha Hl Hb Ho Hlen Hp.
  assert (Hnb : get_nb_of_blocks address len = nblocks address len)
    by (apply get_nb_of_blocks_in_bounds; lia).
  assert (Hnb' : 1 <= nblocks address len <= 2 ^ 31)
    by (unfold nblocks; Z.div_mod_to_equations; lia).
  pose proof (Z.mod_pos_bound address 512 ltac:(lia)) as Hfi.
  pose proof (loop_rule (read_multiple_blocks_body exchange p address len)
    (fun s st1 =>
       0 <= fst s <= nblocks address len
       /\ snd s = data_idx_at address len (fst s)
       /\ exists t, trace st1 = trace st ++ t
            /\ Z.of_nat (length (blocks_received t)) = 512 * fst s
            /\ mem st1 (base p)
               = blit (mem st (base p)) (offset p)
                      (slice (blocks_received t) (address mod 512) (snd s)))
    (fun o st1 =>
       match o with
       | Ok (Break _) =>
           exists t, trace st1 = trace st ++ t
             /\ Z.of_nat (length (blocks_received t))
                = 512 * nblocks address len
             /\ mem st1 (base p)
                = blit (mem st (base p)) (offset p)
                       (slice (blocks_received t) (address mod 512) len)
       | Ok (Continue _) => False
       | Err => True
       | OutOfFuel => False
       end)
    (fun s => nblocks address len - fst s) 32%nat (0, 0) st) as HR.
  revert H. unfold read_multiple_blocks. intros H. rewrite H in HR.
  apply HR; clear HR H.
  - intros [i idx] s1 (Hi & Hidx & t & Ht & HB & Hm). cbn [fst snd] in *.
    unfold read_multiple_blocks_body.
    destruct (Z.ltb_spec i (get_nb_of_blocks address len)) as [Hlt | Hge];
      cbn [negb]; rewrite Hnb in *.
    + destruct (chunk_in_bounds address len i Ha Hl Hb ltac:(lia))
        as (Hf & Hc & Hd & Hpos & Hle & Hnext).
      rewrite Hnb in Hc.
      pose proof (slice_blocks_length _ address len i Ha Hl ltac:(lia) HB)
        as HX.
      unfold bind at 1.
      match goal with
      | |- context [(if ?c then ?A else ?B) s1] =>
          destruct ((if c then A else B) s1) as [[u| |] s2] eqn:E
      end.
      * apply read_chunk in E.
        -- destruct E as (delta & rx & Ht2 & Hrx & Hl2 & Hm2).
           unfold ret. cbn [fst snd].
           rewrite u32_small by lia. rewrite Hc, Hidx.
           rewrite u64_small by (unfold data_idx_at in *; lia).
           replace (data_idx_at address len i
                    + (data_idx_at address len (i + 1)
                       - data_idx_at address len i))
             with (data_idx_at address len (i + 1)) by lia.
           split; [| lia]. split; [lia|]. split; [reflexivity|].
           exists (t ++ delta). split; [now rewrite Ht2, Ht, app_assoc|].
           rewrite blocks_received_app, Hrx, length_app. split; [lia|].
           rewrite Hm2, Hm, Hidx, Hc.
           replace (offset p + data_idx_at address len i)
             with (offset p
                   + Z.of_nat (length (slice (blocks_received t)
                                         (address mod 512)
                                         (data_idx_at address len i))))
             by (rewrite HX; reflexivity).
           rewrite blit_blit by lia. f_equal.
           replace (data_idx_at address len (i + 1))
             with (data_idx_at address len i
                   + (data_idx_at address len (i + 1)
                      - data_idx_at address len i)) at 2 by lia.
           apply (slice_blocks_step _ _ _ _ _ _ i); lia.
        -- rewrite Hm, Hidx. rewrite blit_length by lia. lia.
        -- exact Hp.
        -- rewrite Hf. destruct (i =? 0); lia.
        -- lia.
        -- lia.
      * exact I.
      * match type of E with
        | ?m s1 = _ =>
            assert (Hs : safe m) by (destruct (_ && _); safe_tac)
        end.
        destruct (Hs s1) as [Hne _]. rewrite E in Hne. now apply Hne.
    + unfold ret. assert (i = nblocks address len) by lia. subst i.
      rewrite data_idx_at_end in Hidx by lia. subst idx.
      exists t. auto.
  - intros s s1 (Hi & _). lia.
  - cbn [fst snd]. split; [lia|].
    split; [unfold data_idx_at; lia|].
    exists []. rewrite app_nil_r. split; [reflexivity|].
    split; [reflexivity|]. unfold blocks_received, slice. cbn [filter flat_map].
    rewrite skipn_nil, firstn_nil. now rewrite blit_nil.
  - cbn [fst]. change (Z.of_nat 32) with 32. lia.
Qed.

(** ** Commands move no block *)

Lemma no_block_same_log (st st' : state) :
  trace st' = trace st -> no_block_since st st'.
Proof.
  intros H. exists []. rewrite app_nil_r. split; [exact H | constructor].
Qed.

Lemma no_block_trans (a b c : state) :
  no_block_since a b -> no_block_since b c -> no_block_since a c.
Proof.
  intros (t1 & H1 & Hall1) (t2 & H2 & Hall2). exists (t1 ++ t2).
  split; [now rewrite H2, H1, app_assoc | now apply Forall_app].
Qed.

Lemma is_block_short (tx rx : list Z) (ok : bool) :
  (length tx <= 18)%nat -> is_block (Xfer tx rx ok) = false.
Proof.
  intros H. unfold is_block. cbn [x_tx]. apply Nat.eqb_neq. lia.
Qed.

Lemma no_block_exchange_val (tx : list Z) (st : state) :
  (length tx <= 18)%nat ->
  no_block_since st (snd (exchange_val exchange tx st)).
Proof.
  intros H. rewrite exchange_val_run. cbv zeta. cbn [snd].
  eexists. split; [reflexivity|].
  constructor; [now apply is_block_short | constructor].
Qed.

Lemma no_block_exchange_buff (n : Z) (st : state) :
  (forall b, (length (slice b 0 n) <= 18)%nat) ->
  no_block_since st (snd (exchange_buff exchange n st)).
Proof.
  intros H. rewrite exchange_buff_run. cbv zeta. cbn [snd].
  eexists. split; [reflexivity|].
  constructor; [apply is_block_short, H | constructor].
Qed.

Lemma no_block_send_command (c a : Z) (r : list Z) (st : state) :
  no_block_since st (snd (send_command exchange (Cmd_desc c a r R1_LEN) st)).
Proof.
  apply (follows_send_command (fun st _ st' => no_block_since st st')
           (fun tx => (length tx <= 18)%nat)
           (fun s _ => no_block_same_log s s eq_refl)
           (fun a b c _ => no_block_trans a b c)
           (fun s d => no_block_same_log s _ eq_refl)
           (fun tx H s => no_block_exchange_val tx s H)
           (fun n H s => no_block_exchange_buff n s H)
           (fun tx H => H)).
  apply short_response_R1.
Qed.

Ltac case_if H :=
  revert H;
  match goal with
  | |- (if ?c then _ else _) _ = _ -> _ =>
      let E := fresh "E" in destruct c eqn:E
  end; cbv iota; intros H; try discriminate H.

(** A command whose R1 is awaited: the log grows by exchanges that move no
    block, and no buffer changes. *)
Lemma send_command_quiet (c a : Z) (r : list Z) (st st' : state)
    (o : outcome cmd_desc) :
  send_command exchange (Cmd_desc c a r R1_LEN) st = (o, st') ->
  mem st' = mem st
  /\ exists t, trace st' = trace st ++ t
               /\ blocks_received t = [] /\ blocks_sent t = [].
Proof.
  intros H. split.
  - exact (run_keeps_mem _ _ _ _ (keeps_mem_send_command _) H).
  - destruct (no_block_send_command c a r st) as (t & Ht & Hall).
    rewrite H in Ht. exists t. split; [exact Ht|].
    split; [now apply no_block_received | now apply no_block_sent].
Qed.

(** A read in bounds that ends well, into a buffer that holds the bytes
    asked for. *)
Lemma sd_read_done (p : ptr) (address len : Z) (st st' : state) (a : unit) :
  sd_read exchange (Some p) address len st = (Ok a, st') ->
  0 <= address -> 0 < len -> address + len <= 2 ^ 40 ->
  0 <= offset p -> offset p + len <= Z.of_nat (length (mem st (base p))) ->
  base p <> Stack_buff ->
  exists t,
    trace st' = trace st ++ t
    /\ Z.of_nat (length (blocks_received t)) = 512 * nblocks address len
    /\ mem st' (base p)
       = blit (mem st (base p)) (offset p)
              (slice (blocks_received t) (address mod 512) len).
Proof.
  intros H Ha Hl Hb Ho Hlen Hp. revert H. unfold sd_read. intros H.
  inv_bind_as H d s0 H0. injection H0 as <- <-.
  case_if H.
  inv_bind_as H cd s1 H1. apply send_command_quiet in H1.
  destruct H1 as (Hm1 & t1 & Ht1 & Hr1 & _).
  case_if H.
  inv_bind_as H u s2 H2.
  apply read_multiple_blocks_done in H2; try assumption;
    [| now rewrite Hm1].
  destruct H2 as (t2 & Ht2 & Hn2 & Hm2). rewrite Hm1 in Hm2.
  case_if H.
  - inv_bind_as H cd' s3 H3. apply send_command_quiet in H3.
    destruct H3 as (Hm3 & t3 & Ht3 & Hr3 & _).
    case_if H. injection H as _ <-.
    exists (t1 ++ t2 ++ t3).
    split; [rewrite Ht3, Ht2, Ht1, <- !app_assoc; reflexivity|].
    rewrite !blocks_received_app, Hr1, Hr3, app_nil_r. cbn [app].
    split; [exact Hn2 | now rewrite Hm3].
  - injection H as _ <-. exists (t1 ++ t2).
    split; [rewrite Ht2, Ht1, <- !app_assoc; reflexivity|].
    rewrite !blocks_received_app, Hr1. cbn [app].
    split; [exact Hn2 | exact Hm2].
Qed.

(** X6: a block read that returns NO_OS_SUCCESS.  The log grew by polls
    that brought 0xFF, the poll that brought the start token 0xFE, one
    successful exchange of 512 bytes 0xFF and one of two bytes 0xFF for the
    CRC, which nobody looks at; the 512 bytes received are now at [data],
    and every other byte of every buffer is as it was. *)
Theorem block_read_fills_the_buffer (data : ptr) (st st' : state) (a : unit) :
  read_block exchange data st = (Ok a, st') ->
  0 <= offset data <= Z.of_nat (length (mem st (base data))) ->
  exists n rx crc,
    trace st' = trace st ++ repeat (poll 0xFF) n
                  ++ [poll START_1_BLOCK_TOKEN;
                      Xfer (repeat 0xFF 512) rx true;
                      Xfer [0xFF; 0xFF] crc true]
    /\ length rx = 512%nat
    /\ forall b, mem st' b = if buf_id_eqb (base data) b
                             then blit (mem st (base data)) (offset data) rx
                             else mem st b.
Proof. apply read_block_ok. Qed.

(** X7: a block write that returns NO_OS_SUCCESS.  The log grew by the
    exchange of the token (0xFE when the command writes one block, 0xFC
    otherwise), the exchange of the 512 bytes at [data], the exchange of
    two bytes 0xFF in the place of the CRC, the polls for the data
    response, whose bits 1 to 3 are 010, and the polls that brought 0x00
    while the card was busy.  The bytes that came back while the block went
    out are now at [data] in its place; every other buffer is as it was. *)
Theorem block_write_overwrites_the_buffer (data : ptr) (nb : Z)
    (st st' : state) (a : unit) :
  write_block exchange data nb st = (Ok a, st') ->
  exists r1 rx crc n1 b1 n2 b2,
    trace st' = trace st
      ++ [Xfer [if nb =? 1 then START_1_BLOCK_TOKEN else START_N_BLOCK_TOKEN]
               r1 true;
          Xfer (slice (mem st (base data)) (offset data) DATA_BLOCK_LEN)
               rx true;
          Xfer [0xFF; 0xFF] crc true]
      ++ repeat (poll 0xFF) n1 ++ [poll b1]
      ++ repeat (poll 0x00) n2 ++ [poll b2]
    /\ Z.land b1 MASK_RESPONSE_TOKEN = 0x4 /\ b2 <> 0x00
    /\ length rx
       = length (slice (mem st (base data)) (offset data) DATA_BLOCK_LEN)
    /\ forall buf, mem st' buf
                   = if buf_id_eqb (base data) buf
                     then blit (mem st (base data)) (offset data) rx
                     else mem st buf.
Proof. apply write_block_done. Qed.

(** X8: what a read delivers.  When [sd_read] returns NO_OS_SUCCESS for a
    request of [len > 0] bytes at [address] that ends within [2 ^ 40], into
    a buffer that has room for them, the exchanges of 512 bytes in its log
    are as many as the request has blocks, and the caller's buffer holds,
    in the place of its first [len] bytes, the [len] bytes that start at
    [address mod 512] in the blocks received; the rest of the buffer is as
    it was. *)
Theorem read_delivers_the_blocks (p : ptr) (address len : Z)
    (st st' : state) (a : unit) :
  sd_read exchange (Some p) address len st = (Ok a, st') ->
  0 <= address -> 0 < len -> address + len <= 2 ^ 40 ->
  0 <= offset p -> offset p + len <= Z.of_nat (length (mem st (base p))) ->
  base p <> Stack_buff ->
  exists t,
    trace st' = trace st ++ t
    /\ Z.of_nat (length (blocks_received t))
       = 512 * get_nb_of_blocks address len
    /\ mem st' (base p)
       = blit (mem st (base p)) (offset p)
              (slice (blocks_received t) (address mod 512) len).
Proof.
  intros H Ha Hl Hb Ho Hlen Hp.
  rewrite get_nb_of_blocks_in_bounds by assumption.
  eapply sd_read_done; eassumption.
Qed.

(** ** Blocks on their way to the card *)

Lemma firstn_plus {A} (a b : nat) (l : list A) :
  firstn (a + b) l = firstn a l ++ firstn b (skipn a l).
Proof.
  revert l. induction a as [|a IH]; intros l; [reflexivity|].
  destruct l as [|x l]; cbn [Nat.add firstn skipn app].
  - now rewrite firstn_nil.
  - now rewrite IH.
Qed.

Lemma slice_app (m : list Z) (off a b : Z) :
  0 <= off -> 0 <= a -> 0 <= b ->
  slice m off a ++ slice m (off + a) b = slice m off (a + b).
Proof.
  intros Ho Ha Hb. unfold slice.
  replace (Z.to_nat (off + a)) with (Z.to_nat a + Z.to_nat off)%nat by lia.
  rewrite <- skipn_skipn.
  replace (Z.to_nat (a + b)) with (Z.to_nat a + Z.to_nat b)%nat by lia.
  now rewrite firstn_plus.
Qed.

Lemma skipn_more {A} (a b : nat) (l l' : list A) :
  skipn a l = skipn a l' -> skipn (b + a) l = skipn (b + a) l'.
Proof. intros H. now rewrite <- !skipn_skipn, H. Qed.

Lemma slice_skipn (l l' : list Z) (off n : Z) :
  skipn (Z.to_nat off) l = skipn (Z.to_nat off) l' ->
  slice l off n = slice l' off n.
Proof. intros H. unfold slice. now rewrite H. Qed.

Lemma skipn_blit (m rx : list Z) (off : Z) (k : nat) :
  0 <= off <= Z.of_nat (length m) ->
  skipn (k + (Z.to_nat off + length rx)) (blit m off rx)
  = skipn (k + (Z.to_nat off + length rx)) m.
Proof.
  intros Ho. apply skipn_more. unfold blit.
  rewrite app_assoc.
  replace (Z.to_nat off + length rx)%nat
    with (Z.to_nat off + length rx + 0)%nat at 1 by lia.
  rewrite skipn_app_exact by (rewrite length_app, length_firstn; lia).
  reflexivity.
Qed.

Lemma slice_blit (m c : list Z) (off : Z) :
  0 <= off <= Z.of_nat (length m) ->
  slice (blit m off c) off (Z.of_nat (length c)) = c.
Proof.
  intros Ho. unfold slice, blit.
  replace (Z.to_nat off) with (Z.to_nat off + 0)%nat at 1 by lia.
  rewrite skipn_app_exact by (rewrite length_firstn; lia).
  cbn [skipn]. rewrite Nat2Z.id. now apply firstn_app_exact.
Qed.

(** The one block in the log of a block write. *)
Lemma write_block_log (tok r1 tx rx crc : list Z) (n1 n2 : nat) (b1 b2 : Z) :
  length tx = 512%nat -> (length tok <= 18)%nat ->
  blocks_sent
    ([Xfer tok r1 true; Xfer tx rx true; Xfer [0xFF; 0xFF] crc true]
     ++ repeat (poll 0xFF) n1 ++ [poll b1]
     ++ repeat (poll 0x00) n2 ++ [poll b2]) = tx
  /\ blocks_received
    ([Xfer tok r1 true; Xfer tx rx true; Xfer [0xFF; 0xFF] crc true]
     ++ repeat (poll 0xFF) n1 ++ [poll b1]
     ++ repeat (poll 0x00) n2 ++ [poll b2]) = rx.
Proof.
  intros Htx Htok.
  assert (Hq : Forall (fun e => is_block e = false)
                 (repeat (poll 0xFF) n1 ++ [poll b1]
                  ++ repeat (poll 0x00) n2 ++ [poll b2])).
  { repeat (apply Forall_app; split);
      try apply no_block_polls; repeat constructor. }
  rewrite blocks_sent_app, blocks_received_app.
  rewrite (no_block_sent _ Hq), (no_block_received _ Hq), !app_nil_r.
  unfold blocks_sent, blocks_received. cbn [filter].
  rewrite (is_block_short tok) by exact Htok.
  rewrite (is_block_length tx) by exact Htx.
  change (is_block (Xfer [0xFF; 0xFF] crc true)) with false.
  cbn [flat_map x_tx x_rx]. now rewrite !app_nil_r.
Qed.

(** A block that goes out from a block array [B] of the driver, after the
    caller's bytes were copied in at [fidx]. *)
Lemma write_via_array (B : buf_id) (p : ptr) (nb idx fidx cl : Z)
    (s1 s2 : state) (u : unit) :
  bind (memcpy (Ptr B fidx) (ptr_add p idx) cl)
       (fun _ => write_block exchange (Ptr B 0) nb) s1 = (Ok u, s2) ->
  0 <= offset p + idx ->
  offset p + idx + cl <= Z.of_nat (length (mem s1 (base p))) ->
  base p <> B -> 0 <= fidx -> 0 <= cl -> fidx + cl <= 512 ->
  length (mem s1 B) = 512%nat ->
  exists delta tx,
    trace s2 = trace s1 ++ delta
    /\ blocks_sent delta = tx /\ length tx = 512%nat
    /\ slice tx fidx cl = slice (mem s1 (base p)) (offset p + idx) cl
    /\ length (mem s2 B) = 512%nat
    /\ (forall b, b <> B -> mem s2 b = mem s1 b)
    /\ tx = blit (mem s1 B) fidx
               (slice (mem s1 (base p)) (offset p + idx) cl).
Proof.
  intros H Ho Hlen Hp Hf Hc Hfc HB.
  inv_bind_as H u1 s H1. apply memcpy_done in H1. destruct H1 as [Ht1 Hm1].
  cbn [base offset ptr_add] in Hm1.
  apply write_block_done in H.
  destruct H as (r1 & rx & crc & n1 & b1 & n2 & b2 & Ht & _ & _ & Hl & Hm).
  cbn [base offset] in Ht, Hl, Hm.
  set (c := slice (mem s1 (base p)) (offset p + idx) cl) in *.
  assert (Hcl : length c = Z.to_nat cl) by (apply slice_length; lia).
  assert (HB' : mem s B = blit (mem s1 B) fidx c)
    by (now rewrite Hm1, buf_id_eqb_refl).
  assert (HBl : length (mem s B) = 512%nat)
    by (rewrite HB', blit_length; lia).
  rewrite (slice_all (mem s B)) in Ht, Hl by exact HBl.
  rewrite HBl in Hl.
  eexists _, (mem s B). split; [rewrite Ht, Ht1; reflexivity|].
  split; [apply write_block_log; [exact HBl | destruct (nb =? 1); cbn; lia]|].
  split; [exact HBl|]. split; [| split; [| split]].
  - rewrite HB'. replace cl with (Z.of_nat (length c)) by lia.
    apply slice_blit. lia.
  - rewrite Hm, buf_id_eqb_refl. rewrite blit_length; lia.
  - intros b Hb. rewrite Hm, (buf_id_eqb_neq B b) by congruence.
    rewrite Hm1, (buf_id_eqb_neq B b) by congruence. reflexivity.
  - exact HB'.
Qed.

(** What a copy leaves of the bytes around it. *)
Lemma around_blit (m c : list Z) (off n : Z) :
  0 <= off -> 0 <= n -> off + n <= Z.of_nat (length m) ->
  length c = Z.to_nat n ->
  firstn (Z.to_nat off) (blit m off c) = firstn (Z.to_nat off) m
  /\ skipn (Z.to_nat (off + n)) (blit m off c)
     = skipn (Z.to_nat (off + n)) m.
Proof.
  intros Ho Hn Hl Hc. split.
  - unfold blit. apply firstn_app_exact. rewrite length_firstn. lia.
  - replace (Z.to_nat (off + n)) with (0 + (Z.to_nat off + length c))%nat
      by lia.
    apply skipn_blit. lia.
Qed.

(** One turn of [write_multiple_blocks]: a block goes out that holds, at
    [fidx], the next [cl] bytes of the caller. *)
Lemma write_chunk (p : ptr) (nb i idx fidx cl : Z) (s1 s2 : state)
    (u : unit) :
  (if (fidx =? 0x0000) && (cl =? DATA_BLOCK_LEN)
   then write_block exchange (ptr_add p idx) nb
   else if i =? 0
        then bind (memcpy (ptr_add (Ptr Stack_first_block 0) fidx)
                     (ptr_add p idx) cl)
               (fun _ => write_block exchange (Ptr Stack_first_block 0) nb)
        else bind (memcpy (Ptr Stack_last_block 0) (ptr_add p idx) cl)
               (fun _ => write_block exchange (Ptr Stack_last_block 0) nb))
    s1 = (Ok u, s2) ->
  0 <= offset p + idx ->
  offset p + idx + cl <= Z.of_nat (length (mem s1 (base p))) ->
  base p <> Stack_first_block -> base p <> Stack_last_block ->
  0 <= fidx -> 0 <= cl -> fidx + cl <= 512 -> (i <> 0 -> fidx = 0) ->
  length (mem s1 Stack_first_block) = 512%nat ->
  length (mem s1 Stack_last_block) = 512%nat ->
  exists delta tx,
    trace s2 = trace s1 ++ delta
    /\ blocks_sent delta = tx /\ length tx = 512%nat
    /\ slice tx fidx cl = slice (mem s1 (base p)) (offset p + idx) cl
    /\ skipn (Z.to_nat (offset p + idx + cl)) (mem s2 (base p))
       = skipn (Z.to_nat (offset p + idx + cl)) (mem s1 (base p))
    /\ length (mem s2 (base p)) = length (mem s1 (base p))
    /\ length (mem s2 Stack_first_block) = 512%nat
    /\ length (mem s2 Stack_last_block) = 512%nat
    /\ firstn (Z.to_nat fidx) tx
       = firstn (Z.to_nat fidx)
           (mem s1 (if i =? 0 then Stack_first_block else Stack_last_block))
    /\ skipn (Z.to_nat (fidx + cl)) tx
       = skipn (Z.to_nat (fidx + cl))
           (mem s1 (if i =? 0 then Stack_first_block else Stack_last_block))
    /\ (i = 0 \/ (fidx = 0 /\ cl = 512) ->
        mem s2 Stack_last_block = mem s1 Stack_last_block).
Proof.
  intros H Ho Hlen Hp1 Hp2 Hf Hc Hfc Hi Hfb Hlb. revert H.
  destruct (Z.eqb_spec fidx 0x0000) as [Hf0 | Hf0]; cbn [andb];
    [destruct (Z.eqb_spec cl DATA_BLOCK_LEN) as [Hc0 | Hc0];
       [| destruct (Z.eqb_spec i 0) as [Hi0 | Hi0]]
    | destruct (Z.eqb_spec i 0) as [Hi0 | Hi0]]; intros H.
  - (* a whole block, from the caller's buffer *)
    subst fidx cl. apply write_block_done in H.
    destruct H as (r1 & rx & crc & n1 & b1 & n2 & b2 & Ht & _ & _ & Hl & Hm).
    cbn [base offset ptr_add] in Ht, Hl, Hm.
    set (tx := slice (mem s1 (base p)) (offset p + idx) DATA_BLOCK_LEN) in *.
    assert (Htx : length tx = 512%nat)
      by (apply slice_length; unfold DATA_BLOCK_LEN in *; lia).
    rewrite Htx in Hl.
    eexists _, tx. split; [exact Ht|].
    split; [apply write_block_log;
            [exact Htx | destruct (nb =? 1); cbn; lia]|].
    split; [exact Htx|]. split; [now apply slice_all|].
    rewrite !Hm, buf_id_eqb_refl.
    rewrite !(buf_id_eqb_neq (base p)) by congruence.
    split; [| split; [| split; [assumption | split; [assumption|]]]].
    + replace (Z.to_nat (offset p + idx + DATA_BLOCK_LEN))
        with (0 + (Z.to_nat (offset p + idx) + length rx))%nat
        by (unfold DATA_BLOCK_LEN; lia).
      apply skipn_blit. unfold DATA_BLOCK_LEN in *. lia.
    + apply blit_length; unfold DATA_BLOCK_LEN in *; lia.
    + split; [reflexivity|]. split; [| reflexivity].
      rewrite !skipn_all2; [reflexivity | |].
      * destruct (i =? 0); unfold DATA_BLOCK_LEN; lia.
      * unfold DATA_BLOCK_LEN. lia.
  - (* the first block, in part *)
    subst i. apply write_via_array in H; try assumption.
    destruct H as (delta & tx & Ht & Hs & Hl & Hx & HB & Hm & Htx).
    exists delta, tx. repeat (split; [assumption|]).
    rewrite !(Hm (base p)) by assumption.
    rewrite (Hm Stack_last_block) by discriminate.
    split; [reflexivity|]. split; [reflexivity|]. split; [exact HB|].
    split; [exact Hlb|]. change (0 =? 0) with true. cbv iota.
    rewrite Htx.
    destruct (around_blit (mem s1 Stack_first_block)
                (slice (mem s1 (base p)) (offset p + idx) cl) fidx cl)
      as [Hpre Hpost]; try lia.
    { apply slice_length; lia. }
    split; [exact Hpre|]. split; [exact Hpost | reflexivity].
  - (* the last block, in part *)
    subst fidx. apply write_via_array in H; try assumption.
    destruct H as (delta & tx & Ht & Hs & Hl & Hx & HB & Hm & Htx).
    exists delta, tx. repeat (split; [assumption|]).
    rewrite !(Hm (base p)) by assumption.
    rewrite (Hm Stack_first_block) by discriminate.
    split; [reflexivity|]. split; [reflexivity|]. split; [exact Hfb|].
    split; [exact HB|].
    destruct (Z.eqb_spec i 0) as [Hi1 | _]; [contradiction|].
    rewrite Htx.
    destruct (around_blit (mem s1 Stack_last_block)
                (slice (mem s1 (base p)) (offset p + idx) cl) 0 cl)
      as [Hpre Hpost]; try lia.
    { apply slice_length; lia. }
    split; [exact Hpre|]. split; [exact Hpost|].
    intros [Hi1 | [_ Hc1]]; [contradiction | unfold DATA_BLOCK_LEN in *; lia].
  - (* the first block, from [fidx] on *)
    subst i. apply write_via_array in H; try assumption.
    destruct H as (delta & tx & Ht & Hs & Hl & Hx & HB & Hm & Htx).
    exists delta, tx. repeat (split; [assumption|]).
    rewrite !(Hm (base p)) by assumption.
    rewrite (Hm Stack_last_block) by discriminate.
    split; [reflexivity|]. split; [reflexivity|]. split; [exact HB|].
    split; [exact Hlb|]. change (0 =? 0) with true. cbv iota.
    rewrite Htx.
    destruct (around_blit (mem s1 Stack_first_block)
                (slice (mem s1 (base p)) (offset p + idx) cl) fidx cl)
      as [Hpre Hpost]; try lia.
    { apply slice_length; lia. }
    split; [exact Hpre|]. split; [exact Hpost | reflexivity].
  - now specialize (Hi Hi0).
Qed.

(** The blocks of a write that ends well: taken together, they hold the
    caller's bytes from [address mod 512] on; before these bytes they hold
    what [first_block] held, and behind them what the block array of the
    last block held. *)
Lemma write_multiple_blocks_done (p : ptr) (address len : Z)
    (st st' : state) (a : unit) :
  write_multiple_blocks exchange p address len
    (Ptr Stack_first_block 0) (Ptr Stack_last_block 0) st = (Ok a, st') ->
  0 <= address -> 0 < len -> address + len <= 2 ^ 40 ->
  0 <= offset p -> offset p + len <= Z.of_nat (length (mem st (base p))) ->
  base p <> Stack_first_block -> base p <> Stack_last_block ->
  length (mem st Stack_first_block) = 512%nat ->
  length (mem st Stack_last_block) = 512%nat ->
  exists t,
    trace st' = trace st ++ t
    /\ Z.of_nat (length (blocks_sent t)) = 512 * nblocks address len
    /\ slice (blocks_sent t) (address mod 512) len
       = slice (mem st (base p)) (offset p) len
    /\ firstn (Z.to_nat (address mod 512)) (blocks_sent t)
       = firstn (Z.to_nat (address mod 512)) (mem st Stack_first_block)
    /\ skipn (Z.to_nat (address mod 512 + len)) (blocks_sent t)
       = skipn (Z.to_nat ((address + len - 1) mod 512 + 1))
           (mem st (if nblocks address len =? 1
                    then Stack_first_block else Stack_last_block)).
Proof.
  intros H Ha Hl Hb Ho Hlen Hp1 Hp2 Hfb Hlb.
  assert (Hnb : get_nb_of_blocks address len = nblocks address len)
    by (apply get_nb_of_blocks_in_bounds; lia).
  assert (Hnb' : 1 <= nblocks address len <= 2 ^ 31)
    by (unfold nblocks; Z.div_mod_to_equations; lia).
  pose proof (Z.mod_pos_bound address 512 ltac:(lia)) as Hfi.
  set (fi := address mod 512) in *.
  set (nb := nblocks address len) in *.
  set (e := (address + len - 1) mod 512 + 1).
  assert (He : e = fi + len - 512 * (nb - 1) /\ 0 < e <= 512)
    by (unfold e, fi, nb, nblocks; Z.div_mod_to_equations; lia).
  pose proof (loop_rule
    (write_multiple_blocks_body exchange p address len
       (Ptr Stack_first_block 0) (Ptr Stack_last_block 0))
    (fun s st1 =>
       0 <= fst s <= nb
       /\ snd s = data_idx_at address len (fst s)
       /\ length (mem st1 (base p)) = length (mem st (base p))
       /\ skipn (Z.to_nat (offset p + snd s)) (mem st1 (base p))
          = skipn (Z.to_nat (offset p + snd s)) (mem st (base p))
       /\ length (mem st1 Stack_first_block) = 512%nat
       /\ length (mem st1 Stack_last_block) = 512%nat
       /\ (fst s = 0 -> mem st1 Stack_first_block = mem st Stack_first_block)
       /\ (fst s < nb -> mem st1 Stack_last_block = mem st Stack_last_block)
       /\ exists t, trace st1 = trace st ++ t
            /\ Z.of_nat (length (blocks_sent t)) = 512 * fst s
            /\ slice (blocks_sent t) fi (snd s)
               = slice (mem st (base p)) (offset p) (snd s)
            /\ (1 <= fst s ->
                firstn (Z.to_nat fi) (blocks_sent t)
                = firstn (Z.to_nat fi) (mem st Stack_first_block))
            /\ (fst s = nb ->
                skipn (Z.to_nat (fi + len)) (blocks_sent t)
                = skipn (Z.to_nat e)
                    (mem st (if nb =? 1
                             then Stack_first_block else Stack_last_block))))
    (fun o st1 =>
       match o with
       | Ok (Break _) =>
           exists t, trace st1 = trace st ++ t
             /\ Z.of_nat (length (blocks_sent t)) = 512 * nb
             /\ slice (blocks_sent t) fi len
                = slice (mem st (base p)) (offset p) len
             /\ firstn (Z.to_nat fi) (blocks_sent t)
                = firstn (Z.to_nat fi) (mem st Stack_first_block)
             /\ skipn (Z.to_nat (fi + len)) (blocks_sent t)
                = skipn (Z.to_nat e)
                    (mem st (if nb =? 1
                             then Stack_first_block else Stack_last_block))
       | Ok (Continue _) => False
       | Err => True
       | OutOfFuel => False
       end)
    (fun s => nb - fst s) 32%nat (0, 0) st) as HR.
  rewrite write_multiple_blocks_loop in H. rewrite H in HR.
  apply HR; clear HR H.
  - intros [i idx] s1 (Hi & Hidx & Hml & Hsk & Hfb1 & Hlb1 & HF & HL
                       & t & Ht & HB & Hs & HP & HS).
    cbn [fst snd] in *.
    unfold write_multiple_blocks_body.
    destruct (Z.ltb_spec i (get_nb_of_blocks address len)) as [Hlt | Hge];
      cbn [negb]; rewrite Hnb in *.
    + destruct (chunk_in_bounds address len i Ha Hl Hb ltac:(lia))
        as (Hf & Hc & Hd & Hpos & Hle & Hnext).
      rewrite Hnb in Hc. fold fi in Hf, Hd. fold nb in Hc.
      unfold bind at 1.
      match goal with
      | |- context [(if ?c then ?A else ?B) s1] =>
          destruct ((if c then A else B) s1) as [[u| |] s2] eqn:E
      end.
      * apply write_chunk in E; try assumption.
        -- destruct E as (delta & tx & Ht2 & Htx & Hl2 & Hx & Hsk2 & Hml2
                          & Hfb2 & Hlb2 & Hpre & Hpost & Hkeep).
           rewrite Hc, Hidx in *.
           set (d0 := data_idx_at address len i) in *.
           set (d1 := data_idx_at address len (i + 1)) in *.
           replace (offset p + d0 + (d1 - d0)) with (offset p + d1)
             in Hsk2 by lia.
           assert (Hd1 : i + 1 < nb -> d1 = 512 * (i + 1) - fi).
           { intros Hi1. unfold d1, data_idx_at. fold fi.
             unfold nb, nblocks, fi in *. Z.div_mod_to_equations. lia. }
           assert (Hd1' : i + 1 = nb -> d1 = len).
           { intros Hi1. unfold d1. rewrite Hi1. unfold nb.
             apply data_idx_at_end; lia. }
           unfold ret. cbn [fst snd].
           rewrite u32_small by lia.
           rewrite u64_small by (unfold d0, d1, data_idx_at in *; lia).
           replace (d0 + (d1 - d0)) with d1 by lia.
           split; [| lia]. split; [lia|]. split; [reflexivity|].
           split; [congruence|]. split.
           { rewrite Hsk2.
             replace (Z.to_nat (offset p + d1))
               with (Z.to_nat (d1 - d0) + Z.to_nat (offset p + d0))%nat
               by (unfold d0, d1, data_idx_at in *; lia).
             now apply skipn_more. }
           split; [exact Hfb2|]. split; [exact Hlb2|].
           split; [intros; lia|]. split.
           { intros Hi1. rewrite Hkeep; [apply HL; lia|].
             destruct (Z.eq_dec i 0) as [Hi0 | Hi0]; [now left | right].
             split; [rewrite Hf; destruct (Z.eqb_spec i 0); [lia | reflexivity]
                    |].
             rewrite (Hd1 Hi1).
             destruct (Z.eqb_spec i 0); [contradiction | lia]. }
           exists (t ++ delta). split; [now rewrite Ht2, Ht, app_assoc|].
           rewrite blocks_sent_app, Htx, length_app. split; [lia|].
           split.
           { rewrite (slice_skipn _ _ _ _ Hsk) in Hx.
             replace d1 with (d0 + (d1 - d0)) by lia.
             rewrite <- (slice_app (mem st (base p)))
               by (unfold d0, d1, data_idx_at in *; lia).
             rewrite <- Hs, <- Hx.
             symmetry. apply (slice_blocks_step _ _ _ _ _ _ i); lia. }
           split.
           { intros _. destruct (Z.eq_dec i 0) as [Hi0 | Hi0].
             - subst i. destruct (blocks_sent t); [| cbn [length] in HB; lia].
               cbn [app]. rewrite Hf in Hpre. change (0 =? 0) with true in *.
               cbv iota in Hpre. rewrite Hpre, HF by reflexivity.
               reflexivity.
             - rewrite firstn_app.
               replace (Z.to_nat fi - length (blocks_sent t))%nat
                 with 0%nat by lia.
               cbn [firstn]. rewrite app_nil_r. apply HP. lia. }
           intros Hi1.
           rewrite skipn_app.
           rewrite (skipn_all2 (blocks_sent t)) by lia. cbn [app].
           replace (Z.to_nat (fi + len) - length (blocks_sent t))%nat
             with (Z.to_nat (buff_first_idx address i + (d1 - d0)))
             by (rewrite Hf, (Hd1' Hi1), Hd;
                 destruct (Z.eqb_spec i 0); lia).
           rewrite Hpost.
           replace (buff_first_idx address i + (d1 - d0)) with e
             by (rewrite Hf, (Hd1' Hi1), Hd;
                 destruct (Z.eqb_spec i 0); lia).
           destruct (Z.eqb_spec i 0) as [Hi0 | Hi0];
             destruct (Z.eqb_spec nb 1) as [Hn1 | Hn1]; try lia.
           ++ now rewrite HF.
           ++ rewrite HL by lia. reflexivity.
        -- unfold data_idx_at in *; lia.
        -- rewrite Hml, Hc, Hidx. lia.
        -- rewrite Hf. destruct (i =? 0); lia.
        -- rewrite Hc. lia.
        -- rewrite Hc. lia.
        -- intros Hi0. rewrite Hf.
           destruct (Z.eqb_spec i 0); [contradiction | reflexivity].
      * exact I.
      * match type of E with
        | ?m s1 = _ =>
            assert (Hsafe : safe m)
              by (destruct (_ && _); [| destruct (i =? 0)]; safe_tac)
        end.
        destruct (Hsafe s1) as [Hne _]. rewrite E in Hne. now apply Hne.
    + unfold ret. assert (i = nb) by lia. subst i.
      unfold nb in Hidx. rewrite data_idx_at_end in Hidx by lia. subst idx.
      exists t. repeat (split; [assumption|]).
      split; [apply HP; lia | now apply HS].
  - intros s s1 (Hi & _). lia.
  - cbn [fst snd]. split; [lia|].
    split; [unfold data_idx_at; lia|].
    split; [reflexivity|]. split; [reflexivity|].
    split; [exact Hfb|]. split; [exact Hlb|].
    split; [reflexivity|]. split; [reflexivity|].
    exists []. rewrite app_nil_r. split; [reflexivity|].
    split; [reflexivity|]. split.
    { unfold blocks_sent, slice. cbn [filter flat_map].
      now rewrite skipn_nil, firstn_nil. }
    split; intros; lia.
  - cbn [fst]. change (Z.of_nat 32) with 32. lia.
Qed.

(** ** The block arrays keep their length through a read-back *)

Lemma snd_bind {A B} (m : M A) (f : A -> M B) (st : state) :
  snd (bind m f st)
  = match m st with
    | (Ok a, st1) => snd (f a st1)
    | (_, st1) => st1
    end.
Proof. unfold bind. now destruct (m st) as [[a| |] st1]. Qed.

Lemma read_block_keeps_length (B : buf_id) (st : state) :
  length (mem st B) = 512%nat ->
  length (mem (snd (read_block exchange (Ptr B 0) st)) B) = 512%nat.
Proof.
  intros HB. unfold read_block. rewrite snd_bind.
  pose proof (keeps_mem_wait_for_response st) as Hm.
  destruct (wait_for_response exchange st) as [[r| |] s1];
    cbn [snd] in Hm; try (now rewrite Hm).
  assert (HB1 : length (mem s1 B) = 512%nat) by now rewrite Hm.
  clear Hm HB st.
  destruct (Z.land r MASK_ERROR_TOKEN =? 0); [exact HB1|].
  destruct (negb (r =? START_1_BLOCK_TOKEN)); [exact HB1|].
  cbn [base offset].
  rewrite snd_bind. unfold get_mem at 1.
  rewrite snd_bind. unfold set_mem at 1.
  rewrite snd_bind. rewrite exchange_mem_run. cbv zeta.
  cbn [base offset sd mem pipe trace]. rewrite buf_id_eqb_refl.
  set (m1 := memset (mem s1 B) 0 255 DATA_BLOCK_LEN).
  assert (Hm1 : length m1 = 512%nat)
    by (unfold m1; rewrite memset_length; unfold DATA_BLOCK_LEN; lia).
  destruct (exchange (spi_desc (sd s1)) (pipe s1) (slice m1 0 DATA_BLOCK_LEN))
    as [[ok rx] p'].
  cbn [fst snd].
  assert (Hb : length (blit m1 0 (received (slice m1 0 DATA_BLOCK_LEN) rx))
               = 512%nat).
  { rewrite blit_length; [exact Hm1 | lia |].
    rewrite received_length, slice_all by exact Hm1. lia. }
  destruct ok; cbn [mem]; [| now rewrite buf_id_eqb_refl].
  rewrite snd_bind. unfold set_buff_crc, bind, get_buff, set_buff.
  cbn [sd buff spi_desc memory_size mem pipe trace].
  rewrite exchange_buff_run. cbv zeta. cbn [snd mem].
  now rewrite buf_id_eqb_refl.
Qed.

Lemma one_block (a : Z) :
  0 <= a -> a mod 512 = 0 -> a + 512 <= 2 ^ 40 ->
  get_nb_of_blocks a 512 = 1
  /\ buff_first_idx a 0 = 0
  /\ buff_copy_len a 512 (get_nb_of_blocks a 512) 0 = 512.
Proof.
  intros Ha Hm Hb.
  assert (Hn : nblocks a 512 = 1)
    by (unfold nblocks; Z.div_mod_to_equations; lia).
  destruct (chunk_in_bounds a 512 0 Ha ltac:(lia) Hb ltac:(lia))
    as (Hf & Hc & _).
  rewrite get_nb_of_blocks_in_bounds by lia.
  split; [exact Hn|]. split; [now rewrite Hf|].
  rewrite get_nb_of_blocks_in_bounds in Hc by lia. rewrite Hc.
  unfold data_idx_at. rewrite Hm. lia.
Qed.

Lemma read_one_block_keeps_length (B : buf_id) (a : Z) (st : state) :
  0 <= a -> a mod 512 = 0 -> a + 512 <= 2 ^ 40 ->
  length (mem st B) = 512%nat ->
  length (mem (snd (read_multiple_blocks exchange (Ptr B 0) a
                      DATA_BLOCK_LEN st)) B) = 512%nat.
Proof.
  intros Ha Hm Hb HB. change DATA_BLOCK_LEN with 512.
  destruct (one_block a Ha Hm Hb) as (Hn & Hf & Hc). rewrite Hn in Hc.
  pose proof (loop_rule (read_multiple_blocks_body exchange (Ptr B 0) a 512)
    (fun s st1 => length (mem st1 B) = 512%nat
                  /\ ((fst s = 0 /\ snd s = 0) \/ fst s = 1))
    (fun _ st1 => length (mem st1 B) = 512%nat)
    (fun s => 1 - fst s) 32%nat (0, 0) st) as HR.
  match type of HR with ?A -> ?B -> ?C -> ?D -> ?E => assert (HE : E) end.
  { apply HR; clear HR.
    - intros [i idx] s1 (H1 & Hi). cbn [fst snd] in Hi.
      unfold read_multiple_blocks_body. rewrite Hn.
      destruct Hi as [[-> ->] | ->].
      + change (negb (0 <? 1)) with false. cbv iota.
        rewrite Hf, Hc.
        change ((0 =? 0) && (512 =? DATA_BLOCK_LEN)) with true. cbv iota.
        pose proof (read_block_keeps_length B s1 H1) as H2.
        unfold bind. change (ptr_add (Ptr B 0) 0) with (Ptr B 0).
        destruct (read_block exchange (Ptr B 0) s1) as [[v| |] s3];
          cbn [snd] in H2; unfold ret; cbn [fst snd]; try exact H2.
        change (u32 (0 + 1)) with 1.
        split; [split; [exact H2 | now right] | lia].
      + exact H1.
    - intros s s1 [_ [[-> _] | ->]]; lia.
    - cbn [fst snd]. split; [exact HB | now left].
    - cbn [fst]. change (Z.of_nat 32) with 32. lia. }
  clear HR. unfold read_multiple_blocks.
  destruct (loop 32 _ (0, 0) st) as [[u| |] s2]; exact HE.
Qed.

(** A read-back of the block at [a] into the block array [B]: the array
    keeps its 512 bytes, and no buffer but [B] changes, the block array of
    [read_multiple_blocks] apart. *)
Lemma read_back_keeps (B : buf_id) (a : Z) (st : state) :
  B <> Stack_buff -> 0 <= a -> a mod 512 = 0 -> a + 512 <= 2 ^ 40 ->
  (length (mem st B) = 512%nat ->
   length (mem (snd (sd_read exchange (Some (Ptr B 0)) a DATA_BLOCK_LEN st))
             B) = 512%nat)
  /\ forall b, b <> B -> b <> Stack_buff ->
       mem (snd (sd_read exchange (Some (Ptr B 0)) a DATA_BLOCK_LEN st)) b
       = mem st b.
Proof.
  intros HBs Ha Hm Hb. split.
  - intros HB. destruct (one_block a Ha Hm Hb) as (Hn & _).
    unfold sd_read. rewrite snd_bind. unfold get_sd.
    destruct (initial_checks _ _ _ _); [exact HB|].
    rewrite snd_bind.
    match goal with
    | |- context [send_command exchange ?cd st] =>
        pose proof (keeps_mem_send_command cd st) as Hk;
        destruct (send_command exchange cd st) as [[cd1| |] s1]
    end; cbn [snd] in Hk; try (now rewrite Hk).
    destruct (negb _); [unfold fail; cbn [snd]; now rewrite Hk|].
    rewrite snd_bind.
    assert (HB1 : length (mem s1 B) = 512%nat) by now rewrite Hk.
    pose proof (read_one_block_keeps_length B a s1 Ha Hm Hb HB1) as H2.
    destruct (read_multiple_blocks exchange (Ptr B 0) a DATA_BLOCK_LEN s1)
      as [[u| |] s2]; cbn [snd] in H2; try exact H2.
    change DATA_BLOCK_LEN with 512. rewrite Hn.
    change (negb (1 =? 1)) with false. exact H2.
  - intros b Hb1 Hb2. apply sd_read_writes. cbn [base].
    now rewrite !buf_id_eqb_neq by congruence.
Qed.

(** ** What a write sends *)

(** [sd_write] from its write command on, when it ends well. *)
Lemma sd_write_commit_done (p : ptr) (address len : Z)
    (st st' : state) (a : unit) :
  sd_write_commit exchange p address len st = (Ok a, st') ->
  0 <= address -> 0 < len -> address + len <= 2 ^ 40 ->
  0 <= offset p -> offset p + len <= Z.of_nat (length (mem st (base p))) ->
  base p <> Stack_first_block -> base p <> Stack_last_block ->
  length (mem st Stack_first_block) = 512%nat ->
  length (mem st Stack_last_block) = 512%nat ->
  exists t,
    trace st' = trace st ++ t
    /\ Z.of_nat (length (blocks_sent t)) = 512 * nblocks address len
    /\ slice (blocks_sent t) (address mod 512) len
       = slice (mem st (base p)) (offset p) len
    /\ firstn (Z.to_nat (address mod 512)) (blocks_sent t)
       = firstn (Z.to_nat (address mod 512)) (mem st Stack_first_block)
    /\ skipn (Z.to_nat (address mod 512 + len)) (blocks_sent t)
       = skipn (Z.to_nat ((address + len - 1) mod 512 + 1))
           (mem st (if nblocks address len =? 1
                    then Stack_first_block else Stack_last_block)).
Proof.
  intros H Ha Hl Hb Ho Hlen Hp1 Hp2 Hfb Hlb.
  revert H. unfold sd_write_commit. cbv zeta. intros H.
  inv_bind_as H cd s1 H1. apply send_command_quiet in H1.
  destruct H1 as (Hm1 & t1 & Ht1 & _ & Hs1).
  case_if H.
  inv_bind_as H u s2 H2.
  apply write_multiple_blocks_done in H2; try assumption;
    try (now rewrite Hm1).
  destruct H2 as (t2 & Ht2 & Hn2 & Hx2 & Hpre & Hpost).
  rewrite Hm1 in Hx2, Hpre, Hpost.
  case_if H.
  - inv_bind_as H b s3 H3. injection H3 as <- <-.
    inv_bind_as H u3 s4 H4. injection H4 as _ <-.
    inv_bind_as H u4 s5 H5. apply exchange_buff_done in H5.
    destruct H5 as (r & Ht5 & _). cbn [sd buff trace] in Ht5.
    apply wait_until_not_busy_ok in H.
    destruct H as (n & b2 & Ht6 & _ & _).
    set (t3 := [Xfer [STOP_TRANSMISSION_TOKEN; 0xFF] r true]
               ++ repeat (poll 0x00) n ++ [poll b2]).
    assert (Hq : blocks_sent t3 = []).
    { apply no_block_sent. repeat (apply Forall_app; split);
        try apply no_block_polls; repeat constructor. }
    exists (t1 ++ t2 ++ t3).
    split; [rewrite Ht6, Ht5, Ht2, Ht1; unfold t3;
            rewrite <- !app_assoc; reflexivity|].
    rewrite !blocks_sent_app, Hs1, Hq, app_nil_r. cbn [app]. auto.
  - injection H as _ <-. exists (t1 ++ t2).
    split; [rewrite Ht2, Ht1, <- !app_assoc; reflexivity|].
    rewrite !blocks_sent_app, Hs1. cbn [app]. auto.
Qed.

Lemma after_read_back_keeps (wanted : bool) (B : buf_id) (a : Z)
    (st : state) :
  B <> Stack_buff -> 0 <= a -> a mod 512 = 0 -> a + 512 <= 2 ^ 40 ->
  (length (mem st B) = 512%nat ->
   length (mem (after_read_back exchange wanted B a st) B) = 512%nat)
  /\ forall b, b <> B -> b <> Stack_buff ->
       mem (after_read_back exchange wanted B a st) b = mem st b.
Proof.
  intros HB Ha Hm Hb. unfold after_read_back.
  destruct wanted; [now apply read_back_keeps | auto].
Qed.

Lemma blit_all (m r : list Z) : length m = length r -> blit m 0 r = r.
Proof.
  intros H. unfold blit. cbn [Z.to_nat firstn app Nat.add].
  rewrite skipn_all2 by lia. apply app_nil_r.
Qed.

(** A read-back that ends well leaves the block it received in the block
    array. *)
Lemma read_back_done (B : buf_id) (a : Z) (st st' : state) (u : unit) :
  sd_read exchange (Some (Ptr B 0)) a DATA_BLOCK_LEN st = (Ok u, st') ->
  B <> Stack_buff -> 0 <= a -> a mod 512 = 0 -> a + 512 <= 2 ^ 40 ->
  length (mem st B) = 512%nat ->
  exists tr, trace st' = trace st ++ tr /\ mem st' B = blocks_received tr.
Proof.
  intros H HB Ha Hm Hb Hl.
  apply sd_read_done in H; try assumption;
    unfold DATA_BLOCK_LEN; cbn [base offset]; try lia.
  destruct H as (tr & Ht & Hn & Hmem). cbn [base offset] in Hmem.
  change DATA_BLOCK_LEN with 512 in Hn, Hmem.
  assert (Hone : nblocks a 512 = 1)
    by (unfold nblocks; Z.div_mod_to_equations; lia).
  rewrite Hone in Hn. rewrite Hm in Hmem.
  rewrite slice_all in Hmem by lia.
  rewrite blit_all in Hmem by lia.
  exists tr. auto.
Qed.

(** The parts of a write in bounds that ends well, from a buffer that
    holds the bytes to write: the read-backs, then the command and the
    blocks. *)
(** The one turn of [read_multiple_blocks] for a whole block. *)
Lemma read_one_block_done (B : buf_id) (a : Z) (st st' : state) (u : unit) :
  read_multiple_blocks exchange (Ptr B 0) a 512 st = (Ok u, st') ->
  0 <= a -> a mod 512 = 0 -> a + 512 <= 2 ^ 40 ->
  exists n rx crc,
    trace st' = trace st ++ repeat (poll 0xFF) n
                  ++ [poll START_1_BLOCK_TOKEN;
                      Xfer (repeat 0xFF 512) rx true;
                      Xfer [0xFF; 0xFF] crc true]
    /\ length rx = 512%nat
    /\ forall b, mem st' b = if buf_id_eqb B b
                             then blit (mem st B) 0 rx
                             else mem st b.
Proof.
  intros H Ha Hm Hb.
  destruct (one_block a Ha Hm Hb) as (Hn & Hf & Hc). rewrite Hn in Hc.
  set (done := fun st1 : state =>
    exists n rx crc,
      trace st1 = trace st ++ repeat (poll 0xFF) n
                    ++ [poll START_1_BLOCK_TOKEN;
                        Xfer (repeat 0xFF 512) rx true;
                        Xfer [0xFF; 0xFF] crc true]
      /\ length rx = 512%nat
      /\ forall b, mem st1 b = if buf_id_eqb B b
                               then blit (mem st B) 0 rx
                               else mem st b).
  pose proof (loop_rule (read_multiple_blocks_body exchange (Ptr B 0) a 512)
    (fun s st1 => (s = (0, 0) /\ st1 = st) \/ (fst s = 1 /\ done st1))
    (fun o st1 => match o with Ok (Break _) => done st1 | _ => True end)
    (fun s => 1 - fst s) 32%nat (0, 0) st) as HR.
  match type of HR with ?A -> ?B -> ?C -> ?D -> ?E => assert (HE : E) end.
  { apply HR; clear HR.
    - intros [i idx] s1 Hi.
      unfold read_multiple_blocks_body. rewrite Hn.
      destruct Hi as [[Hs ->] | [Hi Hd]].
      + injection Hs as -> ->.
        change (negb (0 <? 1)) with false. cbv iota.
        rewrite Hf, Hc.
        change ((0 =? 0) && (512 =? DATA_BLOCK_LEN)) with true. cbv iota.
        unfold bind. change (ptr_add (Ptr B 0) 0) with (Ptr B 0).
        destruct (read_block exchange (Ptr B 0) st) as [[v| |] s3] eqn:E;
          unfold ret; [| exact I | exact I].
        apply read_block_ok in E; [| cbn [base offset]; lia].
        cbn [base offset] in E. change (u32 (0 + 1)) with 1.
        split; [right; split; [reflexivity | exact E] | cbn [fst]; lia].
      + cbn [fst] in Hi. subst i.
        change (negb (1 <? 1)) with true. cbv iota. unfold ret. exact Hd.
    - intros s s1 [[-> _] | [-> _]]; cbn [fst]; lia.
    - now left.
    - cbn [fst]. change (Z.of_nat 32) with 32. lia. }
  clear HR. revert H HE. unfold read_multiple_blocks.
  intros H HE. rewrite H in HE. exact HE.
Qed.

(** A read-back that ends well: the exchanges of CMD17, then one block,
    which goes to the block array [B]. *)
Lemma read_back_log (B : buf_id) (a : Z) (st st' : state) (u : unit) :
  sd_read exchange (Some (Ptr B 0)) a 512 st = (Ok u, st') ->
  0 <= a -> a mod 512 = 0 -> a + 512 <= 2 ^ 40 ->
  exists t n rx crc,
    trace st' = trace st ++ t ++ repeat (poll 0xFF) n
                  ++ [poll START_1_BLOCK_TOKEN;
                      Xfer (repeat 0xFF 512) rx true;
                      Xfer [0xFF; 0xFF] crc true]
    /\ blocks_received t = []
    /\ length rx = 512%nat
    /\ mem st' B = blit (mem st B) 0 rx.
Proof.
  intros H Ha Hm Hb. destruct (one_block a Ha Hm Hb) as (Hn & _).
  revert H. unfold sd_read. intros H.
  inv_bind_as H d s0 H0. injection H0 as <- <-.
  case_if H.
  inv_bind_as H cd s1 H1. apply send_command_quiet in H1.
  destruct H1 as (Hm1 & t1 & Ht1 & Hr1 & _).
  case_if H.
  inv_bind_as H v s2 H2.
  apply read_one_block_done in H2; try assumption.
  destruct H2 as (n & rx & crc & Ht2 & Hl & Hm2).
  revert H. rewrite Hn. change (negb (1 =? 1)) with false. cbv iota.
  intros H. injection H as _ <-.
  exists t1, n, rx, crc.
  split; [rewrite Ht2, Ht1, <- !app_assoc; reflexivity|].
  split; [exact Hr1|]. split; [exact Hl|].
  rewrite Hm2, buf_id_eqb_refl, Hm1. reflexivity.
Qed.

Lemma sd_write_parts (p : ptr) (address len : Z) (st st' : state) (a : unit) :
  sd_write exchange (Some p) address len st = (Ok a, st') ->
  0 <= address -> 0 < len -> address + len <= 2 ^ 40 ->
  0 <= offset p -> offset p + len <= Z.of_nat (length (mem st (base p))) ->
  base p <> Stack_first_block -> base p <> Stack_last_block ->
  base p <> Stack_buff ->
  length (mem st Stack_first_block) = 512%nat ->
  length (mem st Stack_last_block) = 512%nat ->
  let a0 := Z.land address MASK_BLOCK_NUMBER in
  let a1 := Z.land (u64 (u64 (address + len) - 1)) MASK_BLOCK_NUMBER in
  let s1 := after_read_back exchange (reads_first_block address len)
              Stack_first_block a0 st in
  let s2 := after_read_back exchange (reads_last_block address len)
              Stack_last_block a1 s1 in
  snd (sd_write_read_back exchange address len st) = s2
  /\ (exists t0, trace s2 = trace st ++ t0)
  /\ (exists t,
        trace st' = trace s2 ++ t
        /\ Z.of_nat (length (blocks_sent t)) = 512 * nblocks address len
        /\ slice (blocks_sent t) (address mod 512) len
           = slice (mem st (base p)) (offset p) len
        /\ firstn (Z.to_nat (address mod 512)) (blocks_sent t)
           = firstn (Z.to_nat (address mod 512)) (mem s2 Stack_first_block)
        /\ skipn (Z.to_nat (address mod 512 + len)) (blocks_sent t)
           = skipn (Z.to_nat ((address + len - 1) mod 512 + 1))
               (mem s2 (if nblocks address len =? 1
                        then Stack_first_block else Stack_last_block)))
  /\ (forall u, reads_first_block address len = true ->
        sd_read exchange (Some (Ptr Stack_first_block 0)) a0 DATA_BLOCK_LEN st
        = (Ok u, s1) ->
        exists tr, trace s1 = trace st ++ tr
                   /\ mem s2 Stack_first_block = blocks_received tr)
  /\ (forall u, reads_last_block address len = true ->
        sd_read exchange (Some (Ptr Stack_last_block 0)) a1 DATA_BLOCK_LEN s1
        = (Ok u, s2) ->
        exists tr, trace s2 = trace s1 ++ tr
                   /\ mem s2 Stack_last_block = blocks_received tr).
Proof.
  intros H Ha Hl Hb Ho Hlen Hp1 Hp2 Hp3 Hfb Hlb a0 a1 s1 s2.
  assert (E : initial_checks (sd st) (Some p) address len = false).
  { revert H. unfold sd_write. unfold bind at 1. unfold get_sd.
    destruct (initial_checks _ _ _ _); [discriminate | reflexivity]. }
  rewrite (sd_write_run p address len st E) in H.
  rewrite sd_write_read_back_run in *. cbn [snd] in *.
  fold a0 a1 s1 s2 in H |- *.
  assert (Ea0 : a0 = 512 * (address / 512))
    by (unfold a0; apply land_block_number; lia).
  assert (Ea1 : a1 = 512 * ((address + len - 1) / 512)).
  { unfold a1. rewrite (u64_small (address + len)) by lia.
    rewrite (u64_small (address + len - 1)) by lia.
    apply land_block_number. lia. }
  assert (Ha0 : 0 <= a0 /\ a0 mod 512 = 0 /\ a0 + 512 <= 2 ^ 40)
    by (rewrite Ea0; Z.div_mod_to_equations; lia).
  assert (Ha1 : 0 <= a1 /\ a1 mod 512 = 0 /\ a1 + 512 <= 2 ^ 40)
    by (rewrite Ea1; Z.div_mod_to_equations; lia).
  clearbody a0 a1.
  destruct (after_read_back_keeps (reads_first_block address len)
              Stack_first_block a0 st ltac:(discriminate)
              (proj1 Ha0) (proj1 (proj2 Ha0)) (proj2 (proj2 Ha0)))
    as [Hk1 Hf1].
  destruct (after_read_back_keeps (reads_last_block address len)
              Stack_last_block a1 s1 ltac:(discriminate)
              (proj1 Ha1) (proj1 (proj2 Ha1)) (proj2 (proj2 Ha1)))
    as [Hk2 Hf2].
  fold s1 in Hk1, Hf1. fold s2 in Hk2, Hf2.
  assert (Hmp : mem s2 (base p) = mem st (base p))
    by (rewrite Hf2, Hf1 by assumption; reflexivity).
  assert (Hfb1 : length (mem s1 Stack_first_block) = 512%nat) by auto.
  assert (Hlb1 : length (mem s1 Stack_last_block) = 512%nat)
    by (rewrite Hf1 by discriminate; exact Hlb).
  assert (Hfb2 : length (mem s2 Stack_first_block) = 512%nat)
    by (rewrite Hf2 by discriminate; exact Hfb1).
  assert (Hlb2 : length (mem s2 Stack_last_block) = 512%nat) by auto.
  split; [reflexivity|]. split.
  { apply extends_trace.
    eapply extends_trans; apply after_read_back_extends. }
  split.
  { apply sd_write_commit_done in H; try assumption; [| now rewrite Hmp].
    destruct H as (t & Ht & Hn & Hx & Hpre & Hpost).
    exists t. rewrite Hmp in Hx. auto. }
  split.
  - intros u _ Hr.
    apply read_back_done in Hr; try tauto; try discriminate.
    destruct Hr as (tr & Htr & Hmr). exists tr. split; [exact Htr|].
    rewrite Hf2 by discriminate. exact Hmr.
  - intros u _ Hr.
    apply read_back_done in Hr; try tauto; try discriminate.
Qed.

(** A write in bounds that ends well, from a buffer that holds the bytes
    to write. *)
Lemma sd_write_done (p : ptr) (address len : Z) (st st' : state) (a : unit) :
  sd_write exchange (Some p) address len st = (Ok a, st') ->
  0 <= address -> 0 < len -> address + len <= 2 ^ 40 ->
  0 <= offset p -> offset p + len <= Z.of_nat (length (mem st (base p))) ->
  base p <> Stack_first_block -> base p <> Stack_last_block ->
  base p <> Stack_buff ->
  length (mem st Stack_first_block) = 512%nat ->
  length (mem st Stack_last_block) = 512%nat ->
  exists t0 t,
    trace (snd (sd_write_read_back exchange address len st)) = trace st ++ t0
    /\ trace st' = trace st ++ t0 ++ t
    /\ Z.of_nat (length (blocks_sent t)) = 512 * nblocks address len
    /\ slice (blocks_sent t) (address mod 512) len
       = slice (mem st (base p)) (offset p) len.
Proof.
  intros H Ha Hl Hb Ho Hlen Hp1 Hp2 Hp3 Hfb Hlb.
  destruct (sd_write_parts p address len st st' a H Ha Hl Hb Ho Hlen
              Hp1 Hp2 Hp3 Hfb Hlb)
    as (Hback & (t0 & Ht0) & (t & Ht & Hn & Hx & _) & _).
  rewrite Hback. exists t0, t. split; [exact Ht0|].
  split; [now rewrite Ht, Ht0, app_assoc|]. auto.
Qed.

Lemma three_parts (l : list Z) (off n : Z) :
  0 <= off -> 0 <= n ->
  l = firstn (Z.to_nat off) l ++ slice l off n
        ++ skipn (Z.to_nat (off + n)) l.
Proof.
  intros Ho Hn. unfold slice.
  rewrite Z2Nat.inj_add, Nat.add_comm, <- skipn_skipn by lia.
  now rewrite !firstn_skipn.
Qed.

(** A read-back within the card that returned NO_OS_SUCCESS has read one
    block into its block array. *)
Lemma read_back_step_block (needed : Prop) (buf : buf_id) (a : Z)
    (st st1 : state) :
  0 <= a -> a + 1 <= 2 ^ 40 ->
  read_back_step exchange needed buf (a / 512) st st1 ->
  read_back_block exchange needed buf (a / 512) st st1.
Proof.
  intros Ha Hb [Hy _] Hneed Hok. destruct (Hy Hneed) as [-> _].
  destruct (sd_read exchange (Some (Ptr buf 0)) (512 * (a / 512)) 512 st)
    as [o s] eqn:E.
  cbn [fst snd] in Hok |- *. subst o.
  apply read_back_log in E; [exact E | | |];
    Z.div_mod_to_equations; lia.
Qed.

(** C6: on a session, for a write within bounds with [len > 0], the log of
    [sd_write] is: the read of the first block into [first_block], done
    exactly when [address mod 512] is not 0 or the first block is not
    written in full; then the read of the last block into [last_block],
    done exactly when the last block is not the first and
    [(address + len - 1) mod 512] is not 511; then the command exchange of
    the write command.  Each of the two reads starts with the CMD17
    exchange for its block and, when it returns NO_OS_SUCCESS, ends with
    the start token, the exchange of one block of 512 bytes and its CRC,
    the bytes received being in the scratch block. *)
Theorem read_modify_write_policy (p : ptr) (address len : Z) (st : state) :
  session exchange (sd st) ->
  0 <= address -> 0 < len -> address + len <= memory_size (sd st) ->
  exists st1 st2 e t,
    read_back_step exchange (head_read_needed address len)
      Stack_first_block (address / 512) st st1
    /\ read_back_block exchange (head_read_needed address len)
         Stack_first_block (address / 512) st st1
    /\ read_back_step exchange (tail_read_needed address len)
         Stack_last_block ((address + len - 1) / 512) st1 st2
    /\ read_back_block exchange (tail_read_needed address len)
         Stack_last_block ((address + len - 1) / 512) st1 st2
    /\ trace (snd (sd_write exchange (Some p) address len st))
       = trace st2 ++ e :: t
    /\ x_tx e = command_exchange (if nblocks address len =? 1 then 24 else 25)
                                 (address / 512) 0xFF.
Proof.
  intros Hs Ha Hl Hb. destruct (session_memory_size _ Hs) as [_ Hms].
  destruct (sd_write_in_bounds p address len st Hs Ha Hl Hb)
    as (st1 & st2 & e & t & H1 & H2 & _ & Ht & He).
  exists st1, st2, e, t.
  split; [exact H1|].
  split; [apply read_back_step_block; [lia | lia | exact H1]|].
  split; [exact H2|].
  split; [apply read_back_step_block; [lia | lia | exact H2]|].
  split; [exact Ht|].
  rewrite He. rewrite Z.shiftr_div_pow2 by lia. reflexivity.
Qed.

(** C9: on a session, for a write within bounds with [len > 0], when a
    read-back of [sd_write] returns NO_OS_FAILURE, be it the one of the first
    block or the one of the last block, [sd_write] goes on all the same: what
    it does and returns is what the part from the write command on does and
    returns in the state the read-backs have left, scratch blocks included,
    and the next exchange is the command exchange of the write command.
    When the first block is one that is read back and the write returns
    success, the block it has sent is [first_block] as the read-backs have
    left it, with the caller's bytes for that block copied in at
    [address mod 512].  When the write returns success, from a buffer that
    holds the bytes to write, all it has sent in its blocks is: the first
    [address mod 512] bytes of [first_block] as the read-backs have left
    it, the caller's [len] bytes, and the bytes from
    [(address + len - 1) mod 512 + 1] on of [last_block] as the read-backs
    have left it, or of [first_block] when the write has one block. *)
Theorem failed_read_back_is_discarded (p : ptr) (address len : Z)
    (st st1 st2 : state) :
  session exchange (sd st) ->
  0 <= address -> 0 < len -> address + len <= memory_size (sd st) ->
  read_back_step exchange (head_read_needed address len)
    Stack_first_block (address / 512) st st1 ->
  read_back_step exchange (tail_read_needed address len)
    Stack_last_block ((address + len - 1) / 512) st1 st2 ->
  (head_read_needed address len
   /\ fst (sd_read exchange (Some (Ptr Stack_first_block 0))
             (512 * (address / 512)) 512 st) = Err)
  \/ (tail_read_needed address len
      /\ fst (sd_read exchange (Some (Ptr Stack_last_block 0))
                (512 * ((address + len - 1) / 512)) 512 st1) = Err) ->
  sd_write exchange (Some p) address len st
    = sd_write_commit exchange p address len st2
  /\ (exists e t,
        trace (snd (sd_write exchange (Some p) address len st))
          = trace st2 ++ e :: t
        /\ x_tx e = command_exchange
                      (if nblocks address len =? 1 then 24 else 25)
                      (address / 512) 0xFF)
  /\ (head_read_needed address len ->
      fst (sd_write exchange (Some p) address len st) = Ok tt ->
      exists t1 e t2,
        trace (snd (sd_write exchange (Some p) address len st))
          = trace st2 ++ t1 ++ e :: t2
        /\ x_tx e =
           slice (blit (mem st2 Stack_first_block) (address mod 512)
                       (slice (mem st2 (base p)) (offset p)
                              (Z.min len (512 - address mod 512))))
                 0 512)
  /\ (fst (sd_write exchange (Some p) address len st) = Ok tt ->
      0 <= offset p ->
      offset p + len <= Z.of_nat (length (mem st (base p))) ->
      base p <> Stack_first_block -> base p <> Stack_last_block ->
      base p <> Stack_buff ->
      length (mem st Stack_first_block) = 512%nat ->
      length (mem st Stack_last_block) = 512%nat ->
      exists t,
        trace (snd (sd_write exchange (Some p) address len st))
          = trace st2 ++ t
        /\ Z.of_nat (length (blocks_sent t)) = 512 * nblocks address len
        /\ blocks_sent t
           = firstn (Z.to_nat (address mod 512)) (mem st2 Stack_first_block)
             ++ slice (mem st (base p)) (offset p) len
             ++ skipn (Z.to_nat ((address + len - 1) mod 512 + 1))
                  (mem st2 (if nblocks address len =? 1
                            then Stack_first_block else Stack_last_block))).
Proof.
  intros Hs Ha Hl Hb H1 H2 _.
  destruct (session_memory_size _ Hs) as [_ Hms].
  destruct (sd_write_in_bounds p address len st Hs Ha Hl Hb)
    as (st1' & st2' & e & t & H1' & H2' & Hrb & Ht & He).
  assert (E1 : st1' = st1).
  { destruct H1 as [Hy Hn], H1' as [Hy' Hn'].
    destruct (reads_first_block address len) eqn:E.
    - apply reads_first_block_spec in E; try lia.
      rewrite (proj1 (Hy E)), (proj1 (Hy' E)). reflexivity.
    - assert (Hnot : ~ head_read_needed address len).
      { intros Hx. apply reads_first_block_spec in Hx; try lia. congruence. }
      now rewrite (Hn Hnot), (Hn' Hnot). }
  subst st1'.
  assert (E2 : st2' = st2).
  { destruct H2 as [Hy Hn], H2' as [Hy' Hn'].
    destruct (reads_last_block address len) eqn:E.
    - apply reads_last_block_spec in E; try lia.
      rewrite (proj1 (Hy E)), (proj1 (Hy' E)). reflexivity.
    - assert (Hnot : ~ tail_read_needed address len).
      { intros Hx. apply reads_last_block_spec in Hx; try lia. congruence. }
      now rewrite (Hn Hnot), (Hn' Hnot). }
  rewrite E2 in *.
  assert (Hrun : sd_write exchange (Some p) address len st
                 = sd_write_commit exchange p address len st2).
  { rewrite sd_write_run by (apply initial_checks_in_bounds; lia).
    now rewrite Hrb. }
  split; [exact Hrun | split; [| split]].
  - exists e, t. split; [exact Ht|].
    rewrite He. rewrite Z.shiftr_div_pow2 by lia. reflexivity.
  - intros Hhead Hok. rewrite Hrun in *.
    destruct (sd_write_commit exchange p address len st2) as [o st'] eqn:Ec.
    cbn [fst snd] in *. subst o.
    apply (sd_write_commit_first_block p address len st2 st'); try lia;
      assumption.
  - intros Hok Ho Hlen Hp1 Hp2 Hp3 Hfb Hlb. clear Hrun Ht.
    destruct (sd_write exchange (Some p) address len st) as [o st'] eqn:Ew.
    cbn [fst snd] in Hok |- *. subst o.
    pose proof (sd_write_parts p address len st st' tt Ew Ha Hl
                  ltac:(lia) Ho Hlen Hp1 Hp2 Hp3 Hfb Hlb) as P.
    cbv zeta in P.
    destruct P as (Hback & _ & (t' & Ht' & Hn & Hx & Hpre & Hpost) & _).
    rewrite <- Hback, Hrb in Ht', Hpre, Hpost.
    exists t'. split; [exact Ht' | split; [exact Hn|]].
    rewrite (three_parts (blocks_sent t') (address mod 512) len)
      by (try lia; apply Z.mod_pos_bound; lia).
    rewrite Hpre, Hx, Hpost. reflexivity.
Qed.

(** X9: what a write sends.  When [sd_write] returns NO_OS_SUCCESS for a
    request of [len > 0] bytes at [address] that ends within [2 ^ 40], from
    a buffer that holds them, then after its read-backs its log holds as
    many exchanges of 512 bytes as the request has blocks, and the [len]
    bytes that start at [address mod 512] in the blocks sent are the
    caller's bytes: they reach the card in the place where [sd_read] looks
    for them, whatever the read-backs brought. *)
Theorem write_sends_the_callers_bytes (p : ptr) (address len : Z)
    (st st' : state) (a : unit) :
  sd_write exchange (Some p) address len st = (Ok a, st') ->
  0 <= address -> 0 < len -> address + len <= 2 ^ 40 ->
  0 <= offset p -> offset p + len <= Z.of_nat (length (mem st (base p))) ->
  base p <> Stack_first_block -> base p <> Stack_last_block ->
  base p <> Stack_buff ->
  length (mem st Stack_first_block) = 512%nat ->
  length (mem st Stack_last_block) = 512%nat ->
  exists t0 t,
    trace (snd (sd_write_read_back exchange address len st)) = trace st ++ t0
    /\ trace st' = trace st ++ t0 ++ t
    /\ Z.of_nat (length (blocks_sent t))
       = 512 * get_nb_of_blocks address len
    /\ slice (blocks_sent t) (address mod 512) len
       = slice (mem st (base p)) (offset p) len.
Proof.
  intros H Ha Hl Hb Ho Hlen Hp1 Hp2 Hp3 Hfb Hlb.
  rewrite get_nb_of_blocks_in_bounds by assumption.
  eapply sd_write_done; eassumption.
Qed.

(** X14: what a write puts in front of the data.  When [sd_write] returns
    NO_OS_SUCCESS and the read-back of the first block was due and ended
    well, the bytes of the first block sent in front of the caller's data
    are the ones that read-back received; when the request lies in one
    block, so are the bytes sent behind the data. *)
Theorem write_keeps_the_head_of_the_first_block (p : ptr) (address len : Z)
    (st st' s1 : state) (a u : unit) :
  sd_write exchange (Some p) address len st = (Ok a, st') ->
  0 <= address -> 0 < len -> address + len <= 2 ^ 40 ->
  0 <= offset p -> offset p + len <= Z.of_nat (length (mem st (base p))) ->
  base p <> Stack_first_block -> base p <> Stack_last_block ->
  base p <> Stack_buff ->
  length (mem st Stack_first_block) = 512%nat ->
  length (mem st Stack_last_block) = 512%nat ->
  reads_first_block address len = true ->
  sd_read exchange (Some (Ptr Stack_first_block 0))
    (Z.land address MASK_BLOCK_NUMBER) DATA_BLOCK_LEN st = (Ok u, s1) ->
  exists tr t,
    trace s1 = trace st ++ tr
    /\ trace st'
       = trace (snd (sd_write_read_back exchange address len st)) ++ t
    /\ firstn (Z.to_nat (address mod 512)) (blocks_sent t)
       = firstn (Z.to_nat (address mod 512)) (blocks_received tr)
    /\ (get_nb_of_blocks address len = 1 ->
        skipn (Z.to_nat (address mod 512 + len)) (blocks_sent t)
        = skipn (Z.to_nat (address mod 512 + len)) (blocks_received tr)).
Proof.
  intros H Ha Hl Hb Ho Hlen Hp1 Hp2 Hp3 Hfb Hlb Hw Hr.
  pose proof (sd_write_parts p address len st st' a H Ha Hl Hb Ho Hlen
                Hp1 Hp2 Hp3 Hfb Hlb) as P.
  cbv zeta in P.
  assert (E1 : after_read_back exchange (reads_first_block address len)
                 Stack_first_block (Z.land address MASK_BLOCK_NUMBER) st
               = s1).
  { rewrite Hw. unfold after_read_back. rewrite Hr. reflexivity. }
  rewrite E1 in P.
  destruct P as (Hback & _ & (t & Ht & _ & _ & Hpre & Hpost) & Hfirst & _).
  destruct (Hfirst u Hw Hr) as (tr & Htr & Hm).
  exists tr, t. rewrite Hback.
  split; [exact Htr|]. split; [exact Ht|]. split.
  - rewrite Hpre, Hm. reflexivity.
  - intros H1. rewrite get_nb_of_blocks_in_bounds in H1 by assumption.
    rewrite H1 in Hpost. change (1 =? 1) with true in Hpost.
    cbv iota in Hpost. rewrite Hm in Hpost. rewrite Hpost.
    f_equal. f_equal. unfold nblocks in H1.
    Z.div_mod_to_equations. lia.
Qed.

(** X15: what a write puts behind the data.  When [sd_write] returns
    NO_OS_SUCCESS and the read-back of the last block was due and ended
    well, the bytes of the last block sent behind the caller's data are the
    ones that read-back received at the same place in the block. *)
Theorem write_keeps_the_tail_of_the_last_block (p : ptr) (address len : Z)
    (st st' s2 : state) (a u : unit) :
  sd_write exchange (Some p) address len st = (Ok a, st') ->
  0 <= address -> 0 < len -> address + len <= 2 ^ 40 ->
  0 <= offset p -> offset p + len <= Z.of_nat (length (mem st (base p))) ->
  base p <> Stack_first_block -> base p <> Stack_last_block ->
  base p <> Stack_buff ->
  length (mem st Stack_first_block) = 512%nat ->
  length (mem st Stack_last_block) = 512%nat ->
  reads_last_block address len = true ->
  sd_read exchange (Some (Ptr Stack_last_block 0))
    (Z.land (u64 (u64 (address + len) - 1)) MASK_BLOCK_NUMBER) DATA_BLOCK_LEN
    (after_read_back exchange (reads_first_block address len)
       Stack_first_block (Z.land address MASK_BLOCK_NUMBER) st)
  = (Ok u, s2) ->
  exists tr t,
    trace s2
    = trace (after_read_back exchange (reads_first_block address len)
               Stack_first_block (Z.land address MASK_BLOCK_NUMBER) st)
      ++ tr
    /\ trace st' = trace s2 ++ t
    /\ skipn (Z.to_nat (address mod 512 + len)) (blocks_sent t)
       = skipn (Z.to_nat ((address + len - 1) mod 512 + 1))
           (blocks_received tr).
Proof.
  intros H Ha Hl Hb Ho Hlen Hp1 Hp2 Hp3 Hfb Hlb Hw Hr.
  pose proof (sd_write_parts p address len st st' a H Ha Hl Hb Ho Hlen
                Hp1 Hp2 Hp3 Hfb Hlb) as P.
  cbv zeta in P.
  set (s1 := after_read_back exchange (reads_first_block address len)
               Stack_first_block (Z.land address MASK_BLOCK_NUMBER) st)
    in *.
  assert (E2 : after_read_back exchange (reads_last_block address len)
                 Stack_last_block
                 (Z.land (u64 (u64 (address + len) - 1)) MASK_BLOCK_NUMBER)
                 s1
               = s2).
  { rewrite Hw. unfold after_read_back. rewrite Hr. reflexivity. }
  rewrite E2 in P.
  destruct P as (_ & _ & (t & Ht & _ & _ & _ & Hpost) & _ & Hlast).
  destruct (Hlast u Hw Hr) as (tr & Htr & Hm).
  exists tr, t.
  split; [exact Htr|]. split; [exact Ht|].
  assert (Hn : (nblocks address len =? 1) = false).
  { apply Z.eqb_neq. intros Hn. revert Hw. unfold reads_last_block.
    rewrite (u64_small (address + len)) by lia.
    rewrite (u64_small (address + len - 1)) by lia.
    rewrite !land_block_number by lia.
    replace ((address + len - 1) / 512) with (address / 512)
      by (unfold nblocks in Hn; lia).
    rewrite Z.eqb_refl. discriminate. }
  rewrite Hn in Hpost. rewrite Hm in Hpost. exact Hpost.
Qed.

(** ** The response to a command *)

Lemma exchange_val_done (tx rx : list Z) (st st' : state) :
  exchange_val exchange tx st = (Ok rx, st') ->
  trace st' = trace st ++ [Xfer tx rx true]
  /\ length rx = length tx /\ mem st' = mem st.
Proof.
  rewrite exchange_val_run. cbv zeta.
  destruct (exchange (spi_desc (sd st)) (pipe st) tx) as [[ok rx'] p'].
  cbn [fst snd]. destruct ok; [| discriminate].
  intros H. injection H as <- <-. cbn [trace mem].
  split; [reflexivity|]. split; [apply received_length | reflexivity].
Qed.

Lemma set_buff_done (b : list Z) (st st' : state) (u : unit) :
  set_buff b st = (Ok u, st') ->
  trace st' = trace st /\ mem st' = mem st /\ buff (sd st') = b.
Proof. unfold set_buff. intros H. injection H as _ <-. auto. Qed.

(** A command exchange that ends well: the frame, the polls that brought
    0xFF, the poll that brought the first byte of the response and, when
    the response is longer than that, one exchange for the rest of it. *)
Lemma send_command_frame_done (cd cd' : cmd_desc) (st st' : state) :
  send_command_frame exchange cd st = (Ok cd', st') ->
  exists fr n r0 tail rest,
    trace st' = trace st ++ [Xfer (frame_of cd) fr true]
                  ++ repeat (poll 0xFF) n ++ [poll r0] ++ tail
    /\ r0 <> 0xFF
    /\ cd' = set_response cd (blit (store (response cd) 0 r0) 1 rest)
    /\ ((u32 (response_len cd - 1) = 0 /\ tail = [] /\ rest = [])
        \/ (0 < u32 (response_len cd - 1)
            /\ tail = [Xfer (repeat 0xFF
                               (Z.to_nat (u32 (response_len cd - 1))))
                            rest true]
            /\ length rest = Z.to_nat (u32 (response_len cd - 1)))).
Proof.
  intros H. revert H. unfold send_command_frame. intros H.
  inv_bind_as H b s0 H0. injection H0 as <- <-.
  inv_bind_as H u1 s1 H1. apply set_buff_done in H1.
  destruct H1 as (Ht1 & _ & Hb1).
  inv_bind_as H u2 s2 H2. apply exchange_buff_done in H2.
  destruct H2 as (fr & Ht2 & _). rewrite Ht1, Hb1 in Ht2.
  match type of Ht2 with
  | context [slice ?b 0 CMD_LEN] =>
      assert (Hb : slice b 0 CMD_LEN = frame_of cd)
  end.
  { unfold frame_of.
    destruct (cmd cd =? CMD 0); [apply frame_bytes_crc|].
    destruct (cmd cd =? CMD 8); [apply frame_bytes_crc | apply frame_bytes]. }
  rewrite Hb in Ht2. clear Hb.
  inv_bind_as H r0 s3 H3. apply wait_for_response_ok in H3.
  destruct H3 as (n & Ht3 & Hr0 & _).
  revert H. destruct (Z.ltb_spec 0 (u32 (response_len cd - 1))) as [Hlt | Hge];
    intros H.
  - inv_bind_as H rx s4 H4. apply exchange_val_done in H4.
    destruct H4 as (Ht4 & Hl4 & _). injection H as <- <-.
    exists fr, n, r0, [Xfer (repeat 0xFF (Z.to_nat (u32 (response_len cd - 1))))
                         rx true], rx.
    split; [rewrite Ht4, Ht3, Ht2, <- !app_assoc; reflexivity|].
    split; [exact Hr0|]. split; [reflexivity|]. right.
    split; [exact Hlt|]. split; [reflexivity|].
    now rewrite Hl4, repeat_length.
  - injection H as <- <-. exists fr, n, r0, [], [].
    split; [rewrite Ht3, Ht2, <- !app_assoc; reflexivity|].
    split; [exact Hr0|]. split; [now rewrite blit_nil|]. left.
    pose proof (u32_range (response_len cd - 1)). split; [lia | auto].
Qed.

(** X10: the response to a standard command.  When [send_command] returns
    NO_OS_SUCCESS for a command without the application bit, its log is the
    command exchange, polls that brought 0xFF, the poll that brought
    another byte, which is the first byte of the response, and, when
    [response_len - 1 > 0], one exchange of that many bytes 0xFF that
    brought the rest of the response; the command, the argument and the
    response length of the descriptor are as they were. *)
Theorem command_response (cd cd' : cmd_desc) (st st' : state) :
  Z.land (cmd cd) BIT_APPLICATION_CMD = 0 ->
  send_command exchange cd st = (Ok cd', st') ->
  exists fr n r0 tail rest,
    trace st' = trace st ++ [Xfer (frame_of cd) fr true]
                  ++ repeat (poll 0xFF) n ++ [poll r0] ++ tail
    /\ r0 <> 0xFF
    /\ cd' = Cmd_desc (cmd cd) (arg cd)
               (blit (store (response cd) 0 r0) 1 rest) (response_len cd)
    /\ ((u32 (response_len cd - 1) = 0 /\ tail = [] /\ rest = [])
        \/ (0 < u32 (response_len cd - 1)
            /\ tail = [Xfer (repeat 0xFF
                               (Z.to_nat (u32 (response_len cd - 1))))
                            rest true]
            /\ length rest = Z.to_nat (u32 (response_len cd - 1)))).
Proof.
  intros Hc. unfold send_command.
  rewrite send_command_not_application by exact Hc.
  apply send_command_frame_done.
Qed.

(** ** How a transfer of several blocks ends *)

Lemma load_store_0 (b : list Z) (v : Z) : load (store b 0 v) 0 = v.
Proof. reflexivity. Qed.

Lemma sd_read_stop (p : ptr) (address len : Z) (st st' : state) (a : unit) :
  get_nb_of_blocks address len <> 1 ->
  sd_read exchange (Some p) address len st = (Ok a, st') ->
  exists t fr n,
    trace st' = trace st ++ t
                  ++ [Xfer (frame_of (new_cmd_desc (CMD 12) STUFF_ARG R1_LEN))
                           fr true]
                  ++ repeat (poll 0xFF) n ++ [poll R1_READY_STATE].
Proof.
  intros Hnb H. revert H. unfold sd_read. intros H.
  inv_bind_as H d s0 H0. injection H0 as <- <-.
  case_if H.
  inv_bind_as H cd s1 H1.
  apply (run_extends _ _ _ _ (safe_send_command _)), extends_trace in H1.
  destruct H1 as [t1 Ht1].
  case_if H.
  inv_bind_as H u s2 H2.
  apply (run_extends _ _ _ _ (safe_read_multiple_blocks _ _ _)),
    extends_trace in H2.
  destruct H2 as [t2 Ht2].
  case_if H.
  - inv_bind_as H cd' s3 H3. revert H3. unfold send_command.
    rewrite send_command_not_application by reflexivity. intros H3.
    apply send_command_frame_done in H3.
    destruct H3 as (fr & n & r0 & tail & rest & Ht3 & _ & -> & Hcase).
    destruct Hcase as [(_ & -> & ->) | (Hlt & _)];
      [| exfalso; revert Hlt; cbn [response_len]; vm_compute; discriminate].
    cbn [set_response response] in H. rewrite blit_nil, load_store_0 in H.
    revert H. destruct (Z.eqb_spec r0 R1_READY_STATE) as [-> | Hr];
      cbn [negb]; intros H; [| discriminate].
    injection H as _ <-.
    exists (t1 ++ t2), fr, n.
    rewrite Ht3, Ht2, Ht1, app_nil_r, <- !app_assoc. reflexivity.
  - apply negb_false_iff, Z.eqb_eq in E1. contradiction.
Qed.

Lemma sd_write_stop (p : ptr) (address len : Z) (st st' : state) (a : unit) :
  get_nb_of_blocks address len <> 1 ->
  sd_write exchange (Some p) address len st = (Ok a, st') ->
  exists t r n b,
    trace st' = trace st ++ t
                  ++ [Xfer [STOP_TRANSMISSION_TOKEN; 0xFF] r true]
                  ++ repeat (poll 0x00) n ++ [poll b]
    /\ b <> 0x00.
Proof.
  intros Hnb H.
  assert (E : initial_checks (sd st) (Some p) address len = false).
  { revert H. unfold sd_write. unfold bind at 1. unfold get_sd.
    destruct (initial_checks _ _ _ _); [discriminate | reflexivity]. }
  rewrite (sd_write_run p address len st E) in H.
  set (s0 := snd (sd_write_read_back exchange address len st)) in *.
  assert (He : extends st s0) by apply safe_sd_write_read_back.
  apply extends_trace in He. destruct He as [t0 Ht0]. clearbody s0.
  revert H. unfold sd_write_commit. cbv zeta. intros H.
  inv_bind_as H cd s1 H1.
  apply (run_extends _ _ _ _ (safe_send_command _)), extends_trace in H1.
  destruct H1 as [t1 Ht1].
  case_if H.
  inv_bind_as H u s2 H2.
  apply (run_extends _ _ _ _ (safe_write_multiple_blocks _ _ _ _ _)),
    extends_trace in H2.
  destruct H2 as [t2 Ht2].
  case_if H.
  - inv_bind_as H b s3 H3. injection H3 as <- <-.
    inv_bind_as H u3 s4 H4. apply set_buff_done in H4.
    destruct H4 as (Ht4 & _ & Hb4).
    inv_bind_as H u4 s5 H5. apply exchange_buff_done in H5.
    destruct H5 as (r & Ht5 & _). rewrite Ht4, Hb4 in Ht5.
    apply wait_until_not_busy_ok in H.
    destruct H as (n & b2 & Ht6 & Hb2 & _).
    exists (t0 ++ t1 ++ t2), r, n, b2. split; [| exact Hb2].
    rewrite Ht6, Ht5, Ht2, Ht1, Ht0, <- !app_assoc. reflexivity.
  - apply negb_false_iff, Z.eqb_eq in E1. contradiction.
Qed.

(** X11: how a transfer of several blocks ends.  When the request has
    more than one block (by the count of the code), an [sd_read] that
    returns NO_OS_SUCCESS ended with the CMD12 exchange, polls that brought
    0xFF and the poll that brought R1 = 0x00; and, apart from that, an
    [sd_write] that returns NO_OS_SUCCESS ended with the exchange of the
    stop token 0xFD and one byte 0xFF, polls that brought 0x00 and a poll
    that brought another byte. *)
Theorem transfers_of_several_blocks_are_closed (p : ptr) (address len : Z)
    (st st' : state) (a : unit) :
  get_nb_of_blocks address len <> 1 ->
  (sd_read exchange (Some p) address len st = (Ok a, st') ->
   exists t fr n,
     trace st' = trace st ++ t
                   ++ [Xfer (frame_of (new_cmd_desc (CMD 12) STUFF_ARG R1_LEN))
                            fr true]
                   ++ repeat (poll 0xFF) n ++ [poll R1_READY_STATE])
  /\
  (sd_write exchange (Some p) address len st = (Ok a, st') ->
   exists t r n b,
     trace st' = trace st ++ t
                   ++ [Xfer [STOP_TRANSMISSION_TOKEN; 0xFF] r true]
                   ++ repeat (poll 0x00) n ++ [poll b]
     /\ b <> 0x00).
Proof.
  intros Hnb.
  split; intros H; [eapply sd_read_stop | eapply sd_write_stop];
    eassumption.
Qed.

(** ** Runs that end well from every state, and runs that never end *)

Lemma yields_ret {A} (a : A) (P : A -> Prop) :
  P a -> yields (@ret spi pipe_t A a) P.
Proof. intros H st. now exists a, st. Qed.

Lemma yields_bind {A B} (m : M A) (f : A -> M B) (P : A -> Prop)
    (Q : B -> Prop) :
  yields m P -> (forall a, P a -> yields (f a) Q) -> yields (bind m f) Q.
Proof.
  intros Hm Hf st. destruct (Hm st) as (a & st1 & E & Ha).
  unfold bind. rewrite E. now apply Hf.
Qed.

Lemma never_returns_bind {A B} (m : M A) (f : A -> M B) (P : A -> Prop) :
  yields m P -> (forall a, P a -> never_returns (f a)) ->
  never_returns (bind m f).
Proof.
  intros Hm Hf st. destruct (Hm st) as (a & st1 & E & Ha).
  unfold bind. rewrite E. now apply Hf.
Qed.

Lemma never_returns_first {A B} (m : M A) (f : A -> M B) :
  never_returns m -> never_returns (bind m f).
Proof.
  intros Hm st. specialize (Hm st). unfold bind.
  destruct (m st) as [[a| |] st1]; cbn [fst] in *;
    [discriminate | discriminate | reflexivity].
Qed.

Lemma loop_pow_leaves {S R} (body : S -> M (step S R)) (k : nat) (s : S)
    (st st' : state) (r : R) :
  body s st = (Ok (Break r), st') ->
  loop_pow k body s st = (Ok (Break r), st').
Proof.
  intros H. induction k as [|k IH]; [exact H|].
  cbn [loop_pow]. now rewrite IH.
Qed.

(** A loop whose first turn leaves it. *)
Lemma yields_loop_one {S R} (body : S -> M (step S R)) (k : nat) (s : S)
    (P : R -> Prop) :
  yields (body s) (fun x => exists r, x = Break r /\ P r) ->
  yields (loop k body s) P.
Proof.
  intros H st. destruct (H st) as (x & st1 & E & r & -> & Hr).
  exists r, st1. split; [| exact Hr].
  unfold loop, bind. now rewrite (loop_pow_leaves body k s st st1 r E).
Qed.

(** A loop whose second turn leaves it. *)
Lemma yields_loop_two {S R} (body : S -> M (step S R)) (k : nat) (s : S)
    (I : S -> Prop) (P : R -> Prop) :
  yields (body s) (fun x => exists s1, x = Continue s1 /\ I s1) ->
  (forall s1, I s1 ->
     yields (body s1) (fun x => exists r, x = Break r /\ P r)) ->
  yields (loop (Datatypes.S k) body s) P.
Proof.
  intros H1 H2 st. destruct (H1 st) as (x & st1 & E1 & s1 & -> & Hs1).
  destruct (H2 s1 Hs1 st1) as (y & st2 & E2 & r & -> & Hr).
  exists r, st2. split; [| exact Hr].
  assert (Hk : loop_pow (Datatypes.S k) body s st = (Ok (Break r), st2)).
  { clear H1 H2. induction k as [|k IH].
    - cbn [loop_pow]. now rewrite E1.
    - change (loop_pow (Datatypes.S (Datatypes.S k)) body s st)
        with (match loop_pow (Datatypes.S k) body s st with
              | (Ok (Continue s'), st') =>
                  loop_pow (Datatypes.S k) body s' st'
              | other => other
              end).
      now rewrite IH. }
  unfold loop, bind. now rewrite Hk.
Qed.

(** A loop no turn of which leaves it uses up its turns. *)
Lemma never_returns_loop {S R} (body : S -> M (step S R)) (I : S -> Prop)
    (k : nat) (s : S) :
  (forall s, I s ->
     yields (body s) (fun x => exists s', x = Continue s' /\ I s')) ->
  I s -> never_returns (loop k body s).
Proof.
  intros Hbody HI st.
  assert (Hk : forall k s st, I s ->
            exists s' st', loop_pow k body s st = (Ok (Continue s'), st')
                           /\ I s').
  { clear k s st HI. induction k as [|k IH]; intros s st HI.
    - destruct (Hbody s HI st) as (x & st1 & E & s' & -> & Hs').
      now exists s', st1.
    - cbn [loop_pow]. destruct (IH s st HI) as (s1 & st1 & E1 & H1).
      rewrite E1. now apply IH. }
  destruct (Hk k s st HI) as (s' & st' & E & _).
  unfold loop, bind. now rewrite E.
Qed.

(** ** Whole blocks written from the caller's buffer *)

Lemma whole_blocks (address len i : Z) :
  0 <= address -> 0 < len -> address + len <= 2 ^ 40 ->
  address mod 512 = 0 -> len mod 512 = 0 ->
  0 <= i < nblocks address len ->
  buff_first_idx address i = 0
  /\ buff_copy_len address len (get_nb_of_blocks address len) i = 512
  /\ 512 * nblocks address len = len.
Proof.
  intros Ha Hl Hb Hma Hml Hi.
  destruct (chunk_in_bounds address len i Ha Hl Hb Hi)
    as (Hf & Hc & _).
  assert (Hn : 512 * nblocks address len = len)
    by (unfold nblocks in *; Z.div_mod_to_equations; lia).
  split; [| split; [| exact Hn]].
  - rewrite Hf, Hma. now destruct (i =? 0).
  - rewrite Hc. unfold data_idx_at. rewrite Hma. lia.
Qed.

Lemma slice_after_blit (m r : list Z) (off n : Z) :
  0 <= off <= Z.of_nat (length m) ->
  slice (blit m off r) (off + Z.of_nat (length r)) n
  = slice m (off + Z.of_nat (length r)) n.
Proof.
  intros Ho. apply slice_skipn.
  replace (Z.to_nat (off + Z.of_nat (length r)))
    with (0 + (Z.to_nat off + length r))%nat by lia.
  now apply skipn_blit.
Qed.

Lemma write_whole_blocks_done (p : ptr) (address len : Z)
    (fb lb : ptr) (st st' : state) (a : unit) :
  write_multiple_blocks exchange p address len fb lb st = (Ok a, st') ->
  0 <= address -> 0 < len -> address + len <= 2 ^ 40 ->
  address mod 512 = 0 -> len mod 512 = 0 ->
  0 <= offset p -> offset p + len <= Z.of_nat (length (mem st (base p))) ->
  exists t,
    trace st' = trace st ++ t
    /\ blocks_sent t = slice (mem st (base p)) (offset p) len
    /\ Z.of_nat (length (blocks_received t)) = len
    /\ mem st' (base p)
       = blit (mem st (base p)) (offset p) (blocks_received t).
Proof.
  intros H Ha Hl Hb Hma Hml Ho Hlen.
  assert (Hnb : get_nb_of_blocks address len = nblocks address len)
    by (apply get_nb_of_blocks_in_bounds; lia).
  assert (Hnb' : 1 <= nblocks address len <= 2 ^ 31)
    by (unfold nblocks; Z.div_mod_to_equations; lia).
  assert (Hn : 512 * nblocks address len = len)
    by (apply (whole_blocks address len 0); lia).
  pose proof (loop_rule
    (write_multiple_blocks_body exchange p address len fb lb)
    (fun s st1 =>
       0 <= fst s <= nblocks address len /\ snd s = 512 * fst s
       /\ exists t, trace st1 = trace st ++ t
            /\ blocks_sent t = slice (mem st (base p)) (offset p) (snd s)
            /\ Z.of_nat (length (blocks_received t)) = snd s
            /\ mem st1 (base p)
               = blit (mem st (base p)) (offset p) (blocks_received t))
    (fun o st1 =>
       match o with
       | Ok (Break _) =>
           exists t, trace st1 = trace st ++ t
             /\ blocks_sent t = slice (mem st (base p)) (offset p) len
             /\ Z.of_nat (length (blocks_received t)) = len
             /\ mem st1 (base p)
                = blit (mem st (base p)) (offset p) (blocks_received t)
       | Ok (Continue _) => False
       | Err => True
       | OutOfFuel => False
       end)
    (fun s => nblocks address len - fst s) 32%nat (0, 0) st) as HR.
  rewrite write_multiple_blocks_loop in H. rewrite H in HR.
  apply HR; clear HR H.
  - intros [i idx] s1 (Hi & Hidx & t & Ht & Hs & Hr & Hm).
    cbn [fst snd] in *. subst idx.
    unfold write_multiple_blocks_body.
    destruct (Z.ltb_spec i (get_nb_of_blocks address len)) as [Hlt | Hge];
      cbn [negb]; rewrite Hnb in *.
    + destruct (whole_blocks address len i Ha Hl Hb Hma Hml ltac:(lia))
        as (Hf & Hc & _).
      rewrite Hnb in Hc. rewrite Hf, Hc.
      change ((0 =? 0) && (512 =? DATA_BLOCK_LEN)) with true. cbv iota.
      unfold bind at 1.
      destruct (write_block exchange (ptr_add p (512 * i))
                  (nblocks address len) s1) as [[u| |] s2] eqn:E.
      * apply write_block_done in E.
        destruct E as (r1 & rx & crc & n1 & b1 & n2 & b2 & Ht2 & _ & _
                       & Hl2 & Hm2).
        cbn [ptr_add base offset] in Ht2, Hl2, Hm2.
        assert (Hmlen : length (mem s1 (base p)) = length (mem st (base p)))
          by (rewrite Hm; apply blit_length; lia).
        assert (Htx : slice (mem s1 (base p)) (offset p + 512 * i)
                        DATA_BLOCK_LEN
                      = slice (mem st (base p)) (offset p + 512 * i) 512).
        { rewrite Hm, <- Hr. apply slice_after_blit. lia. }
        rewrite Htx in Ht2, Hl2.
        assert (Hrx : length rx = 512%nat)
          by (rewrite Hl2; apply slice_length; lia).
        destruct (write_block_log
                    [if nblocks address len =? 1
                     then START_1_BLOCK_TOKEN else START_N_BLOCK_TOKEN]
                    r1 (slice (mem st (base p)) (offset p + 512 * i) 512)
                    rx crc n1 n2 b1 b2)
          as [Hsent Hrecv];
          [apply slice_length; lia | cbn [length]; lia |].
        unfold ret. cbn [fst snd]. rewrite u32_small by lia.
        rewrite u64_small by lia.
        split; [| lia]. split; [lia|]. split; [lia|].
        eexists (t ++ _). split; [rewrite Ht2, Ht, <- app_assoc; reflexivity|].
        rewrite blocks_sent_app, blocks_received_app, Hsent, Hrecv, Hs.
        rewrite length_app.
        split; [| split; [lia|]].
        -- replace (512 * (i + 1)) with (512 * i + 512) by lia.
           apply slice_app; lia.
        -- rewrite Hm2, buf_id_eqb_refl, Hm, <- Hr. apply blit_blit; lia.
      * exact I.
      * pose proof (proj1 (safe_write_block (ptr_add p (512 * i))
                             (nblocks address len) s1)) as Hne.
        rewrite E in Hne. now apply Hne.
    + unfold ret. assert (i = nblocks address len) by lia. subst i.
      rewrite Hn in *. exists t. auto.
  - intros s s1 (Hi & _). lia.
  - cbn [fst snd]. split; [lia|]. split; [lia|].
    exists []. rewrite app_nil_r. split; [reflexivity|].
    split; [reflexivity|]. split; [reflexivity|].
    unfold blocks_received. cbn [filter flat_map]. now rewrite blit_nil.
  - cbn [fst]. change (Z.of_nat 32) with 32. lia.
Qed.

Lemma whole_blocks_need_no_read_back (address len : Z) :
  0 <= address -> 0 < len -> address + len <= 2 ^ 40 ->
  address mod 512 = 0 -> len mod 512 = 0 ->
  reads_first_block address len = false
  /\ reads_last_block address len = false.
Proof.
  intros Ha Hl Hb Hma Hml. unfold reads_first_block, reads_last_block.
  rewrite (u64_small (address + len)) by lia.
  rewrite (u64_small (address + len - 1)) by lia.
  rewrite !land_addr_in_block, Hma.
  assert (H511 : (address + len - 1) mod 512 = 511)
    by (Z.div_mod_to_equations; lia).
  rewrite H511. change (0 =? 0) with true.
  change (511 =? MASK_ADDR_IN_BLOCK) with true.
  cbn [negb andb orb]. rewrite andb_false_r.
  split; [| reflexivity].
  apply Z.ltb_ge. unfold DATA_BLOCK_LEN. Z.div_mod_to_equations. lia.
Qed.

(** A write of whole blocks that ends well. *)
Lemma sd_write_whole_blocks (p : ptr) (address len : Z)
    (st st' : state) (a : unit) :
  sd_write exchange (Some p) address len st = (Ok a, st') ->
  0 <= address -> 0 < len -> address + len <= 2 ^ 40 ->
  address mod 512 = 0 -> len mod 512 = 0 ->
  0 <= offset p -> offset p + len <= Z.of_nat (length (mem st (base p))) ->
  exists t,
    trace st' = trace st ++ t
    /\ blocks_sent t = slice (mem st (base p)) (offset p) len
    /\ Z.of_nat (length (blocks_received t)) = len
    /\ mem st' (base p)
       = blit (mem st (base p)) (offset p) (blocks_received t).
Proof.
  intros H Ha Hl Hb Hma Hml Ho Hlen.
  assert (E : initial_checks (sd st) (Some p) address len = false).
  { revert H. unfold sd_write. unfold bind at 1. unfold get_sd.
    destruct (initial_checks _ _ _ _); [discriminate | reflexivity]. }
  rewrite (sd_write_run p address len st E) in H.
  rewrite sd_write_read_back_run in H.
  destruct (whole_blocks_need_no_read_back address len Ha Hl Hb Hma Hml)
    as [E1 E2].
  rewrite E1, E2 in H. unfold after_read_back in H. cbn [snd] in H.
  revert H. unfold sd_write_commit. cbv zeta. intros H.
  inv_bind_as H cd s1 H1. apply send_command_quiet in H1.
  destruct H1 as (Hm1 & t1 & Ht1 & Hr1 & Hs1).
  case_if H.
  inv_bind_as H u s2 H2.
  apply write_whole_blocks_done in H2; try assumption; [| now rewrite Hm1].
  destruct H2 as (t2 & Ht2 & Hx2 & Hn2 & Hm2). rewrite Hm1 in Hx2, Hm2.
  case_if H.
  - inv_bind_as H b s3 H3. injection H3 as <- <-.
    inv_bind_as H u3 s4 H4. apply set_buff_done in H4.
    destruct H4 as (Ht4 & Hm4 & Hb4).
    inv_bind_as H u4 s5 H5. apply exchange_buff_done in H5.
    destruct H5 as (r & Ht5 & Hm5). rewrite Ht4, Hb4 in Ht5.
    pose proof H as H6. apply wait_until_not_busy_ok in H6.
    destruct H6 as (n & b2 & Ht6 & _ & Hm6).
    set (t3 := [Xfer (slice (store (store (buff (sd s2)) 0
                                      STOP_TRANSMISSION_TOKEN) 1 255) 0 2)
                     r true]
               ++ repeat (poll 0x00) n ++ [poll b2]).
    assert (Hq : Forall (fun e => is_block e = false) t3).
    { repeat (apply Forall_app; split);
        try apply no_block_polls; repeat constructor. }
    exists (t1 ++ t2 ++ t3).
    split; [rewrite Ht6, Ht5, Ht2, Ht1; unfold t3;
            rewrite <- !app_assoc; reflexivity|].
    rewrite !blocks_sent_app, !blocks_received_app, Hs1, Hr1.
    rewrite (no_block_sent _ Hq), (no_block_received _ Hq), !app_nil_r.
    cbn [app]. split; [exact Hx2|]. split; [exact Hn2|].
    now rewrite Hm6, Hm5, Hm4.
  - injection H as _ <-. exists (t1 ++ t2).
    split; [rewrite Ht2, Ht1, <- !app_assoc; reflexivity|].
    rewrite !blocks_sent_app, !blocks_received_app, Hs1, Hr1. cbn [app].
    auto.
Qed.

(** X13: a write of whole blocks overwrites the caller's buffer.  When
    [sd_write] returns NO_OS_SUCCESS for whole blocks ([address] and
    [len > 0] multiples of 512, ending within [2 ^ 40]) from a buffer that
    holds them, the blocks sent are the caller's [len] bytes, and the
    caller's buffer holds in their place the bytes that came back from the
    card while they went out. *)
Theorem whole_block_write_overwrites_the_data (p : ptr) (address len : Z)
    (st st' : state) (a : unit) :
  sd_write exchange (Some p) address len st = (Ok a, st') ->
  0 <= address -> 0 < len -> address + len <= 2 ^ 40 ->
  address mod 512 = 0 -> len mod 512 = 0 ->
  0 <= offset p -> offset p + len <= Z.of_nat (length (mem st (base p))) ->
  exists t,
    trace st' = trace st ++ t
    /\ blocks_sent t = slice (mem st (base p)) (offset p) len
    /\ Z.of_nat (length (blocks_received t)) = len
    /\ mem st' (base p)
       = blit (mem st (base p)) (offset p) (blocks_received t).
Proof. apply sd_write_whole_blocks. Qed.

End Proofs.

(** * Concrete runs on the scripted pipe *)

(** ** The command exchange (C1) *)

(** C1 as it is stated fails: the first byte [send_command] emits for CMD0
    is the idle byte 0xFF; [0x40 | idx] is the second of eight bytes. *)
Lemma command_exchange_starts_with_idle_byte :
  let st := power_on no_memory (during_command ++ [0x01]) in
  let st' := snd (send_command script_exchange
                    (new_cmd_desc (CMD 0) STUFF_ARG R1_LEN) st) in
  sent st' = [[0xFF; 0x40; 0x00; 0x00; 0x00; 0x00; 0x95; 0xFF]; [0xFF]]
  /\ nth 0 (hd [] (sent st')) 0 <> Z.lor 0x40 (Z.land 0 0x3F).
Proof. vm_compute. split; [reflexivity | discriminate]. Qed.

Lemma command_exchange_layout_witness :
  let st := power_on no_memory (during_command ++ [0x01]) in
  0 <= 8 < 64 /\ 0 <= 41 < 64 /\
  (exists e t,
     trace (snd (send_command script_exchange
                   (new_cmd_desc (CMD 8) CMD8_ARG R3_LEN) st))
       = trace st ++ e :: t
     /\ x_tx e = command_exchange 8 CMD8_ARG (command_crc 8))
  /\
  (exists e t,
     trace (snd (send_command script_exchange
                   (new_cmd_desc (ACMD 41) ACMD41_ARG R1_LEN) st))
       = [Xfer [0xFF; 0x77; 0x00; 0x00; 0x00; 0x00; 0xFF; 0xFF]
               [0xFF; 0xFF; 0xFF; 0xFF; 0xFF; 0xFF; 0xFF; 0xFF] true;
          Xfer [0xFF] [0x01] true] ++ e :: t
     /\ x_tx e = command_exchange 41 ACMD41_ARG 0xFF).
Proof.
  intros st. split; [lia | split; [lia | split]].
  - apply (proj1 (command_exchange_layout script_exchange
                    (new_cmd_desc (CMD 8) CMD8_ARG R3_LEN) 8 st
                    ltac:(lia))).
    reflexivity.
  - apply (proj2 (command_exchange_layout script_exchange
                    (new_cmd_desc (ACMD 41) ACMD41_ARG R1_LEN) 41 st
                    ltac:(lia))).
    reflexivity.
Defined.

(** ** Zero-length transfers (C2) *)

(** C2 fails on the code: a transfer of no bytes is not a no-op.  On a
    session, a read of no bytes at address 0 sends CMD18 and then CMD12; a
    read of no bytes at address 5 sends CMD17 and takes in a whole block; a
    write of no bytes at address 0 reads block 0 back, sends CMD25 and the
    stop token.  All three return NO_OS_SUCCESS. *)
Theorem zero_length_transfers_use_the_pipe :
  (let st := ready no_memory
               (during_command ++ [0x00] ++ during_command ++ [0x00]) in
   let r := sd_read script_exchange (Some (Ptr (User 0) 0)) 0 0 st in
   fst r = Ok tt
   /\ sent_since st (snd r)
      = [command_exchange 18 0 0xFF; [0xFF];
         command_exchange 12 0 0xFF; [0xFF]])
  /\
  (let st := ready no_memory
               (during_command ++ [0x00; 0xFE] ++ block_of 0x11 ++ [0; 0]) in
   let r := sd_read script_exchange (Some (Ptr (User 0) 0)) 5 0 st in
   fst r = Ok tt
   /\ sent_since st (snd r)
      = [command_exchange 17 0 0xFF; [0xFF]; [0xFF];
         block_of 0xFF; [0xFF; 0xFF]])
  /\
  (let st := ready no_memory
               (during_command ++ [0x00; 0xFE] ++ block_of 0x11 ++ [0; 0]
                ++ during_command ++ [0x00] ++ [0xFF; 0xFF]) in
   let r := sd_write script_exchange (Some (Ptr (User 0) 0)) 0 0 st in
   fst r = Ok tt
   /\ sent_since st (snd r)
      = [command_exchange 17 0 0xFF; [0xFF]; [0xFF];
         block_of 0xFF; [0xFF; 0xFF];
         command_exchange 25 0 0xFF; [0xFF];
         [STOP_TRANSMISSION_TOKEN; 0xFF]; [0xFF]]).
Proof. vm_compute. repeat split. Qed.

(** ** Bounds (C3) *)

Lemma bounds_checked_before_any_exchange_witness :
  let st := ready no_memory [] in
  let data := Some (Ptr (User 0) 0) in
  session script_exchange (sd st)
  /\ memory_size (sd st) = 4294967296
  /\ sd_read script_exchange data 4294967286 20 st = (Err, st)
  /\ sd_write script_exchange data 4294967286 20 st = (Err, st)
  /\ initial_checks (sd st) data 4294967286 10 = false
  /\ (length (trace st)
      < length (trace (snd (sd_read script_exchange data 4294967286 10 st))))%nat.
Proof.
  intros st data.
  assert (Hs : session script_exchange (sd st)).
  { apply (session_init script_exchange 3 (Sd_init_param tt)
             (power_on no_memory (init_script 0x00 csd_4GiB ++ [])) st).
    vm_compute. reflexivity. }
  split; [exact Hs | split; [vm_compute; reflexivity |]].
  pose proof (bounds_checked_before_any_exchange script_exchange data
                4294967286 20 st Hs ltac:(lia) ltac:(lia)) as [H1 _].
  pose proof (bounds_checked_before_any_exchange script_exchange data
                4294967286 10 st Hs ltac:(lia) ltac:(lia)) as [_ H2].
  assert (Hin : 4294967286 + 10 <= memory_size (sd st))
    by (vm_compute; discriminate).
  split; [| split; [| split]].
  - apply H1. right. vm_compute. reflexivity.
  - apply H1. right. vm_compute. reflexivity.
  - exact (proj1 (H2 Hin (Ptr (User 0) 0))).
  - exact (proj1 (proj2 (H2 Hin (Ptr (User 0) 0)))).
Defined.

(** ** Commands and block indices (C4) *)

Lemma data_command_and_block_index_witness :
  let st := ready no_memory
              (during_command ++ [0x00; 0xFE] ++ block_of 0x11 ++ [0; 0]
               ++ [0xFE] ++ block_of 0x22 ++ [0; 0]
               ++ during_command ++ [0x00]) in
  let p := Ptr (User 0) 0 in
  session script_exchange (sd st)
  /\ 1000 + 30 <= memory_size (sd st)
  /\ get_nb_of_blocks 1000 30 = 2
  /\ (exists e t,
        trace (snd (sd_read script_exchange (Some p) 1000 30 st))
          = trace st ++ e :: t
        /\ x_tx e = [0xFF; 0x52; 0x00; 0x00; 0x00; 0x01; 0xFF; 0xFF])
  /\ (exists e t,
        trace (snd (sd_write script_exchange (Some p) 1000 30 st))
          = trace (snd (sd_write_read_back script_exchange 1000 30 st))
            ++ e :: t
        /\ x_tx e = [0xFF; 0x59; 0x00; 0x00; 0x00; 0x01; 0xFF; 0xFF]).
Proof.
  intros st p.
  assert (Hs : session script_exchange (sd st)).
  { apply (session_init script_exchange 3 (Sd_init_param tt)
             (power_on no_memory
                (init_script 0x00 csd_4GiB
                 ++ during_command ++ [0x00; 0xFE] ++ block_of 0x11 ++ [0; 0]
                 ++ [0xFE] ++ block_of 0x22 ++ [0; 0]
                 ++ during_command ++ [0x00])) st).
    vm_compute. reflexivity. }
  assert (Hb : 1000 + 30 <= memory_size (sd st)).
  { vm_compute. discriminate. }
  split; [exact Hs | split; [exact Hb |]].
  exact (data_command_and_block_index script_exchange p 1000 30 st Hs
           ltac:(lia) ltac:(lia) Hb).
Defined.

(** ** Read-modify-write (C6) *)

(** Thirty bytes across the border of the first two blocks, on a card that
    answers both read-backs: a block of 0x11 for the first, of 0x22 for the
    last. *)
Lemma read_modify_write_policy_witness :
  let st := ready (user_memory (repeat 0x5A 32)) read_back_write_script in
  let p := Ptr (User 0) 0 in
  session script_exchange (sd st)
  /\ 500 + 30 <= memory_size (sd st)
  /\ exists st1 st2 e t,
       read_back_step script_exchange (head_read_needed 500 30)
         Stack_first_block 0 st st1
       /\ read_back_step script_exchange (tail_read_needed 500 30)
            Stack_last_block 1 st1 st2
       /\ (exists t1 n rx crc,
             trace st1 = trace st ++ t1 ++ repeat (poll 0xFF) n
                           ++ [poll START_1_BLOCK_TOKEN;
                               Xfer (repeat 0xFF 512) rx true;
                               Xfer [0xFF; 0xFF] crc true]
             /\ blocks_received t1 = []
             /\ length rx = 512%nat
             /\ mem st1 Stack_first_block
                = blit (mem st Stack_first_block) 0 rx)
       /\ mem st1 Stack_first_block = block_of 0x11
       /\ (exists t2 n rx crc,
             trace st2 = trace st1 ++ t2 ++ repeat (poll 0xFF) n
                           ++ [poll START_1_BLOCK_TOKEN;
                               Xfer (repeat 0xFF 512) rx true;
                               Xfer [0xFF; 0xFF] crc true]
             /\ blocks_received t2 = []
             /\ length rx = 512%nat
             /\ mem st2 Stack_last_block
                = blit (mem st1 Stack_last_block) 0 rx)
       /\ mem st2 Stack_last_block = block_of 0x22
       /\ trace (snd (sd_write script_exchange (Some p) 500 30 st))
          = trace st2 ++ e :: t
       /\ x_tx e = [0xFF; 0x59; 0x00; 0x00; 0x00; 0x00; 0xFF; 0xFF].
Proof.
  intros st p.
  assert (Hs : session script_exchange (sd st)).
  { apply (session_init script_exchange 3 (Sd_init_param tt)
             (power_on (user_memory (repeat 0x5A 32))
                (init_script 0x00 csd_4GiB ++ read_back_write_script)) st).
    vm_compute. reflexivity. }
  assert (Hb : 500 + 30 <= memory_size (sd st)).
  { vm_compute. discriminate. }
  assert (Hhead : head_read_needed 500 30).
  { left. vm_compute. discriminate. }
  assert (Htail : tail_read_needed 500 30).
  { split; vm_compute; discriminate. }
  split; [exact Hs | split; [exact Hb |]].
  destruct (read_modify_write_policy script_exchange p 500 30 st Hs
              ltac:(lia) ltac:(lia) Hb)
    as (st1 & st2 & e & t & H1 & B1 & H2 & B2 & Ht & He).
  change (500 / 512) with 0 in H1, B1.
  change ((500 + 30 - 1) / 512) with 1 in H2, B2.
  assert (E1 : st1 = snd (sd_read script_exchange
                            (Some (Ptr Stack_first_block 0)) (512 * 0) 512
                            st))
    by exact (proj1 (proj1 H1 Hhead)).
  assert (E2 : st2 = snd (sd_read script_exchange
                            (Some (Ptr Stack_last_block 0)) (512 * 1) 512
                            st1))
    by exact (proj1 (proj1 H2 Htail)).
  exists st1, st2, e, t.
  split; [exact H1 | split; [exact H2 |]].
  split; [apply (B1 Hhead); vm_compute; reflexivity |].
  split; [rewrite E1; vm_compute; reflexivity |].
  split; [apply (B2 Htail); rewrite E1; vm_compute; reflexivity |].
  split; [rewrite E2, E1; vm_compute; reflexivity |].
  split; [exact Ht | exact He].
Defined.

(** ** A failed read-back (C9) *)

(** Twenty bytes across the border of the first two blocks: the read-back
    of the first block brings a block of 0x11, the one of the last block
    is turned down, and the write sends what [last_block] held behind the
    caller's bytes. *)
Lemma failed_read_back_is_discarded_witness :
  let st := ready (user_memory (repeat 0x5A 32))
              failed_tail_read_back_script in
  let p := Ptr (User 0) 4 in
  let r1 := sd_read script_exchange (Some (Ptr Stack_first_block 0)) 0 512
              st in
  let r2 := sd_read script_exchange (Some (Ptr Stack_last_block 0)) 512 512
              (snd r1) in
  let r := sd_write script_exchange (Some p) 500 20 st in
  session script_exchange (sd st)
  /\ fst r1 = Ok tt
  /\ fst r2 = Err
  /\ r = sd_write_commit script_exchange p 500 20 (snd r2)
  /\ (exists e t,
        trace (snd r) = trace (snd r2) ++ e :: t
        /\ x_tx e = [0xFF; 0x59; 0x00; 0x00; 0x00; 0x00; 0xFF; 0xFF])
  /\ fst r = Ok tt
  /\ (exists t1 e t2,
        trace (snd r) = trace (snd r2) ++ t1 ++ e :: t2
        /\ x_tx e = repeat 0x11 500 ++ repeat 0x5A 12)
  /\ (exists t,
        trace (snd r) = trace (snd r2) ++ t
        /\ Z.of_nat (length (blocks_sent t)) = 1024
        /\ blocks_sent t
           = repeat 0x11 500 ++ repeat 0x5A 20 ++ repeat 0xEE 504).
Proof.
  intros st p r1 r2 r.
  assert (Hs : session script_exchange (sd st)).
  { apply (session_init script_exchange 3 (Sd_init_param tt)
             (power_on (user_memory (repeat 0x5A 32))
                (init_script 0x00 csd_4GiB ++ failed_tail_read_back_script))
             st).
    vm_compute. reflexivity. }
  assert (Hhead : head_read_needed 500 20).
  { left. vm_compute. discriminate. }
  assert (Htail : tail_read_needed 500 20).
  { split; vm_compute; discriminate. }
  assert (Hr1 : fst r1 = Ok tt) by (vm_compute; reflexivity).
  assert (Hr2 : fst r2 = Err) by (vm_compute; reflexivity).
  assert (H1 : read_back_step script_exchange (head_read_needed 500 20)
                 Stack_first_block (500 / 512) st (snd r1)).
  { split; [intros _ | intros Hn; now contradiction Hn].
    split; [reflexivity |].
    exists (Xfer [0xFF; 0x51; 0x00; 0x00; 0x00; 0x00; 0xFF; 0xFF]
                 (repeat 0xFF 8) true),
           (skipn (S (length (trace st))) (trace (snd r1))).
    split; vm_compute; reflexivity. }
  assert (H2 : read_back_step script_exchange (tail_read_needed 500 20)
                 Stack_last_block ((500 + 20 - 1) / 512) (snd r1) (snd r2)).
  { split; [intros _ | intros Hn; now contradiction Hn].
    split; [reflexivity |].
    exists (Xfer [0xFF; 0x51; 0x00; 0x00; 0x00; 0x01; 0xFF; 0xFF]
                 (repeat 0xFF 8) true),
           [Xfer [0xFF] [0x04] true].
    split; vm_compute; reflexivity. }
  pose proof (failed_read_back_is_discarded script_exchange p 500 20 st
                (snd r1) (snd r2) Hs ltac:(lia) ltac:(lia)
                ltac:(vm_compute; discriminate) H1 H2
                (or_intror (conj Htail Hr2)))
    as (Hrun & Hframe & Hblock & Hall).
  assert (Hok : fst r = Ok tt) by (vm_compute; reflexivity).
  split; [exact Hs | split; [exact Hr1 | split; [exact Hr2 |]]].
  split; [exact Hrun | split; [exact Hframe | split; [exact Hok |]]].
  split.
  - destruct (Hblock Hhead Hok) as (t1 & e & t2 & Ht & He).
    exists t1, e, t2. split; [exact Ht |].
    rewrite He. vm_compute. reflexivity.
  - assert (Ho : 0 <= offset p) by (vm_compute; discriminate).
    assert (Hlen : offset p + 20 <= Z.of_nat (length (mem st (base p))))
      by (vm_compute; discriminate).
    assert (Hfb : length (mem st Stack_first_block) = 512%nat)
      by (vm_compute; reflexivity).
    assert (Hlb : length (mem st Stack_last_block) = 512%nat)
      by (vm_compute; reflexivity).
    destruct (Hall Hok Ho Hlen ltac:(discriminate) ltac:(discriminate)
                ltac:(discriminate) Hfb Hlb) as (t & Ht & Hn & Hbytes).
    exists t. split; [exact Ht |]. split; [exact Hn |].
    rewrite Hbytes. vm_compute. reflexivity.
Defined.

(** ** The CSD read step (C5) *)

(** C5 fails on the code: the card answers CMD9 with R1 = 0x04, illegal
    command, then sends the start token and the CSD, and [sd_init] succeeds
    all the same: the R1 response of CMD9 is not looked at. *)
Theorem sd_init_ignores_r1_of_cmd9 :
  let r := sd_init script_exchange 3 true (Some (Sd_init_param tt)) true
             (power_on no_memory (init_script R1_ILLEGAL_COMMAND csd_4GiB)) in
  fst r = Ok tt
  /\ memory_size (sd (snd r)) = 4 * 1024 * 1024 * 1024
  /\ nth 13 (trace (snd r)) (Xfer [] [] false)
     = Xfer (command_exchange 9 0 0xFF) (repeat 0xFF 8) true
  /\ nth 14 (trace (snd r)) (Xfer [] [] false)
     = Xfer [0xFF] [R1_ILLEGAL_COMMAND] true
  /\ nth 15 (trace (snd r)) (Xfer [] [] false)
     = Xfer [0xFF] [START_1_BLOCK_TOKEN] true.
Proof. vm_compute. repeat split. Qed.

(** ** Capacity (C7) *)

(** C7 fails on the code: with bit 5 of CSD byte 7 set, [c_size] of the
    V2.0 layout is 0x200000 and the capacity a little over 1 TiB; [sd_init]
    masks the bit away with 0x1F and leaves 512 KiB in [memory_size]. *)
Theorem sd_init_drops_bit_21_of_c_size :
  let r := sd_init script_exchange 3 true (Some (Sd_init_param tt)) true
             (power_on no_memory (init_script 0x00 csd_1TiB)) in
  fst r = Ok tt
  /\ firstn 16 (buff (sd (snd r))) = csd_1TiB
  /\ csd_c_size csd_1TiB = 0x200000
  /\ (csd_c_size csd_1TiB + 1) * 512 * 1024 = 1099512152064
  /\ memory_size (sd (snd r)) = 524288.
Proof. vm_compute. repeat split. Qed.

(** ** Runs for the further properties *)

Lemma capacity_from_last_exchange_witness :
  let st := power_on no_memory (init_script 0x00 csd_4GiB) in
  let st' := snd (sd_init script_exchange 3 true (Some (Sd_init_param tt))
                    true st) in
  exists t e,
    trace st' = t ++ [e]
    /\ x_tx e = repeat 0xFF 18 /\ x_ok e = true
    /\ memory_size (sd st') = (c_size_of (x_rx e) + 1) * 524288
    /\ 524288 <= memory_size (sd st') <= 2 ^ 40.
Proof.
  intros st st'.
  apply (capacity_from_last_exchange script_exchange 3 true
           (Some (Sd_init_param tt)) true st st').
  vm_compute. reflexivity.
Defined.

(** A card that sends the start token at once, a block of 0xAB and a
    CRC. *)
Lemma block_read_fills_the_buffer_witness :
  let st := script_state 0 (user_memory (repeat 0 600))
              ([0xFE] ++ block_of 0xAB ++ [0x12; 0x34]) in
  let data := Ptr (User 0) 8 in
  exists n rx crc,
    trace (snd (read_block script_exchange data st))
    = trace st ++ repeat (poll 0xFF) n
        ++ [poll START_1_BLOCK_TOKEN;
            Xfer (repeat 0xFF 512) rx true;
            Xfer [0xFF; 0xFF] crc true]
    /\ length rx = 512%nat
    /\ forall b, mem (snd (read_block script_exchange data st)) b
                 = if buf_id_eqb (base data) b
                   then blit (mem st (base data)) (offset data) rx
                   else mem st b.
Proof.
  intros st data.
  apply (block_read_fills_the_buffer script_exchange data st _ tt).
  - vm_compute. reflexivity.
  - vm_compute. split; discriminate.
Defined.

(** A card that takes the block with the data response 0xE5 and is not
    busy. *)
Lemma block_write_overwrites_the_buffer_witness :
  let st := script_state 0 (user_memory (repeat 0x5A 512))
              ([0xFF] ++ block_of 0xFF ++ [0xFF; 0xFF] ++ [0xE5]) in
  let data := Ptr (User 0) 0 in
  exists r1 rx crc n1 b1 n2 b2,
    trace (snd (write_block script_exchange data 1 st)) = trace st
      ++ [Xfer [if 1 =? 1 then START_1_BLOCK_TOKEN else START_N_BLOCK_TOKEN]
               r1 true;
          Xfer (slice (mem st (base data)) (offset data) DATA_BLOCK_LEN)
               rx true;
          Xfer [0xFF; 0xFF] crc true]
      ++ repeat (poll 0xFF) n1 ++ [poll b1]
      ++ repeat (poll 0x00) n2 ++ [poll b2]
    /\ Z.land b1 MASK_RESPONSE_TOKEN = 0x4 /\ b2 <> 0x00
    /\ length rx
       = length (slice (mem st (base data)) (offset data) DATA_BLOCK_LEN)
    /\ forall buf, mem (snd (write_block script_exchange data 1 st)) buf
                   = if buf_id_eqb (base data) buf
                     then blit (mem st (base data)) (offset data) rx
                     else mem st buf.
Proof.
  intros st data.
  apply (block_write_overwrites_the_buffer script_exchange data 1 st _ tt).
  vm_compute. reflexivity.
Defined.

(** Twenty bytes read across the border of the first two blocks of a
    4 GiB card. *)
Lemma read_delivers_the_blocks_witness :
  let st := ready (user_memory (repeat 0 32))
              (during_command ++ [0x00]
               ++ [0xFE] ++ block_of 0x11 ++ [0xFF; 0xFF]
               ++ [0xFE] ++ block_of 0x22 ++ [0xFF; 0xFF]
               ++ during_command ++ [0x00]) in
  let p := Ptr (User 0) 4 in
  let st' := snd (sd_read script_exchange (Some p) 500 20 st) in
  exists t,
    trace st' = trace st ++ t
    /\ Z.of_nat (length (blocks_received t))
       = 512 * get_nb_of_blocks 500 20
    /\ mem st' (base p)
       = blit (mem st (base p)) (offset p)
              (slice (blocks_received t) (500 mod 512) 20).
Proof.
  intros st p st'.
  apply (read_delivers_the_blocks script_exchange p 500 20 st st' tt).
  - vm_compute. reflexivity.
  - lia.
  - lia.
  - lia.
  - vm_compute. discriminate.
  - vm_compute. discriminate.
  - discriminate.
Defined.

(** ** A write across two blocks *)

Lemma write_sends_the_callers_bytes_witness :
  let st := ready (user_memory (repeat 0x5A 32)) two_block_write_script in
  let p := Ptr (User 0) 4 in
  let st' := snd (sd_write script_exchange (Some p) 500 20 st) in
  exists t0 t,
    trace (snd (sd_write_read_back script_exchange 500 20 st)) = trace st ++ t0
    /\ trace st' = trace st ++ t0 ++ t
    /\ Z.of_nat (length (blocks_sent t))
       = 512 * get_nb_of_blocks 500 20
    /\ slice (blocks_sent t) (500 mod 512) 20
       = slice (mem st (base p)) (offset p) 20.
Proof.
  intros st p st'.
  apply (write_sends_the_callers_bytes script_exchange p 500 20 st st' tt).
  - vm_compute. reflexivity.
  - lia.
  - lia.
  - lia.
  - vm_compute. discriminate.
  - vm_compute. discriminate.
  - discriminate.
  - discriminate.
  - discriminate.
  - vm_compute. reflexivity.
  - vm_compute. reflexivity.
Defined.

(** The same write on a card that answers both read-backs. *)
Lemma write_keeps_the_head_of_the_first_block_witness :
  let st := ready (user_memory (repeat 0x5A 32)) read_back_write_script in
  let p := Ptr (User 0) 4 in
  let st' := snd (sd_write script_exchange (Some p) 500 20 st) in
  let s1 := snd (sd_read script_exchange (Some (Ptr Stack_first_block 0))
                   (Z.land 500 MASK_BLOCK_NUMBER) DATA_BLOCK_LEN st) in
  exists tr t,
    trace s1 = trace st ++ tr
    /\ trace st'
       = trace (snd (sd_write_read_back script_exchange 500 20 st)) ++ t
    /\ firstn (Z.to_nat (500 mod 512)) (blocks_sent t)
       = firstn (Z.to_nat (500 mod 512)) (blocks_received tr)
    /\ (get_nb_of_blocks 500 20 = 1 ->
        skipn (Z.to_nat (500 mod 512 + 20)) (blocks_sent t)
        = skipn (Z.to_nat (500 mod 512 + 20)) (blocks_received tr)).
Proof.
  intros st p st' s1.
  apply (write_keeps_the_head_of_the_first_block script_exchange p 500 20
           st st' s1 tt tt).
  - vm_compute. reflexivity.
  - lia.
  - lia.
  - lia.
  - vm_compute. discriminate.
  - vm_compute. discriminate.
  - discriminate.
  - discriminate.
  - discriminate.
  - vm_compute. reflexivity.
  - vm_compute. reflexivity.
  - vm_compute. reflexivity.
  - vm_compute. reflexivity.
Defined.

Lemma write_keeps_the_tail_of_the_last_block_witness :
  let st := ready (user_memory (repeat 0x5A 32)) read_back_write_script in
  let p := Ptr (User 0) 4 in
  let st' := snd (sd_write script_exchange (Some p) 500 20 st) in
  let s1 := after_read_back script_exchange (reads_first_block 500 20)
              Stack_first_block (Z.land 500 MASK_BLOCK_NUMBER) st in
  let s2 := snd (sd_read script_exchange (Some (Ptr Stack_last_block 0))
                   (Z.land (u64 (u64 (500 + 20) - 1)) MASK_BLOCK_NUMBER)
                   DATA_BLOCK_LEN s1) in
  exists tr t,
    trace s2 = trace s1 ++ tr
    /\ trace st' = trace s2 ++ t
    /\ skipn (Z.to_nat (500 mod 512 + 20)) (blocks_sent t)
       = skipn (Z.to_nat ((500 + 20 - 1) mod 512 + 1))
           (blocks_received tr).
Proof.
  intros st p st' s1 s2.
  apply (write_keeps_the_tail_of_the_last_block script_exchange p 500 20
           st st' s2 tt tt).
  - vm_compute. reflexivity.
  - lia.
  - lia.
  - lia.
  - vm_compute. discriminate.
  - vm_compute. discriminate.
  - discriminate.
  - discriminate.
  - discriminate.
  - vm_compute. reflexivity.
  - vm_compute. reflexivity.
  - vm_compute. reflexivity.
  - vm_compute. reflexivity.
Defined.

(** ** CMD58 answered with R3 *)

Lemma command_response_witness :
  let st := script_state 0 no_memory
              (during_command ++ [0xFF; 0x00; 0xC0; 0xFF; 0x80; 0x00]) in
  let cd := new_cmd_desc (CMD 58) STUFF_ARG R3_LEN in
  let r := send_command script_exchange cd st in
  exists cd', fst r = Ok cd'
    /\ exists fr n r0 tail rest,
    trace (snd r) = trace st ++ [Xfer (frame_of cd) fr true]
                  ++ repeat (poll 0xFF) n ++ [poll r0] ++ tail
    /\ r0 <> 0xFF
    /\ cd' = Cmd_desc (cmd cd) (arg cd)
               (blit (store (response cd) 0 r0) 1 rest) (response_len cd)
    /\ ((u32 (response_len cd - 1) = 0 /\ tail = [] /\ rest = [])
        \/ (0 < u32 (response_len cd - 1)
            /\ tail = [Xfer (repeat 0xFF
                               (Z.to_nat (u32 (response_len cd - 1))))
                            rest true]
            /\ length rest = Z.to_nat (u32 (response_len cd - 1)))).
Proof.
  intros st cd r.
  exists (Cmd_desc (CMD 58) STUFF_ARG [0x00; 0xC0; 0xFF; 0x80; 0x00] R3_LEN).
  split; [vm_compute; reflexivity|].
  apply (command_response script_exchange cd _ st (snd r)).
  - reflexivity.
  - vm_compute. reflexivity.
Defined.

(** ** Two blocks read, two blocks written *)

Lemma transfers_of_several_blocks_are_closed_witness :
  let sr := ready (user_memory (repeat 0 32))
              (during_command ++ [0x00]
               ++ [0xFE] ++ block_of 0x11 ++ [0xFF; 0xFF]
               ++ [0xFE] ++ block_of 0x22 ++ [0xFF; 0xFF]
               ++ during_command ++ [0x00]) in
  let sw := ready (user_memory (repeat 0x5A 32)) two_block_write_script in
  let p := Ptr (User 0) 4 in
  let sr' := snd (sd_read script_exchange (Some p) 500 20 sr) in
  let sw' := snd (sd_write script_exchange (Some p) 500 20 sw) in
  (exists t fr n,
     trace sr' = trace sr ++ t
                   ++ [Xfer (frame_of (new_cmd_desc (CMD 12) STUFF_ARG R1_LEN))
                            fr true]
                   ++ repeat (poll 0xFF) n ++ [poll R1_READY_STATE])
  /\
  (exists t r n b,
     trace sw' = trace sw ++ t
                   ++ [Xfer [STOP_TRANSMISSION_TOKEN; 0xFF] r true]
                   ++ repeat (poll 0x00) n ++ [poll b]
     /\ b <> 0x00).
Proof.
  intros sr sw p sr' sw'.
  assert (Hnb : get_nb_of_blocks 500 20 <> 1) by (vm_compute; discriminate).
  split.
  - apply (proj1 (transfers_of_several_blocks_are_closed script_exchange
                    p 500 20 sr sr' tt Hnb)).
    vm_compute. reflexivity.
  - apply (proj2 (transfers_of_several_blocks_are_closed script_exchange
                    p 500 20 sw sw' tt Hnb)).
    vm_compute. reflexivity.
Defined.

(** ** A card that never becomes ready *)

Lemma idle_get_buff : yields (@get_buff unit unit) (fun _ => True).
Proof. intros st. now exists (buff (sd st)), st. Qed.

Lemma idle_set_buff (b : list Z) :
  yields (@set_buff unit unit b) (fun _ => True).
Proof. intros st. eexists tt, _. split; [reflexivity | exact I]. Qed.

Lemma idle_exchange_buff (n : Z) :
  yields (exchange_buff idle_card n) (fun _ => True).
Proof.
  intros st. rewrite exchange_buff_run. cbv zeta. unfold idle_card.
  cbn [fst snd]. eexists tt, _. split; [reflexivity | exact I].
Qed.

Lemma idle_poll (d : Z) :
  yields (exchange_val idle_card [d]) (fun rx => rx = [R1_IDLE_STATE]).
Proof.
  intros st. rewrite exchange_val_run. cbv zeta. unfold idle_card.
  cbn [fst snd length]. eexists _, _. split; reflexivity.
Qed.

Lemma idle_long_response :
  yields (exchange_val idle_card (repeat 0xFF 4))
    (fun rx => rx = [0x00; 0x00; 0x01; 0xAA]).
Proof.
  intros st. rewrite exchange_val_run. cbv zeta. unfold idle_card.
  cbn [fst snd length repeat]. eexists _, _. split; reflexivity.
Qed.

Lemma idle_wait_for_response :
  yields (wait_for_response idle_card) (fun r => r = R1_IDLE_STATE).
Proof.
  unfold wait_for_response.
  apply yields_loop_two with (I := fun s => fst s = R1_IDLE_STATE).
  - unfold wait_for_response_body.
    change (negb (0xFF =? 0xFF)) with false. cbv iota.
    apply yields_bind with (P := fun rx => rx = [R1_IDLE_STATE]);
      [apply idle_poll|].
    intros rx ->. change (WAIT_RESP_TIMEOUT =? 0) with false. cbv iota.
    apply yields_ret. eexists. split; reflexivity.
  - intros [d t] Hd. cbn [fst] in Hd. subst d.
    unfold wait_for_response_body.
    change (negb (R1_IDLE_STATE =? 0xFF)) with true. cbv iota.
    apply yields_ret. eexists. split; reflexivity.
Qed.

Lemma idle_send_command_frame (cd : cmd_desc) :
  response_len cd = R1_LEN \/ response_len cd = R3_LEN ->
  yields (send_command_frame idle_card cd) (idle_answer cd).
Proof.
  intros Hl. unfold send_command_frame. cbv zeta.
  apply yields_bind with (P := fun _ => True); [apply idle_get_buff|].
  intros b _.
  apply yields_bind with (P := fun _ => True); [apply idle_set_buff|].
  intros _ _.
  apply yields_bind with (P := fun _ => True); [apply idle_exchange_buff|].
  intros _ _.
  apply yields_bind with (P := fun r => r = R1_IDLE_STATE);
    [apply idle_wait_for_response|].
  intros r0 ->. destruct Hl as [Hl | Hl]; rewrite Hl.
  - change (0 <? u32 (R1_LEN - 1)) with false. cbv iota.
    apply yields_ret. unfold idle_answer. cbn [set_response cmd response_len
                                                 response].
    repeat split; try reflexivity;
      unfold R1_LEN, R3_LEN in *; congruence.
  - change (0 <? u32 (R3_LEN - 1)) with true. cbv iota.
    change (Z.to_nat (u32 (R3_LEN - 1))) with 4%nat.
    apply yields_bind with (P := fun rx => rx = [0x00; 0x00; 0x01; 0xAA]);
      [apply idle_long_response|].
    intros rx ->. apply yields_ret. unfold idle_answer.
    cbn [set_response cmd response_len response]. repeat split; reflexivity.
Qed.

Lemma idle_send_command (cd : cmd_desc) :
  response_len cd = R1_LEN \/ response_len cd = R3_LEN ->
  yields (send_command idle_card cd) (idle_answer cd).
Proof.
  intros Hl st.
  destruct (Z.land (cmd cd) BIT_APPLICATION_CMD =? 0) eqn:E.
  - apply Z.eqb_eq in E. unfold send_command.
    rewrite send_command_not_application by exact E.
    now apply idle_send_command_frame.
  - rewrite send_command_application by exact E.
    destruct (idle_send_command_frame
                (new_cmd_desc (CMD 55) STUFF_ARG R1_LEN) (or_introl eq_refl) st)
      as (l & st1 & E1 & _ & _ & Hr & _).
    rewrite E1, Hr. change (R1_IDLE_STATE =? R1_IDLE_STATE) with true.
    cbv iota. now apply idle_send_command_frame.
Qed.

(** X12: [sd_init] has no bound on its wait for the card to become ready.
    On a card that answers every command with R1 = 0x01 (idle) and CMD8
    with the echo the driver wants, [sd_init] uses up the turns of its
    ACMD41 loop however many the model gives it: the loop of the source
    never ends and the call never returns. *)
Theorem sd_init_waits_for_ever (fuel : nat) (st : state unit unit) :
  fst (sd_init idle_card fuel true (Some (Sd_init_param tt)) true st)
  = OutOfFuel.
Proof.
  revert st. change (never_returns
    (sd_init idle_card fuel true (Some (Sd_init_param tt)) true)).
  unfold sd_init. cbn [negb]. cbv iota.
  apply never_returns_bind with (P := fun _ => True).
  { intros st. eexists tt, _. split; [reflexivity | exact I]. }
  intros _ _.
  apply never_returns_bind with (P := fun _ => True); [apply idle_get_buff|].
  intros b _.
  apply never_returns_bind with (P := fun _ => True); [apply idle_set_buff|].
  intros _ _.
  apply never_returns_bind with (P := fun _ => True);
    [apply idle_exchange_buff|].
  intros _ _.
  apply never_returns_bind with (P := fun _ => True).
  { apply yields_loop_one. unfold sd_init_cmd0_body.
    apply yields_bind with (P := idle_answer
                                   (new_cmd_desc (CMD 0) STUFF_ARG R1_LEN)).
    - apply idle_send_command. now left.
    - intros cd (_ & _ & Hr & _). rewrite Hr.
      change (R1_IDLE_STATE =? R1_IDLE_STATE) with true. cbv iota.
      apply yields_ret. eexists. split; [reflexivity | exact I]. }
  intros cd0 _.
  match goal with
  | |- never_returns (bind (send_command idle_card ?cd) _) =>
      apply never_returns_bind with (P := idle_answer cd);
        [apply idle_send_command; now right|]
  end.
  intros cd8 (_ & _ & H0 & H34). destruct (H34 eq_refl) as [H3 H4].
  rewrite H0, H3, H4.
  change (negb ((R1_IDLE_STATE =? R1_IDLE_STATE) && (1 =? 1)
                && (170 =? 170))) with false. cbv iota.
  apply never_returns_first.
  apply never_returns_loop
    with (I := fun cd => response_len cd = R1_LEN).
  - intros cd Hcd. unfold sd_init_acmd41_body.
    apply yields_bind with (P := idle_answer cd).
    + apply idle_send_command. now left.
    + intros cd' (_ & Hl & Hr & _). rewrite Hr.
      change (R1_IDLE_STATE =? R1_READY_STATE) with false. cbv iota.
      apply yields_ret. eexists. split; [reflexivity|].
      cbn [response_len]. congruence.
  - reflexivity.
Qed.

(** ** One whole block written *)

Lemma whole_block_write_overwrites_the_data_witness :
  let st := ready (user_memory (repeat 0x5A 512))
              (during_command ++ [0x00]
               ++ [0xFF] ++ block_of 0x33 ++ [0xFF; 0xFF] ++ [0xE5]
               ++ [0x01]) in
  let p := Ptr (User 0) 0 in
  let st' := snd (sd_write script_exchange (Some p) 1024 512 st) in
  (exists t,
     trace st' = trace st ++ t
     /\ blocks_sent t = slice (mem st (base p)) (offset p) 512
     /\ Z.of_nat (length (blocks_received t)) = 512
     /\ mem st' (base p)
        = blit (mem st (base p)) (offset p) (blocks_received t))
  /\ mem st (User 0) = block_of 0x5A
  /\ mem st' (User 0) = block_of 0x33.
Proof.
  intros st p st'. split; [| split; vm_compute; reflexivity].
  apply (whole_block_write_overwrites_the_data script_exchange p 1024 512
           st st' tt).
  - vm_compute. reflexivity.
  - lia.
  - lia.
  - lia.
  - reflexivity.
  - reflexivity.
  - vm_compute. discriminate.
  - vm_compute. discriminate.
Defined.
